(** * EasyBuckets backend: account security and reporting

    A shallow embedding of the authentication service
    ([services/authService.js], [models/User.js], [middleware/auth.js],
    [config/jwt.js]), of the donation reports ([models/Donation.js]), of the testimonial
    model and service ([models/Testimonial.js],
    [services/testimonialService.js]) and of the error classes
    ([utils/errorHandler.js]), followed by the properties proved about
    them.

    Conventions.
    - A MongoDB collection is the list of its documents in insertion order.
    - A JavaScript [Number] holding an amount or an average is an exact
      rational ([Q]); IEEE rounding is not modelled, and nothing below
      rests on the exact value of a sum or an average of amounts.
      Counters and timestamps (milliseconds since the epoch) are
      integers.
    - A string is a [string] of bytes; case mapping and white space are
      those of ASCII.
    - An [async] function that may throw is a function from the state of
      the store to a result (value or error) and the next state. *)

From Stdlib Require Import List ZArith QArith Qround Qabs String Ascii Bool Lia Lqa.
From Stdlib Require Import Sorting.Sorted Sorting.Permutation.
From Stdlib Require Import DecimalString.
Import ListNotations.
Close Scope Q_scope.

(* ================================================================== *)
(** * Part I. The model *)
(* ================================================================== *)

(** ** Aggregation helpers *)

Module Agg.

(** [$sum] over a list of numbers: a left fold from 0. *)
Definition sum (l : list Q) : Q := fold_left Qplus l 0%Q.

Definition qmax (a b : Q) : Q := if Qle_bool a b then b else a.
Definition qmin (a b : Q) : Q := if Qle_bool a b then a else b.

(** [$max] and [$min] over a non-empty list, given as head and tail. *)
Definition maxQ (x : Q) (l : list Q) : Q := fold_left qmax l x.
Definition minQ (x : Q) (l : list Q) : Q := fold_left qmin l x.

(** [$avg]: the sum divided by the number of values. *)
Definition avg (l : list Q) : Q :=
  (sum l / inject_Z (Z.of_nat (List.length l)))%Q.

(** Rounding to the nearest integer, ties to the even neighbour, which
    is how [$round] resolves a trailing 5. *)
Definition roundHalfEven (q : Q) : Z :=
  let fl := Qfloor q in
  match Qcompare (q - inject_Z fl) (1 # 2) with
  | Lt => fl
  | Gt => (fl + 1)%Z
  | Eq => if Z.even fl then fl else (fl + 1)%Z
  end.

(** [{ $round: [q, 2] }]. *)
Definition round2 (q : Q) : Q := roundHalfEven (q * 100) # 100.

(** Stable insertion sort, greatest key first: [{ $sort: { key: -1 } }]. *)
Section SortDesc.
Variable A : Type.
Variable key : A -> Q.

(** The order of the result: no key grows along the list. *)
Definition descBy (a b : A) : Prop := (key b <= key a)%Q.

Fixpoint insertDesc (x : A) (l : list A) : list A :=
  match l with
  | [] => [x]
  | y :: l' =>
      if Qle_bool (key x) (key y) then y :: insertDesc x l'
      else x :: y :: l'
  end.

Fixpoint sortDesc (l : list A) : list A :=
  match l with
  | [] => []
  | x :: l' => insertDesc x (sortDesc l')
  end.
End SortDesc.

Arguments descBy {A} key a b.
Arguments insertDesc {A} key x l.
Arguments sortDesc {A} key l.

End Agg.

(** ** Errors ([utils/errorHandler.js]) *)

Module Err.

(** What the handlers read off a thrown value: its [name], [message],
    [statusCode], [code] and [isOperational].  [nameIsOwn] tells whether
    [name] is a property of the object itself, assigned by a constructor,
    or comes from the prototype, as the [name] of a plain [Error] does. *)
Record t := mk {
  name : string;
  message : string;
  statusCode : option Z;
  code : option Z;
  isOperational : bool;
  nameIsOwn : bool
}.

(** [class AppError extends Error]: it sets no name of its own. *)
Definition AppError (message : string) (statusCode : Z) : t :=
  mk "Error" message (Some statusCode) None true false.

(** The subclasses: each fixes the status and then sets [this.name]. *)
Definition ValidationError (message : string) : t :=
  mk "ValidationError" message (Some 400%Z) None true true.

Definition AuthError (message : string) : t :=
  mk "AuthError" message (Some 401%Z) None true true.

Definition AuthorizationError (message : string) : t :=
  mk "AuthorizationError" message (Some 403%Z) None true true.

Definition NotFoundError (resource : string) : t :=
  mk "NotFoundError" (resource ++ " not found") (Some 404%Z) None true true.

Definition ConflictError (message : string) : t :=
  mk "ConflictError" message (Some 409%Z) None true true.

(** [new Error(message)] *)
Definition PlainError (message : string) : t :=
  mk "Error" message None None false false.

(** Errors that come from the libraries, as far as the handlers tell them
    apart: the driver's duplicate-key error and the validation error of
    the document mapper.  Both have their [name] from the prototype. *)
Definition DuplicateKey : t :=
  mk "MongoServerError" "E11000 duplicate key error" None (Some 11000%Z) false
     false.

Definition MongooseValidation (message : string) : t :=
  mk "ValidationError" message None None false false.

(** [{ ...err }] followed by [error.message = err.message]: the copy is a
    plain object with the own enumerable properties of [err].  A [name]
    that [err] has from its prototype is not among them; the copy then has
    no [name], which is rendered by the empty string, a name no handler
    asks for. *)
Definition spread (e : t) : t :=
  mk (if nameIsOwn e then name e else "") (message e) (statusCode e)
     (code e) (isOperational e) (nameIsOwn e).

Definition codeIs (n : Z) (e : t) : bool :=
  match code e with Some c => Z.eqb c n | None => false end.

(** [err.statusCode || 500] *)
Definition statusOr500 (e : t) : Z :=
  match statusCode e with
  | Some c => if Z.eqb c 0 then 500%Z else c
  | None => 500%Z
  end.

(** The rewriting of library errors done for production responses, on
    the copy [error] of the error.  The messages of the rewritten errors
    are built from fields of the library error ([path], [value],
    [keyValue]) that the record does not carry; they are abbreviated here.
    The statuses are those of the source. *)
Definition translate (e : t) : t :=
  let e1 := if String.eqb (name e) "CastError"
            then AppError "Invalid value" 400 else e in
  let e2 := if codeIs 11000 e1 then ConflictError "already exists" else e1 in
  let e3 := if String.eqb (name e2) "ValidationError"
            then ValidationError "Invalid input data" else e2 in
  let e4 := if String.eqb (name e3) "JsonWebTokenError"
            then AuthError "Invalid token. Please log in again" else e3 in
  if String.eqb (name e4) "TokenExpiredError"
  then AuthError "Token has expired. Please log in again" else e4.

(** [globalErrorHandler]: the HTTP status of the response it sends, in
    development ([sendErrorDev]) and otherwise ([sendErrorProd]). *)
Definition globalErrorHandler (development : bool) (err : t) : Z :=
  let err := mk (name err) (message err) (Some (statusOr500 err))
                (code err) (isOperational err) (nameIsOwn err) in
  if development then statusOr500 err
  else
    let error := translate (spread err) in
    if isOperational error then statusOr500 error else 500%Z.

End Err.

(** ** Calls that may throw and that change the store *)

Inductive Result (A : Type) : Type :=
| Ok (a : A)
| Throw (e : Err.t).

Arguments Ok {A} a.
Arguments Throw {A} e.

(** A call runs on a state and leaves a state, also when it throws: what
    was written before the [throw] stays written. *)
Definition M (S A : Type) : Type := S -> Result A * S.

Definition ret {S A : Type} (a : A) : M S A := fun s => (Ok a, s).

Definition throw {S A : Type} (e : Err.t) : M S A := fun s => (Throw e, s).

Definition bind {S A B : Type} (m : M S A) (k : A -> M S B) : M S B :=
  fun s =>
    match m s with
    | (Ok a, s') => k a s'
    | (Throw e, s') => (Throw e, s')
    end.

(** [try { m } catch (error) { h error }] *)
Definition catch {S A : Type} (m : M S A) (h : Err.t -> M S A) : M S A :=
  fun s =>
    match m s with
    | (Ok a, s') => (Ok a, s')
    | (Throw e, s') => h e s'
    end.

Definition lift {S A : Type} (r : Result A) : M S A := fun s => (r, s).

Definition modify {S : Type} (f : S -> S) : M S unit := fun s => (Ok tt, f s).

Definition gets {S A : Type} (f : S -> A) : M S A := fun s => (Ok (f s), s).

Declare Scope js_scope.
Delimit Scope js_scope with js.
Notation "x <- c1 ;; c2" := (bind c1 (fun x => c2))
  (at level 61, c1 at next level, right associativity) : js_scope.
Notation "c1 ;;; c2" := (bind c1 (fun _ => c2))
  (at level 61, right associativity) : js_scope.
Open Scope js_scope.

(** ** Donations ([models/Donation.js]) *)

Module Donation.

Inductive Status := pending | completed | failed | refunded.

Definition Status_eqb (a b : Status) : bool :=
  match a, b with
  | pending, pending | completed, completed
  | failed, failed | refunded, refunded => true
  | _, _ => false
  end.

Record t := mk {
  donorName : string;
  donorEmail : string;
  amount : Q;
  isAnonymous : bool;
  status : Status;
  createdAt : Z
}.

(** A line of the leaderboard, after [$project]. *)
Record Entry := mkEntry {
  e_donorEmail : string;
  e_donorName : string;
  e_totalAmount : Q;
  e_donationCount : nat;
  e_lastDonation : Z;
  e_formattedTotal : string
}.

(** [{ $match: { status: 'completed' } }] *)
Definition matchCompleted (d : t) : bool := Status_eqb (status d) completed.

(** An operand of [$concat] as the pipeline writes it: a string, or
    [{ $toString: <string> }]. *)
Inductive Operand :=
| Text (s : string)
| ToString (s : string).

(** What the database server makes of a string in the place of an
    expression: with a leading [$] it is the path of a field, and the path
    must not be empty; any other string stands for itself.  A string that
    begins with [$] is written as a literal with [$literal] only. *)
Inductive Expr :=
| Literal (s : string)
| FieldPath (path : string)
| StringOf (e : Expr).

(** The two refusals of the server that the pipeline can meet. *)
Definition invalidFieldPath : Err.t :=
  Err.mk "MongoServerError" "'$' by itself is not a valid FieldPath" None
         (Some 16872%Z) false false.

Definition limitNotPositive : Err.t :=
  Err.mk "MongoServerError" "the limit must be positive" None
         (Some 15958%Z) false false.

Definition parseString (s : string) : Result Expr :=
  match s with
  | String "$" EmptyString => Throw invalidFieldPath
  | String "$" path => Ok (FieldPath path)
  | _ => Ok (Literal s)
  end.

Definition parseOperand (o : Operand) : Result Expr :=
  match o with
  | Text s => parseString s
  | ToString s =>
      match parseString s with
      | Ok e => Ok (StringOf e)
      | Throw error => Throw error
      end
  end.

Fixpoint parseOperands (os : list Operand) : Result (list Expr) :=
  match os with
  | [] => Ok []
  | o :: rest =>
      match parseOperand o with
      | Ok e =>
          match parseOperands rest with
          | Ok es => Ok (e :: es)
          | Throw error => Throw error
          end
      | Throw error => Throw error
      end
  end.

(** [formattedTotal: { $concat: ['$', { $toString: '$totalAmount' }] }] *)
Definition formattedTotal : list Operand :=
  [Text "$"; ToString "$totalAmount"].

Section Leaderboard.
(** What the server computes from a pipeline it has accepted, given the
    limit and the parsed operands of [formattedTotal]. *)
Variable run : Z -> list Expr -> list t -> list Entry.

(** [donationSchema.statics.getLeaderboard].  The server parses the
    stages in their order before it reads a document: [$limit] takes a
    positive number, and [$project] has its expressions parsed.  The
    field paths of the other stages name a field each. *)
Definition getLeaderboard (limit : Z) (store : list t)
  : Result (list Entry) :=
  if (limit <=? 0)%Z then Throw limitNotPositive
  else
    match parseOperands formattedTotal with
    | Ok exprs => Ok (run limit exprs store)
    | Throw error => Throw error
    end.
End Leaderboard.

Record Stats := mkStats {
  totalAmount : Q;
  totalDonations : nat;
  averageAmount : Q;
  maxAmount : Q;
  minAmount : Q
}.

(** [{ $group: { _id: null, ... } }]: no document in, no document out;
    otherwise one document with the five accumulators. *)
Definition groupAll (docs : list t) : list Stats :=
  match map amount docs with
  | [] => []
  | a :: l =>
      [mkStats (Agg.sum (a :: l)) (List.length (a :: l)) (Agg.avg (a :: l))
               (Agg.maxQ a l) (Agg.minQ a l)]
  end.

Definition zeroStats : Stats := mkStats 0 0 0 0 0.

(** [donationSchema.statics.getStats]: [stats[0] || { ...zeros }]. *)
Definition getStats (store : list t) : Stats :=
  match groupAll (filter matchCompleted store) with
  | s :: _ => s
  | [] => zeroStats
  end.

End Donation.

(** ** Testimonials ([models/Testimonial.js]) *)

Module Testimonial.

Record t := mk {
  _id : nat;
  name : string;
  rating : Z;
  isApproved : bool;
  isFeatured : bool;
  isVisible : bool
}.

Record RatingCounts := mkCounts {
  stars5 : nat; stars4 : nat; stars3 : nat; stars2 : nat; stars1 : nat
}.

Record RatingStats := mkRatingStats {
  totalReviews : nat;
  averageRating : Q;
  ratingCounts : RatingCounts
}.

(** [{ $match: { isApproved: true, isVisible: true } }] *)
Definition matchPublic (x : t) : bool := isApproved x && isVisible x.

(** [{ $size: { $filter: { input, cond: { $eq: ['$$this', k] } } } }] *)
Definition sizeEq (k : Z) (ratingDistribution : list Z) : nat :=
  List.length (filter (Z.eqb k) ratingDistribution).

(** The [$group] and [$project] stages of [getRatingStats]. *)
Definition groupRatings (docs : list t) : list RatingStats :=
  match map rating docs with
  | [] => []
  | ratingDistribution =>
      [mkRatingStats
         (List.length ratingDistribution)
         (Agg.round2 (Agg.avg (map inject_Z ratingDistribution)))
         (mkCounts (sizeEq 5 ratingDistribution) (sizeEq 4 ratingDistribution)
                   (sizeEq 3 ratingDistribution) (sizeEq 2 ratingDistribution)
                   (sizeEq 1 ratingDistribution))]
  end.

Definition zeroRatingStats : RatingStats :=
  mkRatingStats 0 0 (mkCounts 0 0 0 0 0).

(** [testimonialSchema.statics.getRatingStats] *)
Definition getRatingStats (store : list t) : RatingStats :=
  match groupRatings (filter matchPublic store) with
  | s :: _ => s
  | [] => zeroRatingStats
  end.

End Testimonial.

(** ** Strings *)

Module Str.

Definition lowerAscii (c : ascii) : ascii :=
  let n := nat_of_ascii c in
  if (65 <=? n)%nat && (n <=? 90)%nat then ascii_of_nat (n + 32) else c.

(** [String.prototype.toLowerCase] *)
Fixpoint toLowerCase (s : string) : string :=
  match s with
  | EmptyString => EmptyString
  | String c r => String (lowerAscii c) (toLowerCase r)
  end.

(** [\s]: space, tab, line feed, vertical tab, form feed, carriage return. *)
Definition isSpace (c : ascii) : bool :=
  let n := nat_of_ascii c in
  (n =? 32)%nat || ((9 <=? n)%nat && (n <=? 13)%nat).

Fixpoint trimStart (s : string) : string :=
  match s with
  | EmptyString => EmptyString
  | String c r => if isSpace c then trimStart r else s
  end.

Fixpoint trimEnd (s : string) : string :=
  match s with
  | EmptyString => EmptyString
  | String c r =>
      match trimEnd r with
      | EmptyString => if isSpace c then EmptyString else String c EmptyString
      | r' => String c r'
      end
  end.

(** [String.prototype.trim] *)
Definition trim (s : string) : string := trimEnd (trimStart s).

(** [[^\s@]] *)
Definition plainChar (c : ascii) : bool :=
  negb (isSpace c) && negb (Ascii.eqb c "@").

Fixpoint allPlain (s : string) : bool :=
  match s with
  | EmptyString => true
  | String c r => plainChar c && allPlain r
  end.

(** The part before and the part after the first [@]. *)
Fixpoint splitAt (s : string) : option (string * string) :=
  match s with
  | EmptyString => None
  | String c r =>
      if Ascii.eqb c "@" then Some (EmptyString, r)
      else match splitAt r with
           | Some (a, b) => Some (String c a, b)
           | None => None
           end
  end.

(** A dot that is followed by at least one more character. *)
Fixpoint dotBeforeEnd (s : string) : bool :=
  match s with
  | String c (String _ _ as r) => Ascii.eqb c "." || dotBeforeEnd r
  | _ => false
  end.

(** [/^[^\s@]+@[^\s@]+\.[^\s@]+$/.test(s)] *)
Definition emailMatch (s : string) : bool :=
  match splitAt s with
  | None => false
  | Some (loc, dom) =>
      negb (String.eqb loc "") && allPlain loc && allPlain dom
      && match dom with
         | String _ r => dotBeforeEnd r
         | EmptyString => false
         end
  end.

End Str.

(** ** Users ([models/User.js]) *)

Module User.

Inductive Role := user | admin | moderator.

(** An element of [refreshTokens]. *)
Record RefreshTokenRecord := mkToken {
  token : string;
  createdAt : Z
}.

Record t := mk {
  _id : nat;
  name : string;
  email : string;
  password : string;
  role : Role;
  isActive : bool;
  isVerified : bool;
  refreshTokens : list RefreshTokenRecord;
  lastLogin : option Z;
  (** an absent counter reads as its default, 0 *)
  loginAttempts : Z;
  lockUntil : option Z;
  passwordChangedAt : option Z
}.

Definition set_password (v : string) (u : t) : t :=
  mk (_id u) (name u) (email u) v (role u) (isActive u) (isVerified u)
     (refreshTokens u) (lastLogin u) (loginAttempts u) (lockUntil u)
     (passwordChangedAt u).

Definition set_isActive (v : bool) (u : t) : t :=
  mk (_id u) (name u) (email u) (password u) (role u) v (isVerified u)
     (refreshTokens u) (lastLogin u) (loginAttempts u) (lockUntil u)
     (passwordChangedAt u).

Definition set_refreshTokens (v : list RefreshTokenRecord) (u : t) : t :=
  mk (_id u) (name u) (email u) (password u) (role u) (isActive u)
     (isVerified u) v (lastLogin u) (loginAttempts u) (lockUntil u)
     (passwordChangedAt u).

Definition set_lastLogin (v : option Z) (u : t) : t :=
  mk (_id u) (name u) (email u) (password u) (role u) (isActive u)
     (isVerified u) (refreshTokens u) v (loginAttempts u) (lockUntil u)
     (passwordChangedAt u).

Definition set_loginAttempts (v : Z) (u : t) : t :=
  mk (_id u) (name u) (email u) (password u) (role u) (isActive u)
     (isVerified u) (refreshTokens u) (lastLogin u) v (lockUntil u)
     (passwordChangedAt u).

Definition set_lockUntil (v : option Z) (u : t) : t :=
  mk (_id u) (name u) (email u) (password u) (role u) (isActive u)
     (isVerified u) (refreshTokens u) (lastLogin u) (loginAttempts u) v
     (passwordChangedAt u).

Definition set_passwordChangedAt (v : option Z) (u : t) : t :=
  mk (_id u) (name u) (email u) (password u) (role u) (isActive u)
     (isVerified u) (refreshTokens u) (lastLogin u) (loginAttempts u)
     (lockUntil u) v.

(** What [toJSON] leaves of a document: the transform deletes [password]
    and [refreshTokens]. *)
Record Json := mkJson {
  j_id : nat;
  j_name : string;
  j_email : string;
  j_role : Role;
  j_isActive : bool;
  j_isVerified : bool;
  j_lastLogin : option Z
}.

Definition toJSON (u : t) : Json :=
  mkJson (_id u) (name u) (email u) (role u) (isActive u) (isVerified u)
         (lastLogin u).

End User.

(** ** The token service ([config/jwt.js])

    [jwtManager] signs and verifies with the library [jsonwebtoken], which
    is a parameter.  The operations that sign or check an expiry receive
    the reading of the clock they are called at; the readings taken within
    one call of [generateTokenPair] are taken to be one. *)

Module Jwt.

Record Tokens := mkTokens {
  accessToken : string;
  refreshToken : string;
  expiresIn : string
}.

(** The claims the callers read: [decoded.id] and [decoded.iat] (seconds). *)
Record Claims := mkClaims {
  id : nat;
  iat : Z
}.

(** The two ways the manager calls the library: with [this.secret], the
    issuer and the audience, and with [this.refreshSecret] and the
    issuer. *)
Inductive Key := accessKey | refreshKey.

(** The payload handed to [jwt.sign], but for its [iat]. *)
Record Payload := mkPayload {
  p_id : nat;
  p_email : option string;
  p_role : option User.Role;
  p_tokenType : option string
}.

(** The fields of a verified payload that are read. *)
Record Decoded := mkDecoded {
  d_id : nat;
  d_iat : Z;
  d_tokenType : option string
}.

(** [jsonwebtoken].  [jwt.sign] stamps the token with [iat], the one of
    the payload or else [Math.floor(Date.now() / 1000)], and signs header
    and payload with a keyed hash: the token is a function of the secret
    and the options, of that second and of the payload.  [jwt.verify]
    receives the reading of the clock at which it checks the expiry. *)
Class Jsonwebtoken := {
  jwt_sign : Key -> Z -> Payload -> string;
  jwt_verify : Key -> Z -> string -> Result Decoded
}.

Section Manager.
Context {L : Jsonwebtoken}.

(** [generateAccessToken]: the payload carries
    [iat: Math.floor(Date.now() / 1000)]. *)
Definition generateAccessToken (t : Z) (payload : Payload) : string :=
  jwt_sign accessKey (t / 1000)
           (mkPayload (p_id payload) (p_email payload)
                      (match p_role payload with
                       | Some r => Some r
                       | None => Some User.user
                       end)
                      None).

(** [generateRefreshToken]: the payload is
    [{ id: payload.id, tokenType: 'refresh' }]. *)
Definition generateRefreshToken (t : Z) (payload : Payload) : string :=
  jwt_sign refreshKey (t / 1000)
           (mkPayload (p_id payload) None None (Some "refresh"%string)).

(** [generateTokenPair]; [expiresIn] is [config.JWT.EXPIRES_IN], here its
    default. *)
Definition generateTokenPair (t : Z) (user : User.t) : Tokens :=
  let payload := mkPayload (User._id user) (Some (User.email user))
                           (Some (User.role user)) None in
  mkTokens (generateAccessToken t payload) (generateRefreshToken t payload)
           "24h".

(** [verifyAccessToken] *)
Definition verifyAccessToken (t : Z) (token : string) : Result Claims :=
  match jwt_verify accessKey t token with
  | Ok decoded => Ok (mkClaims (d_id decoded) (d_iat decoded))
  | Throw error => Throw error
  end.

(** [verifyRefreshToken] *)
Definition verifyRefreshToken (t : Z) (token : string) : Result Claims :=
  match jwt_verify refreshKey t token with
  | Ok decoded =>
      match d_tokenType decoded with
      | Some tokenType =>
          if String.eqb tokenType "refresh"
          then Ok (mkClaims (d_id decoded) (d_iat decoded))
          else Throw (Err.PlainError "Invalid token type")
      | None => Throw (Err.PlainError "Invalid token type")
      end
  | Throw error => Throw error
  end.

End Manager.

(** [extractToken] *)
Definition extractToken (authHeader : string) : Result string :=
  if String.prefix "Bearer " authHeader
  then Ok (String.substring 7 (String.length authHeader - 7) authHeader)
  else Throw (Err.PlainError "Invalid authorization header format").

Arguments generateAccessToken : simpl never.
Arguments generateRefreshToken : simpl never.
Arguments generateTokenPair : simpl never.
Arguments verifyAccessToken : simpl never.
Arguments verifyRefreshToken : simpl never.
Arguments extractToken : simpl never.

End Jwt.

(** [bcryptjs]: [hash(plain, rounds)] and [compare(candidate, hash)]. *)
Class Bcrypt := {
  bcrypt_hash : string -> string;
  bcrypt_compare : string -> string -> bool
}.

(** The successive readings of [Date.now()] and [new Date()]. *)
Class Clock := {
  clock : nat -> Z
}.

(** ** The user collection and the model's methods *)

Module Db.

(** The collection, the next fresh [_id], and how many times the clock
    has been read. *)
Record World := mkWorld {
  users : list User.t;
  nextId : nat;
  tick : nat
}.

Definition set_users (v : list User.t) (w : World) : World :=
  mkWorld v (nextId w) (tick w).

(** [findOne(filter)]: the first document that satisfies the filter. *)
Definition findOne (p : User.t -> bool) : M World (option User.t) :=
  gets (fun w => find p (users w)).

Definition hasId (i : nat) (u : User.t) : bool := Nat.eqb (User._id u) i.

(** The filter [{ email: v }]. *)
Definition emailIs (v : string) (u : User.t) : bool :=
  String.eqb (User.email u) v.

Definition findById (i : nat) : M World (option User.t) := findOne (hasId i).

(** [updateOne] on the document whose [_id] is [i]. *)
Definition updateById (i : nat) (f : User.t -> User.t) : M World unit :=
  modify (fun w =>
    set_users (map (fun u => if hasId i u then f u else u) (users w)) w).

(** [findByIdAndUpdate(i, f, { new: true })] *)
Definition findByIdAndUpdate (i : nat) (f : User.t -> User.t)
  : M World (option User.t) :=
  updateById i f ;;; findById i.

Section WithClock.
Context {C : Clock}.

(** [Date.now()] *)
Definition now : M World Z :=
  fun w => (Ok (clock (tick w)), mkWorld (users w) (nextId w) (S (tick w))).

End WithClock.

End Db.

Module UserModel.
Import Db.

Section Methods.
Context {C : Clock} {B : Bcrypt}.

(** [userSchema.virtual('isLocked')]:
    [!!(this.lockUntil && this.lockUntil > Date.now())]. *)
Definition isLocked (u : User.t) : M World bool :=
  match User.lockUntil u with
  | None => ret false
  | Some l => t <- now ;; ret (t <? l)%Z
  end.

(** [methods.comparePassword] *)
Definition comparePassword (u : User.t) (candidatePassword : string) : bool :=
  bcrypt_compare candidatePassword (User.password u).

Definition twoHours : Z := 2 * 60 * 60 * 1000.

(** [methods.incLoginAttempts].  The tests read the loaded document
    [u]; the update operators act on the stored one. *)
Definition incLoginAttempts (u : User.t) : M World unit :=
  expired <- match User.lockUntil u with
             | None => ret false
             | Some l => t <- now ;; ret (l <? t)%Z
             end ;;
  if (expired : bool) then
    updateById (User._id u)
      (fun d => User.set_loginAttempts 1 (User.set_lockUntil None d))
  else
    lockNow <- (if (5 <=? User.loginAttempts u + 1)%Z
                then locked <- isLocked u ;; ret (negb locked)
                else ret false) ;;
    if (lockNow : bool) then
      t <- now ;;
      updateById (User._id u)
        (fun d => User.set_lockUntil (Some (t + twoHours)%Z)
                    (User.set_loginAttempts (User.loginAttempts d + 1) d))
    else
      updateById (User._id u)
        (fun d => User.set_loginAttempts (User.loginAttempts d + 1) d).

(** [methods.resetLoginAttempts]: [$unset] of both fields. *)
Definition resetLoginAttempts (u : User.t) : M World unit :=
  updateById (User._id u)
    (fun d => User.set_loginAttempts 0 (User.set_lockUntil None d)).

(** [this.save()] after an assignment to [refreshTokens]. *)
Definition saveRefreshTokens (u : User.t) : M World unit :=
  updateById (User._id u) (User.set_refreshTokens (User.refreshTokens u)).

(** [methods.addRefreshToken]; the pushed element takes its [createdAt]
    from the clock. *)
Definition addRefreshToken (u : User.t) (token : string) : M World User.t :=
  t <- now ;;
  let u' := User.set_refreshTokens
              (User.refreshTokens u ++ [User.mkToken token t]) u in
  saveRefreshTokens u' ;;;
  ret u'.

(** [methods.removeRefreshToken] *)
Definition removeRefreshToken (u : User.t) (token : string) : M World User.t :=
  let u' := User.set_refreshTokens
              (filter (fun rt => negb (String.eqb (User.token rt) token))
                      (User.refreshTokens u)) u in
  saveRefreshTokens u' ;;;
  ret u'.

(** The schema's setters on [email]: [lowercase] and [trim]. *)
Definition emailSetter (v : string) : string := Str.trim (Str.toLowerCase v).

(** The filter [{ email: v }] of a query: the value is cast by the
    schema, which runs the setters on it. *)
Definition emailFilter (v : string) : User.t -> bool :=
  emailIs (emailSetter v).

(** [statics.findByEmail] *)
Definition findByEmail (email : string) : M World (option User.t) :=
  findOne (emailFilter (Str.toLowerCase email)).

(** [new User({ name, email, password })]: the setters run, the defaults
    are filled in and a fresh [_id] is drawn. *)
Definition newUser (name email password : string) : M World User.t :=
  t <- now ;;
  i <- gets nextId ;;
  modify (fun w => mkWorld (users w) (S (nextId w)) (tick w)) ;;;
  ret (User.mk i (Str.trim name) (emailSetter email) password User.user
               true false [] None 0 None (Some t)).

(** The validators of [name], [email] and [password]. *)
Definition nameValid (v : string) : bool :=
  (2 <=? String.length v)%nat && (String.length v <=? 50)%nat.

Definition passwordValid (v : string) : bool := (8 <=? String.length v)%nat.

Definition validate (u : User.t) : bool :=
  nameValid (User.name u) && Str.emailMatch (User.email u)
  && passwordValid (User.password u).

(** [pre('save')] when the password is modified: hash it and stamp
    [passwordChangedAt]. *)
Definition hashPassword (u : User.t) : M World User.t :=
  t <- now ;;
  ret (User.set_passwordChangedAt (Some t)
         (User.set_password (bcrypt_hash (User.password u)) u)).

(** The insertion, under the unique index on [email]. *)
Definition insert (u : User.t) : M World unit :=
  fun w =>
    if existsb (emailIs (User.email u)) (users w)
    then (Throw Err.DuplicateKey, w)
    else (Ok tt, set_users (users w ++ [u]) w).

(** [save()] of a new document: validation, then the hook, then the
    insertion. *)
Definition saveNew (u : User.t) : M World User.t :=
  if validate u then
    u' <- hashPassword u ;;
    insert u' ;;;
    ret u'
  else throw (Err.MongooseValidation "User validation failed").

End Methods.
End UserModel.

(** ** The authentication service ([services/authService.js]) *)

Module AuthService.
Import Db UserModel.

Section Service.
Context {C : Clock} {B : Bcrypt} {J : Jwt.Jsonwebtoken}.

(** [jwtManager.generateTokenPair(user)], called at the next reading of
    the clock. *)
Definition issueTokens (u : User.t) : M World Jwt.Tokens :=
  t <- now ;; ret (Jwt.generateTokenPair t u).

(** [AuthService.register] *)
Definition register (name email password : string)
  : M World (User.Json * Jwt.Tokens) :=
  catch
    (existingUser <- findByEmail email ;;
     match existingUser with
     | Some _ => throw (Err.ConflictError "Email is already registered")
     | None =>
         u <- newUser (Str.trim name) (Str.trim (Str.toLowerCase email))
                      password ;;
         u <- saveNew u ;;
         tokens <- issueTokens u ;;
         u <- addRefreshToken u (Jwt.refreshToken tokens) ;;
         ret (User.toJSON u, tokens)
     end)
    (fun error =>
       if Err.codeIs 11000 error
       then throw (Err.ConflictError "Email is already registered")
       else throw error).

(** [AuthService.login]; [ipAddress] only reaches the log. *)
Definition login (email password ipAddress : string)
  : M World (User.Json * Jwt.Tokens) :=
  found <- findOne (emailFilter (Str.toLowerCase email)) ;;
  match found with
  | None => throw (Err.AuthError "Invalid email or password")
  | Some u =>
      locked <- isLocked u ;;
      if (locked : bool) then
        throw (Err.AuthError
                 "Account is temporarily locked. Please try again later")
      else if negb (User.isActive u) then
        throw (Err.AuthError "Account is deactivated")
      else if negb (comparePassword u password) then
        incLoginAttempts u ;;;
        throw (Err.AuthError "Invalid email or password")
      else
        (if (0 <? User.loginAttempts u)%Z then resetLoginAttempts u
         else ret tt) ;;;
        t <- now ;;
        let u := User.set_lastLogin (Some t) u in
        updateById (User._id u) (User.set_lastLogin (Some t)) ;;;
        tokens <- issueTokens u ;;
        u <- addRefreshToken u (Jwt.refreshToken tokens) ;;
        ret (User.toJSON u, tokens)
  end.

(** [AuthService.refreshToken] *)
Definition refreshToken (refreshToken : string) : M World Jwt.Tokens :=
  t <- now ;;
  decoded <- lift (Jwt.verifyRefreshToken t refreshToken) ;;
  found <- findById (Jwt.id decoded) ;;
  match found with
  | None => throw (Err.AuthError "User not found")
  | Some u =>
      match find (fun rt => String.eqb (User.token rt) refreshToken)
                 (User.refreshTokens u) with
      | None => throw (Err.AuthError "Invalid refresh token")
      | Some _ =>
          tokens <- issueTokens u ;;
          u <- removeRefreshToken u refreshToken ;;
          u <- addRefreshToken u (Jwt.refreshToken tokens) ;;
          ret tokens
      end
  end.

(** [AuthService.logout]: one token, or all of them when none is given
    (an empty string is falsy as well). *)
Definition logout (userId : nat) (refreshToken : option string)
  : M World unit :=
  found <- findById userId ;;
  match found with
  | None => throw (Err.AuthError "User not found")
  | Some u =>
      match refreshToken with
      | Some tok =>
          if String.eqb tok "" then
            saveRefreshTokens (User.set_refreshTokens [] u)
          else
            u <- removeRefreshToken u tok ;; ret tt
      | None => saveRefreshTokens (User.set_refreshTokens [] u)
      end
  end.

(** [AuthService.changePassword].  The final [save()] validates the new
    password, runs the hashing hook (which stamps [passwordChangedAt]
    again) and writes the three modified fields. *)
Definition changePassword (userId : nat) (currentPassword newPassword : string)
  : M World string :=
  found <- findById userId ;;
  match found with
  | None => throw (Err.AuthError "User not found")
  | Some u =>
      if negb (comparePassword u currentPassword) then
        throw (Err.AuthError "Current password is incorrect")
      else if comparePassword u newPassword then
        throw (Err.ValidationError
                 "New password must be different from current password")
      else
        t <- now ;;
        let u := User.set_refreshTokens []
                   (User.set_passwordChangedAt (Some t)
                      (User.set_password newPassword u)) in
        if passwordValid (User.password u) then
          u <- hashPassword u ;;
          updateById (User._id u)
            (fun d => User.set_refreshTokens (User.refreshTokens u)
                        (User.set_passwordChangedAt (User.passwordChangedAt u)
                           (User.set_password (User.password u) d))) ;;;
          ret "Password changed successfully"%string
        else throw (Err.MongooseValidation "User validation failed")
  end.

(** [AuthService.deactivateAccount] *)
Definition deactivateAccount (userId : nat) : M World string :=
  found <- findByIdAndUpdate userId
             (fun d => User.set_refreshTokens [] (User.set_isActive false d)) ;;
  match found with
  | None => throw (Err.AuthError "User not found")
  | Some _ => ret "Account deactivated successfully"%string
  end.

End Service.
End AuthService.

(** ** Request authentication ([middleware/auth.js]) *)

Module AuthMiddleware.
Import Db UserModel.

Section Middleware.
Context {C : Clock} {B : Bcrypt} {J : Jwt.Jsonwebtoken}.

(** [authenticate].  The outcome is the argument of [next]: the user
    attached to the request, or the error handed on.  Whatever the body
    throws is caught and turned into a 401. *)
Definition authenticate (authorization : option string)
  : M World (Result User.t) :=
  catch
    (match authorization with
     | None => ret (Throw (Err.AppError "Access token is required" 401))
     | Some authHeader =>
         if String.eqb authHeader "" then
           ret (Throw (Err.AppError "Access token is required" 401))
         else
           token <- lift (Jwt.extractToken authHeader) ;;
         t <- now ;;
         decoded <- lift (Jwt.verifyAccessToken t token) ;;
         found <- findById (Jwt.id decoded) ;;
         match found with
         | None => ret (Throw (Err.AppError "User no longer exists" 401))
         | Some u =>
             if negb (User.isActive u) then
               ret (Throw (Err.AppError "Account is deactivated" 401))
             else
               locked <- isLocked u ;;
               if (locked : bool) then
                 ret (Throw (Err.AppError "Account is temporarily locked" 423))
               else
                 let tokenIssuedAt := (Jwt.iat decoded * 1000)%Z in
                 match User.passwordChangedAt u with
                 | Some changed =>
                     if (tokenIssuedAt <? changed)%Z then
                       ret (Throw (Err.AppError
                         "Password recently changed. Please log in again" 401))
                     else ret (Ok u)
                 | None => ret (Ok u)
                 end
         end
     end)
    (fun error =>
       if String.eqb (Err.name error) "JsonWebTokenError" then
         ret (Throw (Err.AppError "Invalid token" 401))
       else if String.eqb (Err.name error) "TokenExpiredError" then
         ret (Throw (Err.AppError "Token has expired" 401))
       else ret (Throw (Err.AppError "Authentication failed" 401))).

End Middleware.
End AuthMiddleware.

(** ** The testimonial service ([services/testimonialService.js]) *)

Module TestimonialService.

Definition Store : Type := list Testimonial.t.

Definition hasId (i : nat) (x : Testimonial.t) : bool :=
  Nat.eqb (Testimonial._id x) i.

Definition set_isFeatured (v : bool) (x : Testimonial.t) : Testimonial.t :=
  Testimonial.mk (Testimonial._id x) (Testimonial.name x)
    (Testimonial.rating x) (Testimonial.isApproved x) v
    (Testimonial.isVisible x).

Definition set_isApproved (v : bool) (x : Testimonial.t) : Testimonial.t :=
  Testimonial.mk (Testimonial._id x) (Testimonial.name x)
    (Testimonial.rating x) v (Testimonial.isFeatured x)
    (Testimonial.isVisible x).

Definition set_isVisible (v : bool) (x : Testimonial.t) : Testimonial.t :=
  Testimonial.mk (Testimonial._id x) (Testimonial.name x)
    (Testimonial.rating x) (Testimonial.isApproved x)
    (Testimonial.isFeatured x) v.

(** [Testimonial.findByIdAndUpdate(i, f, { new: true })]: the update is
    applied in the store, and the updated document (or [null]) returned. *)
Definition findByIdAndUpdate (i : nat) (f : Testimonial.t -> Testimonial.t)
  : M Store (option Testimonial.t) :=
  modify (map (fun x => if hasId i x then f x else x)) ;;;
  gets (find (hasId i)).

(** The validator of [moderationNotes], [maxlength: 500], which
    [runValidators: true] applies to an update that sets the field.  The
    update is refused before it reaches the collection. *)
Definition notesValid (moderationNotes : option string) : bool :=
  match moderationNotes with
  | Some v => (String.length v <=? 500)%nat
  | None => true
  end.

(** [TestimonialService.approveTestimonial]; [notes] is [None] when the
    caller passes none, and the update sets [moderationNotes] for notes
    that are not empty.  Of the fields it sets the record keeps
    [isApproved]. *)
Definition approveTestimonial (testimonialId moderatorId : nat)
           (notes : option string) : M Store Testimonial.t :=
  let moderationNotes :=
    match notes with
    | Some v => if String.eqb v "" then None else Some v
    | None => None
    end in
  if notesValid moderationNotes then
    found <- findByIdAndUpdate testimonialId (set_isApproved true) ;;
    match found with
    | None => throw (Err.NotFoundError "Testimonial not found")
    | Some x => ret x
    end
  else throw (Err.MongooseValidation "Validation failed").

(** [TestimonialService.rejectTestimonial]; the update sets
    [moderationNotes] to the reason, if one is given. *)
Definition rejectTestimonial (testimonialId moderatorId : nat)
           (reason : option string) : M Store Testimonial.t :=
  if notesValid reason then
    found <- findByIdAndUpdate testimonialId
               (fun x => set_isVisible false (set_isApproved false x)) ;;
    match found with
    | None => throw (Err.NotFoundError "Testimonial not found")
    | Some x => ret x
    end
  else throw (Err.MongooseValidation "Validation failed").

(** [TestimonialService.featureTestimonial] *)
Definition featureTestimonial (testimonialId : nat) (featured : bool)
  : M Store Testimonial.t :=
  found <- findByIdAndUpdate testimonialId (set_isFeatured featured) ;;
  match found with
  | None => throw (Err.NotFoundError "Testimonial not found")
  | Some x =>
      if featured && negb (Testimonial.isApproved x) then
        throw (Err.ValidationError
                 "Only approved testimonials can be featured")
      else ret x
  end.

(** The invariant of the data model: what is featured is approved. *)
Definition featuredApproved (s : Store) : Prop :=
  forall x, In x s ->
    Testimonial.isFeatured x = true -> Testimonial.isApproved x = true.

End TestimonialService.

(** ** Sample collaborators

    A clock, a password hash and a signing library on which the model can
    be run, in place of the system clock, [bcryptjs] and [jsonwebtoken]:
    the clock advances by one second per reading; a token is a letter for
    the secret it is signed with, a byte for the user and the issue time
    in seconds; it lives seven days under the refresh secret and one day
    under the other, the defaults of [config/environment.js]. *)

Module Demo.

Definition clock (n : nat) : Z := 1700000000000 + 1000 * Z.of_nat n.

Definition hash (plain : string) : string := ("$2b$12$" ++ plain)%string.

Definition compare (candidate hashed : string) : bool :=
  String.eqb (hash candidate) hashed.

Definition decimal (z : Z) : string :=
  NilZero.string_of_uint (N.to_uint (Z.to_N z)).

Definition undecimal (s : string) : option Z :=
  match NilZero.uint_of_string s with
  | Some d => Some (Z.of_N (N.of_uint d))
  | None => None
  end.

(** The letter of a secret. *)
Definition letter (k : Jwt.Key) : ascii :=
  match k with Jwt.accessKey => "A" | Jwt.refreshKey => "R" end%char.

(** The sample of [jwt.sign]. *)
Definition jwtSign (k : Jwt.Key) (seconds : Z) (payload : Jwt.Payload)
  : string :=
  String (letter k)
         (String (ascii_of_nat (Jwt.p_id payload)) (decimal seconds)).

(** The token it makes for a user at a time [t], under the secret of the
    given letter. *)
Definition sign (kind : ascii) (t : Z) (u : User.t) : string :=
  String kind (String (ascii_of_nat (User._id u)) (decimal (t / 1000))).

Definition malformed : Err.t :=
  Err.mk "JsonWebTokenError" "jwt malformed" None None false true.

Definition expired : Err.t :=
  Err.mk "TokenExpiredError" "jwt expired" None None false true.

Definition verify (kind : ascii) (lifetime : Z) (t : Z) (tok : string)
  : Result Jwt.Claims :=
  match tok with
  | String k (String i rest) =>
      if Ascii.eqb k kind then
        match undecimal rest with
        | Some iat =>
            if (t <? iat * 1000 + lifetime)%Z
            then Ok (Jwt.mkClaims (nat_of_ascii i) iat)
            else Throw expired
        | None => Throw malformed
        end
      else Throw malformed
  | _ => Throw malformed
  end.

(** The sample of [jwt.verify]: a token verifies under the secret it was
    signed with, until its lifetime has passed. *)
Definition jwtVerify (k : Jwt.Key) (t : Z) (tok : string)
  : Result Jwt.Decoded :=
  match k with
  | Jwt.accessKey =>
      match verify "A" (24 * 60 * 60 * 1000) t tok with
      | Ok c => Ok (Jwt.mkDecoded (Jwt.id c) (Jwt.iat c) None)
      | Throw e => Throw e
      end
  | Jwt.refreshKey =>
      match verify "R" (7 * 24 * 60 * 60 * 1000) t tok with
      | Ok c => Ok (Jwt.mkDecoded (Jwt.id c) (Jwt.iat c)
                                  (Some "refresh"%string))
      | Throw e => Throw e
      end
  end.

Definition demoClock : Clock := Build_Clock clock.

(** A clock that advances by one millisecond per reading. *)
Definition quickClock : Clock :=
  Build_Clock (fun n => (1700000000000 + Z.of_nat n)%Z).

Definition demoBcrypt : Bcrypt := Build_Bcrypt hash compare.

Definition demoJwt : Jwt.Jsonwebtoken :=
  Jwt.Build_Jsonwebtoken jwtSign jwtVerify.

Definition generateTokenPair : Z -> User.t -> Jwt.Tokens :=
  @Jwt.generateTokenPair demoJwt.

Definition register := @AuthService.register demoClock demoBcrypt demoJwt.
Definition login := @AuthService.login demoClock demoBcrypt demoJwt.
Definition refreshToken := @AuthService.refreshToken demoClock demoJwt.
Definition changePassword := @AuthService.changePassword demoClock demoBcrypt.
Definition authenticate := @AuthMiddleware.authenticate demoClock demoJwt.
Definition incLoginAttempts := @UserModel.incLoginAttempts demoClock.

(** A stored account: Ann, whose password is [Correct#Horse1]. *)
Definition ann (attempts : Z) (lockUntil : option Z) : User.t :=
  User.mk 1 "Ann" "ann@example.org" (hash "Correct#Horse1") User.user
          true false [] None attempts lockUntil (Some 1690000000000%Z).

Definition world (u : User.t) : Db.World := Db.mkWorld [u] 2 0.

End Demo.

(** ** Specification vocabulary *)

Module Spec.

(** The account a login or a registration with [email] addresses. *)
Definition account (w : Db.World) (email : string) : option User.t :=
  find (UserModel.emailFilter (Str.toLowerCase email)) (Db.users w).

(** The stored document with a given [_id]. *)
Definition stored (w : Db.World) (i : nat) : option User.t :=
  find (Db.hasId i) (Db.users w).

(** The world after a call that read the clock [n] times and left the
    collection [us]. *)
Definition after (n : nat) (us : list User.t) (w : Db.World) : Db.World :=
  Db.mkWorld us (Db.nextId w) (n + Db.tick w).

(** The world after [n] logins in a row with the same credentials. *)
Fixpoint logins {C : Clock} {B : Bcrypt} {J : Jwt.Jsonwebtoken}
         (n : nat) (email password ipAddress : string) (w : Db.World)
  : Db.World :=
  match n with
  | O => w
  | S n' =>
      logins n' email password ipAddress
             (snd (AuthService.login email password ipAddress w))
  end.

Definition tokensOf (u : User.t) : list string :=
  map User.token (User.refreshTokens u).

(** The stored document after one rotation. *)
Definition rotated (tok new : string) (t : Z) (u : User.t) : User.t :=
  User.set_refreshTokens
    (filter (fun rt => negb (String.eqb (User.token rt) tok))
            (User.refreshTokens u) ++ [User.mkToken new t]) u.

(** What [authenticate] answers to a token that was issued before the
    password was last changed: the earlier checks come first. *)
Definition staleAnswer {C : Clock} (w : Db.World) (u : User.t) : Err.t :=
  if negb (User.isActive u) then Err.AppError "Account is deactivated" 401
  else
    match User.lockUntil u with
    | Some l =>
        if (clock (1 + Db.tick w) <? l)%Z
        then Err.AppError "Account is temporarily locked" 423
        else Err.AppError "Password recently changed. Please log in again" 401
    | None => Err.AppError "Password recently changed. Please log in again" 401
    end.

(** The ratings that count: those of approved and visible testimonials. *)
Definition publicRatings (store : list Testimonial.t) : list Z :=
  map Testimonial.rating
      (filter (fun x => Testimonial.isApproved x && Testimonial.isVisible x)
              store).

End Spec.

(** ** The other guards of [middleware/auth.js] *)

Module AuthGuards.
Import Db UserModel.

Section Guards.
Context {C : Clock} {J : Jwt.Jsonwebtoken}.

(** [optionalAuth].  The outcome is [req.user]; the request always goes
    on. *)
Definition optionalAuth (authorization : option string)
  : M World (option User.t) :=
  catch
    (match authorization with
     | None => ret None
     | Some authHeader =>
         token <- lift (Jwt.extractToken authHeader) ;;
         t <- now ;;
         decoded <- lift (Jwt.verifyAccessToken t token) ;;
         found <- findById (Jwt.id decoded) ;;
         match found with
         | Some u =>
             if User.isActive u then
               locked <- isLocked u ;;
               ret (if (locked : bool) then None else Some u)
             else ret None
         | None => ret None
         end
     end)
    (fun _ => ret None).

(** [validateRefreshToken], on [req.body.refreshToken].  The outcome is
    the argument of [next]. *)
Definition validateRefreshToken (refreshToken : option string)
  : M World (Result User.t) :=
  catch
    (match refreshToken with
     | None => ret (Throw (Err.AppError "Refresh token is required" 400))
     | Some tok =>
         if String.eqb tok "" then
           ret (Throw (Err.AppError "Refresh token is required" 400))
         else
           t <- now ;;
           decoded <- lift (Jwt.verifyRefreshToken t tok) ;;
           found <- findById (Jwt.id decoded) ;;
           match found with
           | None => ret (Throw (Err.AppError "User no longer exists" 401))
           | Some u =>
               match find (fun rt => String.eqb (User.token rt) tok)
                          (User.refreshTokens u) with
               | None =>
                   ret (Throw (Err.AppError "Invalid refresh token" 401))
               | Some _ => ret (Ok u)
               end
           end
     end)
    (fun error =>
       if String.eqb (Err.name error) "JsonWebTokenError" then
         ret (Throw (Err.AppError "Invalid refresh token" 401))
       else if String.eqb (Err.name error) "TokenExpiredError" then
         ret (Throw (Err.AppError "Refresh token has expired" 401))
       else ret (Throw (Err.AppError "Token validation failed" 401))).

End Guards.

End AuthGuards.

(** ** What an operation on one account may change *)

Module Frame.

(** [Touched i l l']: [l'] comes from [l] by updates of the documents
    whose [_id] is [i], none of which changes an [_id] or an [email]. *)
Inductive Touched (i : nat) (l : list User.t) : list User.t -> Prop :=
| touched_none : Touched i l l
| touched_more (l' : list User.t) (f : User.t -> User.t) :
    Touched i l l' ->
    (forall d, User._id (f d) = User._id d) ->
    (forall d, User.email (f d) = User.email d) ->
    Touched i l (map (fun d => if Db.hasId i d then f d else d) l').

(** [w'] differs from [w] at most in the content of the documents whose
    [_id] is [i] and in the readings taken from the clock. *)
Definition onlyAccount (i : nat) (w w' : Db.World) : Prop :=
  map User._id (Db.users w') = map User._id (Db.users w)
  /\ map User.email (Db.users w') = map User.email (Db.users w)
  /\ Db.nextId w' = Db.nextId w
  /\ forall j, i <> j -> Spec.stored w' j = Spec.stored w j.

(** Every stored [_id] is below the next one to be drawn. *)
Definition idsFresh (w : Db.World) : Prop :=
  forall d, In d (Db.users w) -> (User._id d < Db.nextId w)%nat.

(** The unique index on [email]. *)
Definition emailsUnique (w : Db.World) : Prop :=
  NoDup (map User.email (Db.users w)).

(** What the setters make of every stored address. *)
Definition emailsNormal (w : Db.World) : Prop :=
  forall d, In d (Db.users w) ->
    Str.toLowerCase (User.email d) = User.email d
    /\ Str.trim (User.email d) = User.email d.

(** The unique index on [_id]. *)
Definition idsUnique (w : Db.World) : Prop :=
  NoDup (map User._id (Db.users w)).

(** The two fields of the lockout. *)
Definition lockFields (d : User.t) : Z * option Z :=
  (User.loginAttempts d, User.lockUntil d).

(** No counter is negative, and a lock is on record only beside five
    failed attempts or more. *)
Definition lockRecorded (w : Db.World) : Prop :=
  forall d, In d (Db.users w) ->
    (0 <= User.loginAttempts d)%Z
    /\ (User.lockUntil d <> None -> (5 <= User.loginAttempts d)%Z).

End Frame.

(** ** The profile update of [services/authService.js] *)

Module Profile.
Import Db UserModel.

Definition set_name (v : string) (u : User.t) : User.t :=
  User.mk (User._id u) v (User.email u) (User.password u) (User.role u)
          (User.isActive u) (User.isVerified u) (User.refreshTokens u)
          (User.lastLogin u) (User.loginAttempts u) (User.lockUntil u)
          (User.passwordChangedAt u).

(** [updateData[key]], on a body given by its string-valued keys. *)
Fixpoint lookup (key : string) (updateData : list (string * string))
  : option string :=
  match updateData with
  | [] => None
  | (k, v) :: rest => if String.eqb k key then Some v else lookup key rest
  end.

(** [AuthService.updateProfile]: [allowedUpdates] is [['name']]; the
    update runs the setter and the validators of [name]. *)
Definition updateProfile (userId : nat) (updateData : list (string * string))
  : M World User.Json :=
  match lookup "name" updateData with
  | None => throw (Err.ValidationError "No valid fields to update")
  | Some v =>
      if nameValid (Str.trim v) then
        found <- findByIdAndUpdate userId (set_name (Str.trim v)) ;;
        match found with
        | None => throw (Err.AuthError "User not found")
        | Some u => ret (User.toJSON u)
        end
      else throw (Err.MongooseValidation "Validation failed")
  end.

End Profile.

(** ** The rest of the moderation ([services/testimonialService.js]) *)

Module Moderation.
Import TestimonialService.

(** [TestimonialService.toggleVisibility] *)
Definition toggleVisibility (testimonialId : nat) (visible : bool)
  : M Store Testimonial.t :=
  found <- findByIdAndUpdate testimonialId (set_isVisible visible) ;;
  match found with
  | None => throw (Err.NotFoundError "Testimonial not found")
  | Some x => ret x
  end.

(** [TestimonialService.deleteTestimonial]: [findByIdAndDelete] removes
    the first document with the [_id]. *)
Fixpoint removeFirst (i : nat) (s : Store) : Store :=
  match s with
  | [] => []
  | x :: rest => if hasId i x then rest else x :: removeFirst i rest
  end.

Definition deleteTestimonial (testimonialId : nat) : M Store string :=
  found <- gets (find (hasId testimonialId)) ;;
  modify (removeFirst testimonialId) ;;;
  match found with
  | None => throw (Err.NotFoundError "Testimonial not found")
  | Some _ => ret "Testimonial deleted successfully"%string
  end.

End Moderation.

(** ** What the client receives for an error ([utils/errorHandler.js]) *)

Module ErrReply.

(** [sendErrorDev] and [sendErrorProd] after [globalErrorHandler]: the
    status and the message of the response. *)
Definition reply (development : bool) (err : Err.t) : Z * string :=
  if development then (Err.statusOr500 err, Err.message err)
  else
    let error := Err.translate
                   (Err.spread
                      (Err.mk (Err.name err) (Err.message err)
                              (Some (Err.statusOr500 err)) (Err.code err)
                              (Err.isOperational err) (Err.nameIsOwn err))) in
    if Err.isOperational error
    then (Err.statusOr500 error, Err.message error)
    else (500%Z, "Something went wrong"%string).

End ErrReply.

(** ** Donations of one donor ([DonationService.getDonationsByEmail]) *)

Module DonationService.

(** What [toJSON] leaves of the fields of a donation kept here: the
    transform hides the donor of an anonymous one. *)
Record Json := mkJson {
  j_donorName : string;
  j_donorEmail : option string;
  j_amount : Q;
  j_isAnonymous : bool;
  j_status : Donation.Status;
  j_createdAt : Z
}.

Definition toJSON (d : Donation.t) : Json :=
  if Donation.isAnonymous d then
    mkJson "Anonymous" None (Donation.amount d) true (Donation.status d)
           (Donation.createdAt d)
  else
    mkJson (Donation.donorName d) (Some (Donation.donorEmail d))
           (Donation.amount d) false (Donation.status d)
           (Donation.createdAt d).

(** The donor's statistics but for [totalAmount], a sum that the
    server forms in floating point. *)
Record DonorStats := mkDonorStats {
  totalDonations : nat;
  firstDonation : option Z;
  lastDonation : option Z
}.

Record Pagination := mkPagination {
  page : Z;
  limit : Z;
  total : Z;
  totalPages : Z;
  hasNext : bool;
  hasPrev : bool
}.

(** The schema's setters on [donorEmail]: [lowercase] and [trim]. *)
Definition donorEmailSetter (v : string) : string :=
  Str.trim (Str.toLowerCase v).

(** [{ donorEmail: email.toLowerCase(), status: 'completed' }] as
    [countDocuments] and [find] apply it: the filter of a query is cast by
    the schema, which runs the setters on the address. *)
Definition query (email : string) (d : Donation.t) : bool :=
  String.eqb (Donation.donorEmail d)
             (donorEmailSetter (Str.toLowerCase email))
  && Donation.Status_eqb (Donation.status d) Donation.completed.

(** The same document as the [$match] stage of [aggregate] applies it: a
    pipeline is not cast, and the address is compared as it is. *)
Definition matchStage (email : string) (d : Donation.t) : bool :=
  String.eqb (Donation.donorEmail d) (Str.toLowerCase email)
  && Donation.Status_eqb (Donation.status d) Donation.completed.

(** [{ $sort: { createdAt: -1 } }] *)
Definition newestFirst (l : list Donation.t) : list Donation.t :=
  Agg.sortDesc (fun d => inject_Z (Donation.createdAt d)) l.

(** [Math.ceil(total / limit)] on integers. *)
Definition ceilDiv (total limit : Z) : Z := ((total + limit - 1) / limit)%Z.

(** The [$group] of the donor's statistics. *)
Definition donorStats (matches : list Donation.t) : DonorStats :=
  match map Donation.createdAt matches with
  | [] => mkDonorStats 0 None None
  | t :: ts =>
      mkDonorStats (List.length matches)
                   (Some (fold_left Z.min ts t))
                   (Some (fold_left Z.max ts t))
  end.

(** [DonationService.getDonationsByEmail], for a page and a limit that
    are positive, as [skip] and [limit] require. *)
Definition getDonationsByEmail (email : string) (page limit : positive)
           (store : list Donation.t) : list Json * DonorStats * Pagination :=
  let matches := filter (query email) store in
  let skip := ((Z.pos page - 1) * Z.pos limit)%Z in
  let total := Z.of_nat (List.length matches) in
  let donations :=
    firstn (Pos.to_nat limit) (skipn (Z.to_nat skip) (newestFirst matches)) in
  (map toJSON donations,
   donorStats (filter (matchStage email) store),
   mkPagination (Z.pos page) (Z.pos limit) total
                (ceilDiv total (Z.pos limit))
                (Z.pos page * Z.pos limit <? total)%Z
                (1 <? Z.pos page)%Z).

End DonationService.

(* ================================================================== *)
(** * Part II. Properties *)
(* ================================================================== *)

(** ** Lists *)

Section ListFacts.
Variable A : Type.

Lemma firstn_sorted (R : A -> A -> Prop) (n : nat) (l : list A) :
  StronglySorted R l -> StronglySorted R (firstn n l).
Proof.
  intros H. revert n. induction H as [|x l Hl IH Hx]; intros [|n]; simpl;
    try constructor.
  - apply IH.
  - rewrite Forall_forall in *. intros y Hy. apply Hx.
    revert Hy. clear. revert n. induction l as [|z l IHl]; intros [|n]; simpl;
      try tauto.
    intros [->|H]; [now left | right; eauto].
Qed.

Lemma firstn_incl (n : nat) (l : list A) (x : A) :
  In x (firstn n l) -> In x l.
Proof.
  revert n. induction l as [|z l IHl]; intros [|n]; simpl; try tauto.
  intros [->|H]; [now left | right; eauto].
Qed.

End ListFacts.

(** ** Sorting *)

Section SortFacts.
Variable A : Type.
Variable key : A -> Q.

Lemma insertDesc_perm (x : A) (l : list A) :
  Permutation (Agg.insertDesc key x l) (x :: l).
Proof.
  induction l as [|y l IH]; simpl.
  - apply Permutation_refl.
  - destruct (Qle_bool (key x) (key y)).
    + apply perm_trans with (y :: x :: l).
      * now apply perm_skip.
      * apply perm_swap.
    + apply Permutation_refl.
Qed.

Lemma sortDesc_perm (l : list A) : Permutation (Agg.sortDesc key l) l.
Proof.
  induction l as [|x l IH]; simpl.
  - apply perm_nil.
  - eapply perm_trans; [apply insertDesc_perm|]. now apply perm_skip.
Qed.

Lemma insertDesc_sorted (x : A) (l : list A) :
  StronglySorted (Agg.descBy key) l -> StronglySorted (Agg.descBy key) (Agg.insertDesc key x l).
Proof.
  induction 1 as [|y l Hl IH Hy]; simpl.
  - constructor; constructor.
  - destruct (Qle_bool (key x) (key y)) eqn:E.
    + constructor; [exact IH|].
      rewrite Forall_forall. intros z Hz.
      apply (Permutation_in _ (insertDesc_perm x l)) in Hz.
      destruct Hz as [<-|Hz].
      * now apply Qle_bool_iff.
      * rewrite Forall_forall in Hy. now apply Hy.
    + assert (Hlt : (key y < key x)%Q).
      { apply Qnot_le_lt. intro H. apply Qle_bool_iff in H. congruence. }
      constructor; [now constructor|].
      constructor.
      * now apply Qlt_le_weak.
      * rewrite Forall_forall in *. intros z Hz.
        apply Qle_trans with (key y); [now apply Hy | now apply Qlt_le_weak].
Qed.

Lemma sortDesc_sorted (l : list A) : StronglySorted (Agg.descBy key) (Agg.sortDesc key l).
Proof.
  induction l as [|x l IH]; simpl.
  - constructor.
  - now apply insertDesc_sorted.
Qed.

End SortFacts.

(** ** The leaderboard *)

Section LeaderboardFacts.
Import Donation.

(** C6.  Whatever the limit and the collection, and whatever the server
    would compute from an accepted pipeline, [getLeaderboard] returns no
    leaderboard: the server refuses the pipeline, for a limit that is not
    positive at [$limit] and otherwise at the ['$'] of [formattedTotal],
    which it reads as the path of a field with an empty name.  The error
    reaches the client with status 500 in development and in production.
    So the three donations of the example, with limit 10, give the error
    and not the line of A. *)
Theorem leaderboard_pipeline_refused
        (run : Z -> list Expr -> list t -> list Entry)
        (limit : Z) (store : list t) :
  (exists error,
     getLeaderboard run limit store = Throw error
     /\ (error = limitNotPositive \/ error = invalidFieldPath)
     /\ forall development,
          Err.globalErrorHandler development error = 500%Z)
  /\ getLeaderboard run 10
       [ mk "A" "a@example.org" 50 false completed 1000;
         mk "B" "b@example.org" 100 false pending 2000;
         mk "C" "c@example.org" 30 true completed 3000 ]
     = Throw invalidFieldPath
  /\ parseOperands formattedTotal = Throw invalidFieldPath
  /\ parseOperands [ToString "$totalAmount"]
     = Ok [StringOf (FieldPath "totalAmount")].
Proof.
  split; [|repeat split].
  unfold getLeaderboard. destruct (limit <=? 0)%Z.
  - exists limitNotPositive. split; [reflexivity|]. split; [now left|].
    intros []; reflexivity.
  - exists invalidFieldPath. split; [reflexivity|]. split; [now right|].
    intros []; reflexivity.
Qed.

End LeaderboardFacts.

(** ** Donation statistics *)

Section StatsFacts.
Import Donation.

Lemma filter_none (A : Type) (p : A -> bool) (l : list A) :
  (forall x, In x l -> p x = false) -> filter p l = [].
Proof.
  induction l as [|x l IH]; simpl; intros H; [reflexivity|].
  rewrite (H x (or_introl eq_refl)). apply IH. intros y Hy. apply H. now right.
Qed.

(** C8.  On a collection without a completed donation, [getStats]
    returns the record of five zeros. *)
Theorem stats_without_completed (store : list t) :
  (forall d, In d store -> status d <> completed) ->
  getStats store = mkStats 0 0 0 0 0.
Proof.
  intros H. unfold getStats.
  rewrite filter_none; [reflexivity|].
  intros d Hd. specialize (H d Hd). unfold matchCompleted.
  destruct (status d); simpl; congruence.
Qed.

Lemma stats_without_completed_witness :
  (forall d, In d [mk "B" "b@example.org" 100 false pending 2000;
                   mk "D" "d@example.org" 20 false refunded 2500] ->
             status d <> completed)
  /\ getStats [mk "B" "b@example.org" 100 false pending 2000;
               mk "D" "d@example.org" 20 false refunded 2500]
     = mkStats 0 0 0 0 0.
Proof.
  assert (H : forall d,
             In d [mk "B" "b@example.org" 100 false pending 2000;
                   mk "D" "d@example.org" 20 false refunded 2500] ->
             status d <> completed).
  { intros d [<-|[<-|[]]]; simpl; discriminate. }
  split; [exact H | exact (stats_without_completed _ H)].
Defined.

End StatsFacts.

(** ** Rating statistics *)

Section RatingFacts.
Import Testimonial.




Lemma getRatingStats_unfold (store : list t) :
  getRatingStats store =
  match Spec.publicRatings store with
  | [] => zeroRatingStats
  | rs => mkRatingStats (List.length rs)
            (Agg.round2 (Agg.avg (map inject_Z rs)))
            (mkCounts (sizeEq 5 rs) (sizeEq 4 rs) (sizeEq 3 rs)
                      (sizeEq 2 rs) (sizeEq 1 rs))
  end.
Proof.
  unfold getRatingStats, groupRatings, Spec.publicRatings.
  change (fun x : t => isApproved x && isVisible x) with matchPublic.
  destruct (map rating (filter matchPublic store)); reflexivity.
Qed.



End RatingFacts.

(** ** The testimonial service *)

Section FeatureFacts.
Import TestimonialService.

Lemma find_map_preserved (A : Type) (p : A -> bool) (g : A -> A) (l : list A) :
  (forall d, p (g d) = p d) -> find p (map g l) = option_map g (find p l).
Proof.
  intros H. induction l as [|x l IH]; simpl; [reflexivity|].
  rewrite H. destruct (p x); [reflexivity | exact IH].
Qed.

(** Featuring a testimonial that is not approved throws the validation
    error. *)
Lemma feature_unapproved_fails (s : Store) (i : nat) (x : Testimonial.t) :
  find (hasId i) s = Some x -> Testimonial.isApproved x = false ->
  fst (featureTestimonial i true s) =
  Throw (Err.ValidationError "Only approved testimonials can be featured").
Proof.
  intros Hf Ha. unfold featureTestimonial, findByIdAndUpdate, bind, modify, gets.
  simpl. rewrite find_map_preserved.
  - rewrite Hf. simpl.
    replace (hasId i x) with true.
    + simpl. rewrite Ha. reflexivity.
    + symmetry. now apply find_some in Hf.
  - intros d. destruct (hasId i d) eqn:E; [|exact E]. exact E.
Qed.

(** ... and by then the flag has been written. *)
Lemma feature_unapproved_writes (s : Store) (i : nat) (x : Testimonial.t) :
  find (hasId i) s = Some x -> Testimonial.isApproved x = false ->
  find (hasId i) (snd (featureTestimonial i true s)) =
  Some (set_isFeatured true x).
Proof.
  intros Hf Ha. unfold featureTestimonial, findByIdAndUpdate, bind, modify, gets.
  simpl. rewrite find_map_preserved.
  - rewrite Hf. simpl.
    replace (hasId i x) with true.
    + simpl. rewrite Ha. simpl. rewrite find_map_preserved.
      * rewrite Hf. simpl. replace (hasId i x) with true; [reflexivity|].
        symmetry. now apply find_some in Hf.
      * intros d. destruct (hasId i d) eqn:E; [|exact E]. exact E.
    + symmetry. now apply find_some in Hf.
  - intros d. destruct (hasId i d) eqn:E; [|exact E]. exact E.
Qed.

Lemma in_updated (i : nat) (f : Testimonial.t -> Testimonial.t)
      (s : Store) (y : Testimonial.t) :
  In y (map (fun x => if hasId i x then f x else x) s) ->
  exists x, In x s /\ y = (if hasId i x then f x else x).
Proof.
  intros H. apply in_map_iff in H. destruct H as (x & <- & Hx). eauto.
Qed.

(** The operations that keep the invariant: approving, taking the
    feature flag away, and featuring what is approved. *)
Lemma approve_keeps_invariant (s : Store) (i m : nat)
      (notes : option string) :
  featuredApproved s -> featuredApproved (snd (approveTestimonial i m notes s)).
Proof.
  intros H. unfold approveTestimonial.
  match goal with |- context [if notesValid ?v then _ else _] =>
    destruct (notesValid v) end; [|exact H].
  intros y Hy Hf.
  assert (Hin : In y (map (fun x => if hasId i x then set_isApproved true x
                                    else x) s)).
  { revert Hy. unfold findByIdAndUpdate, bind, modify, gets, ret, throw.
    simpl. destruct (find (hasId i) (map _ s)); simpl; auto. }
  apply in_updated in Hin. destruct Hin as (x & Hx & ->).
  destruct (hasId i x); [reflexivity | now apply H].
Qed.

Lemma unfeature_keeps_invariant (s : Store) (i : nat) :
  featuredApproved s -> featuredApproved (snd (featureTestimonial i false s)).
Proof.
  intros H y Hy Hf.
  assert (Hin : In y (map (fun x => if hasId i x then set_isFeatured false x
                                    else x) s)).
  { revert Hy. unfold featureTestimonial, findByIdAndUpdate, bind, modify,
      gets, ret, throw. simpl.
    destruct (find (hasId i) (map _ s)); simpl; auto. }
  apply in_updated in Hin. destruct Hin as (x & Hx & ->).
  destruct (hasId i x); [discriminate Hf | now apply H].
Qed.

Lemma feature_approved_keeps_invariant (s : Store) (i : nat) :
  featuredApproved s ->
  (forall x, In x s -> hasId i x = true -> Testimonial.isApproved x = true) ->
  featuredApproved (snd (featureTestimonial i true s)).
Proof.
  intros H Happ y Hy Hf.
  assert (Hin : In y (map (fun x => if hasId i x then set_isFeatured true x
                                    else x) s)).
  { revert Hy. unfold featureTestimonial, findByIdAndUpdate, bind, modify,
      gets, ret, throw. simpl.
    destruct (find (hasId i) (map _ s)) as [z|]; simpl; auto.
    destruct (negb (Testimonial.isApproved z)); simpl; auto. }
  apply in_updated in Hin. destruct Hin as (x & Hx & ->).
  destruct (hasId i x) eqn:E; [simpl; now apply Happ | now apply H].
Qed.

(** Rejecting a featured testimonial leaves it featured. *)
Lemma reject_featured_breaks_invariant :
  let x := Testimonial.mk 8 "Bob" 4 true true true in
  featuredApproved [x]
  /\ ~ featuredApproved
        (snd (rejectTestimonial 8 2 (Some "Off topic"%string) [x])).
Proof.
  intros x. split.
  - intros y [<-|[]] _. reflexivity.
  - intros H. specialize (H (Testimonial.mk 8 "Bob" 4 false true false)).
    simpl in H. discriminate H; auto.
Qed.

(** C5.  On a store that holds one testimonial, neither approved nor
    featured, [featureTestimonial] throws the validation error, and the
    store it leaves holds the testimonial featured and still not approved:
    the invariant held before the call and does not hold after it. *)
Theorem feature_unapproved_breaks_invariant :
  let x := Testimonial.mk 7 "Ann" 5 false false true in
  featuredApproved [x]
  /\ featureTestimonial 7 true [x] =
     (Throw (Err.ValidationError "Only approved testimonials can be featured"),
      [Testimonial.mk 7 "Ann" 5 false true true])
  /\ ~ featuredApproved (snd (featureTestimonial 7 true [x])).
Proof.
  intros x. split; [|split].
  - intros y [<-|[]]. simpl. discriminate.
  - reflexivity.
  - intros H. specialize (H (Testimonial.mk 7 "Ann" 5 false true true)).
    simpl in H. discriminate H; auto.
Qed.

End FeatureFacts.

(** ** Lockout *)

Section LockoutFacts.
Import Db UserModel AuthService Spec.
Context {C : Clock} {B : Bcrypt} {J : Jwt.Jsonwebtoken}.

(** [incLoginAttempts] on a document whose lock has expired. *)
Lemma incLoginAttempts_expired (w : World) (u : User.t) (l : Z) :
  User.lockUntil u = Some l -> (l < clock (tick w))%Z ->
  incLoginAttempts u w =
  (Ok tt,
   after 1 (map (fun d => if hasId (User._id u) d
                          then User.set_loginAttempts 1
                                 (User.set_lockUntil None d)
                          else d) (users w)) w).
Proof.
  intros Hl Hlt. unfold incLoginAttempts, bind, now, ret, updateById, modify.
  rewrite Hl. apply Z.ltb_lt in Hlt. rewrite Hlt. reflexivity.
Qed.

(** [incLoginAttempts] on a document without a lock on record. *)
Lemma incLoginAttempts_unlocked (w : World) (u : User.t) :
  User.lockUntil u = None ->
  incLoginAttempts u w =
  if (5 <=? User.loginAttempts u + 1)%Z then
    (Ok tt,
     after 1 (map (fun d => if hasId (User._id u) d
                            then User.set_lockUntil
                                   (Some (clock (tick w) + twoHours)%Z)
                                   (User.set_loginAttempts
                                      (User.loginAttempts d + 1) d)
                            else d) (users w)) w)
  else
    (Ok tt,
     after 0 (map (fun d => if hasId (User._id u) d
                            then User.set_loginAttempts
                                   (User.loginAttempts d + 1) d
                            else d) (users w)) w).
Proof.
  intros Hl.
  unfold incLoginAttempts, isLocked, bind, now, ret, updateById, modify.
  rewrite Hl. destruct (5 <=? User.loginAttempts u + 1)%Z; simpl.
  - reflexivity.
  - destruct w; reflexivity.
Qed.

(** A login on a locked account: the error, whatever the password, and
    nothing written. *)
Lemma login_locked (w : World) (email password ipAddress : string)
      (u : User.t) (l : Z) :
  account w email = Some u ->
  User.lockUntil u = Some l -> (clock (tick w) < l)%Z ->
  login email password ipAddress w =
  (Throw (Err.AuthError
            "Account is temporarily locked. Please try again later"),
   after 1 (users w) w).
Proof.
  intros Ha Hl Hlt. unfold login, findOne, isLocked, bind, gets, now, ret, throw.
  unfold account in Ha. rewrite Ha, Hl.
  apply Z.ltb_lt in Hlt. rewrite Hlt. reflexivity.
Qed.

(** A wrong password on an active account without a lock on record: the
    error, and what [incLoginAttempts] writes. *)
Lemma login_wrong_password (w : World) (email password ipAddress : string)
      (u : User.t) :
  account w email = Some u ->
  User.isActive u = true -> User.lockUntil u = None ->
  comparePassword u password = false ->
  login email password ipAddress w =
  (Throw (Err.AuthError "Invalid email or password"),
   snd (incLoginAttempts u w)).
Proof.
  intros Ha Hact Hl Hpw.
  unfold login, findOne, isLocked, bind, gets, ret, throw.
  unfold account in Ha. rewrite Ha, Hl, Hact, Hpw. simpl.
  destruct (incLoginAttempts u w) as [[[]|e] w'] eqn:E; [reflexivity|].
  rewrite incLoginAttempts_unlocked in E by exact Hl.
  destruct (5 <=? User.loginAttempts u + 1)%Z; discriminate.
Qed.





(** A wrong password on an active account whose lock has expired. *)
Lemma login_expired_lock (w : World) (email password ipAddress : string)
      (u : User.t) (l : Z) :
  account w email = Some u ->
  User.isActive u = true -> User.lockUntil u = Some l ->
  comparePassword u password = false ->
  (l <= clock (tick w))%Z -> (l < clock (S (tick w)))%Z ->
  login email password ipAddress w =
  (Throw (Err.AuthError "Invalid email or password"),
   after 2 (map (fun d => if hasId (User._id u) d
                          then User.set_loginAttempts 1
                                 (User.set_lockUntil None d)
                          else d) (users w)) w).
Proof.
  intros Ha Hact Hl Hpw Hle Hlt.
  unfold login, findOne, isLocked, bind, gets, now, ret, throw.
  unfold account in Ha. rewrite Ha, Hl.
  assert (E : (clock (tick w) <? l)%Z = false) by (apply Z.ltb_ge; lia).
  rewrite E, Hact, Hpw. simpl.
  rewrite (incLoginAttempts_expired _ u l Hl) by exact Hlt.
  reflexivity.
Qed.

(** C10.  When the lock on record has already passed, the failed attempt
    sets the stored counter to 1, whatever it was, and removes the lock:
    this is what [incLoginAttempts] writes, and what a login with a wrong
    password on such an active account leaves behind. *)
Theorem expired_lock_restarts_counter (w : World) (u : User.t) (l : Z) :
  User.lockUntil u = Some l ->
  ((l < clock (tick w))%Z -> stored w (User._id u) = Some u ->
   fst (incLoginAttempts u w) = Ok tt
   /\ exists u',
        stored (snd (incLoginAttempts u w)) (User._id u) = Some u'
        /\ User.loginAttempts u' = 1%Z /\ User.lockUntil u' = None
        /\ u' = User.set_loginAttempts 1 (User.set_lockUntil None u))
  /\ (forall email password ipAddress,
        account w email = Some u -> User.isActive u = true ->
        comparePassword u password = false ->
        (l <= clock (tick w))%Z -> (l < clock (S (tick w)))%Z ->
        fst (login email password ipAddress w)
        = Throw (Err.AuthError "Invalid email or password")
        /\ exists u',
             account (snd (login email password ipAddress w)) email = Some u'
             /\ User.loginAttempts u' = 1%Z /\ User.lockUntil u' = None
             /\ u' = User.set_loginAttempts 1 (User.set_lockUntil None u)).
Proof.
  intros Hl. split.
  - intros Hlt Hs. rewrite (incLoginAttempts_expired w u l Hl Hlt).
    split; [reflexivity|].
    exists (User.set_loginAttempts 1 (User.set_lockUntil None u)).
    split; [|repeat split]. unfold stored in *. simpl.
    rewrite find_map_preserved
      by (intros d; destruct (hasId (User._id u) d) eqn:E;
          [exact E | exact E]).
    rewrite Hs. simpl. unfold hasId. now rewrite Nat.eqb_refl.
  - intros email password ipAddress Ha Hact Hpw Hle Hlt.
    rewrite (login_expired_lock w email password ipAddress u l
               Ha Hact Hl Hpw Hle Hlt).
    split; [reflexivity|].
    exists (User.set_loginAttempts 1 (User.set_lockUntil None u)).
    split; [|repeat split]. unfold account in *. simpl.
    rewrite find_map_preserved
      by (intros d; destruct (hasId (User._id u) d); reflexivity).
    rewrite Ha. simpl. unfold hasId. now rewrite Nat.eqb_refl.
Qed.

End LockoutFacts.

(** ** The lockout on the sample account *)

Section LockoutExamples.
Import Db Spec.



Lemma expired_lock_restarts_counter_witness :
  let u := Demo.ann 7 (Some 1600000000000%Z) in
  let w := Demo.world u in
  fst (Demo.incLoginAttempts u w) = Ok tt
  /\ stored (snd (Demo.incLoginAttempts u w)) 1 = Some (Demo.ann 1 None)
  /\ account (snd (Demo.login "ann@example.org" "guess" "10.0.0.1" w))
             "ann@example.org" = Some (Demo.ann 1 None).
Proof.
  intros u w.
  destruct (@expired_lock_restarts_counter Demo.demoClock Demo.demoBcrypt
              Demo.demoJwt w u 1600000000000%Z eq_refl) as [Hm Hl].
  destruct Hm as (H1 & u1 & Hs & _ & _ & ->); [reflexivity | reflexivity |].
  destruct (Hl "ann@example.org"%string "guess"%string "10.0.0.1"%string
              eq_refl eq_refl eq_refl)
    as (_ & u2 & Ha & _ & _ & ->).
  - unfold w. simpl. unfold Demo.clock. lia.
  - unfold w. simpl. unfold Demo.clock. lia.
  - split; [exact H1|]. split; [exact Hs | exact Ha].
Defined.

End LockoutExamples.

(** ** The status of a refused login *)

Section StatusFacts.
Import Db UserModel AuthService Spec.
Context {C : Clock} {B : Bcrypt} {J : Jwt.Jsonwebtoken}.

(** The error class decides the status: every [AuthError] is answered
    with 401, in development and in production. *)
Lemma authError_status (message : string) (development : bool) :
  Err.globalErrorHandler development (Err.AuthError message) = 401%Z.
Proof. destruct development; reflexivity. Qed.

(** A login on a locked account is answered with 401. *)
Lemma login_locked_status (w : World) (email password ipAddress : string)
      (u : User.t) (l : Z) (development : bool) :
  account w email = Some u ->
  User.lockUntil u = Some l -> (clock (tick w) < l)%Z ->
  exists e, fst (login email password ipAddress w) = Throw e
            /\ Err.globalErrorHandler development e = 401%Z.
Proof.
  intros Ha Hl Hlt.
  rewrite (login_locked w email password ipAddress u l Ha Hl Hlt).
  eexists. split; [reflexivity | apply authError_status].
Qed.

End StatusFacts.

Section StatusExamples.
Import Db Spec.

(** C4.  Ann's account is locked for another hour.  A login with her
    correct password is refused with the [AuthError] of the locked branch,
    whose status is 401, and 401 is the status of the response in both
    modes of the error handler; the request middleware answers the same
    locked account with 423. *)
Theorem login_locked_is_401 :
  let u := Demo.ann 5 (Some (Demo.clock 0 + 3600000)%Z) in
  let w := Demo.world u in
  let e := Err.AuthError
             "Account is temporarily locked. Please try again later" in
  fst (Demo.login "ann@example.org" "Correct#Horse1" "10.0.0.1" w) = Throw e
  /\ Err.statusCode e = Some 401%Z
  /\ Err.globalErrorHandler true e = 401%Z
  /\ Err.globalErrorHandler false e = 401%Z
  /\ fst (Demo.authenticate
            (Some ("Bearer " ++ Demo.sign "A" (Demo.clock 0 - 60000) u)%string)
            w)
     = Ok (Throw (Err.AppError "Account is temporarily locked" 423)).
Proof. repeat split. Qed.

End StatusExamples.

(** ** Refresh-token rotation *)

Section RotationFacts.
Import Db UserModel AuthService Spec.
Context {C : Clock} {B : Bcrypt} {J : Jwt.Jsonwebtoken}.

Lemma find_token_some (tok : string) (l : list User.RefreshTokenRecord) :
  In tok (map User.token l) ->
  exists rt, find (fun rt => String.eqb (User.token rt) tok) l = Some rt.
Proof.
  induction l as [|x l IH]; simpl; [tauto|].
  intros [H|H].
  - rewrite H, String.eqb_refl. eauto.
  - destruct (String.eqb (User.token x) tok); eauto.
Qed.

Lemma find_token_none (tok : string) (l : list User.RefreshTokenRecord) :
  ~ In tok (map User.token l) ->
  find (fun rt => String.eqb (User.token rt) tok) l = None.
Proof.
  induction l as [|x l IH]; simpl; [reflexivity|].
  intros H. destruct (String.eqb_spec (User.token x) tok) as [E|E].
  - exfalso. apply H. now left.
  - apply IH. intro Hin. apply H. now right.
Qed.

Lemma tokens_filtered (tok : string) (l : list User.RefreshTokenRecord) :
  map User.token
      (filter (fun rt => negb (String.eqb (User.token rt) tok)) l)
  = filter (fun t => negb (String.eqb t tok)) (map User.token l).
Proof.
  induction l as [|x l IH]; simpl; [reflexivity|].
  destruct (String.eqb (User.token x) tok); simpl; now rewrite IH.
Qed.

Lemma stored_id (w : World) (i : nat) (u : User.t) :
  stored w i = Some u -> User._id u = i.
Proof.
  unfold stored. intros H. apply find_some in H. destruct H as [_ H].
  now apply Nat.eqb_eq in H.
Qed.

(** A presented token that is verified and stored is exchanged. *)
Lemma refresh_stored (w : World) (u : User.t) (tok : string) (c : Jwt.Claims) :
  Jwt.verifyRefreshToken (clock (tick w)) tok = Ok c ->
  stored w (Jwt.id c) = Some u ->
  In tok (tokensOf u) ->
  let tokens := Jwt.generateTokenPair (clock (1 + tick w)) u in
  exists us,
    refreshToken tok w = (Ok tokens, after 3 us w)
    /\ find (hasId (Jwt.id c)) us
       = Some (rotated tok (Jwt.refreshToken tokens) (clock (2 + tick w)) u).
Proof.
  intros Hv Hs Hin tokens.
  pose proof (stored_id w _ u Hs) as Hid.
  destruct (find_token_some tok _ Hin) as [rt Hrt].
  unfold refreshToken, issueTokens, removeRefreshToken, addRefreshToken,
    saveRefreshTokens, updateById, findById, findOne, bind, gets, now, ret,
    lift, modify, throw.
  simpl. rewrite Hv. unfold stored in Hs. rewrite Hs, Hrt. simpl.
  eexists. split; [reflexivity|].
  rewrite !find_map_preserved
    by (intros d; destruct (hasId (User._id u) d) eqn:E;
        first [reflexivity | exact E]).
  rewrite Hs. simpl.
  unfold hasId. rewrite !Nat.eqb_refl. reflexivity.
Qed.

(** A presented token that is verified but not stored is refused, and
    nothing is written. *)
Lemma refresh_not_stored (w : World) (u : User.t) (tok : string)
      (c : Jwt.Claims) :
  Jwt.verifyRefreshToken (clock (tick w)) tok = Ok c ->
  stored w (Jwt.id c) = Some u ->
  ~ In tok (tokensOf u) ->
  refreshToken tok w
  = (Throw (Err.AuthError "Invalid refresh token"), after 1 (users w) w).
Proof.
  intros Hv Hs Hin.
  unfold refreshToken, findById, findOne, bind, gets, now, ret, lift, throw.
  simpl. rewrite Hv. unfold stored in Hs. rewrite Hs.
  now rewrite (find_token_none tok _ Hin).
Qed.

(** A refresh token that verifies with an [iat] other than the second
    at which a new one is signed is not that new one, when the library
    reads from a token the second it was signed at. *)
Lemma issued_later_differs (t t' : Z) (u : User.t) (tok : string)
      (c : Jwt.Claims) :
  Jwt.verifyRefreshToken t tok = Ok c ->
  (forall d,
     Jwt.jwt_verify Jwt.refreshKey t
       (Jwt.refreshToken (Jwt.generateTokenPair t' u)) = Ok d ->
     Jwt.d_iat d = (t' / 1000)%Z) ->
  (Jwt.iat c < t' / 1000)%Z ->
  Jwt.refreshToken (Jwt.generateTokenPair t' u) <> tok.
Proof.
  intros Hv Hlib Hlt E. rewrite E in Hlib.
  unfold Jwt.verifyRefreshToken in Hv.
  destruct (Jwt.jwt_verify Jwt.refreshKey t tok) as [d|e]; [|discriminate].
  specialize (Hlib d eq_refl).
  destruct (Jwt.d_tokenType d) as [ty|]; [|discriminate].
  destruct (String.eqb ty "refresh"); [|discriminate].
  injection Hv as <-. simpl in Hlt. lia.
Qed.

(** The refresh token of a pair is a function of the user's [_id] and
    of the second of the reading. *)
Lemma refresh_token_of_second (t t' : Z) (u u' : User.t) :
  User._id u = User._id u' -> (t / 1000 = t' / 1000)%Z ->
  Jwt.refreshToken (Jwt.generateTokenPair t u)
  = Jwt.refreshToken (Jwt.generateTokenPair t' u').
Proof.
  intros Hid Ht.
  unfold Jwt.generateTokenPair, Jwt.generateRefreshToken. simpl.
  now rewrite Hid, Ht.
Qed.

(** X26.  The rotation when it works.  Let [tok] be a refresh token in the
    stored list of a user, which the token service verifies as that
    user's, now and at the second attempt, and let the exchange take place
    in a later second than the one [tok] was issued in, the library reading
    from a token the second it was signed at.  Then [refreshToken tok]
    returns the new pair; afterwards the stored list is the old one without
    [tok], followed by the new refresh token; and a second
    [refreshToken tok] throws the [AuthError] of an invalid refresh token
    (status 401) and writes nothing. *)
Theorem refresh_rotation (w : World) (u : User.t) (tok : string)
        (c1 c2 : Jwt.Claims) :
  stored w (User._id u) = Some u ->
  In tok (tokensOf u) ->
  Jwt.verifyRefreshToken (clock (tick w)) tok = Ok c1 ->
  Jwt.id c1 = User._id u ->
  Jwt.verifyRefreshToken (clock (3 + tick w)) tok = Ok c2 ->
  Jwt.id c2 = User._id u ->
  let tokens := Jwt.generateTokenPair (clock (1 + tick w)) u in
  (forall d,
     Jwt.jwt_verify Jwt.refreshKey (clock (tick w)) (Jwt.refreshToken tokens)
     = Ok d ->
     Jwt.d_iat d = (clock (1 + tick w) / 1000)%Z) ->
  (Jwt.iat c1 < clock (1 + tick w) / 1000)%Z ->
  let w1 := snd (refreshToken tok w) in
  fst (refreshToken tok w) = Ok tokens
  /\ (exists u1,
        stored w1 (User._id u) = Some u1
        /\ tokensOf u1
           = filter (fun t => negb (String.eqb t tok)) (tokensOf u)
             ++ [Jwt.refreshToken tokens]
        /\ ~ In tok (tokensOf u1)
        /\ In (Jwt.refreshToken tokens) (tokensOf u1))
  /\ fst (refreshToken tok w1) = Throw (Err.AuthError "Invalid refresh token")
  /\ Err.statusCode (Err.AuthError "Invalid refresh token") = Some 401%Z
  /\ users (snd (refreshToken tok w1)) = users w1.
Proof.
  intros Hs Hin Hv1 Hi1 Hv2 Hi2 tokens Hlib Hlater w1.
  assert (Hnew : Jwt.refreshToken tokens <> tok)
    by exact (issued_later_differs _ _ u tok c1 Hv1 Hlib Hlater).
  assert (Hs1 : stored w (Jwt.id c1) = Some u) by now rewrite Hi1.
  destruct (refresh_stored w u tok c1 Hv1 Hs1 Hin) as (us & Hr & Hu).
  fold tokens in Hr, Hu.
  assert (Hw1 : w1 = after 3 us w) by (unfold w1; now rewrite Hr).
  set (u1 := rotated tok (Jwt.refreshToken tokens) (clock (2 + tick w)) u)
    in *.
  assert (Ht : tokensOf u1
               = filter (fun t => negb (String.eqb t tok)) (tokensOf u)
                 ++ [Jwt.refreshToken tokens]).
  { unfold u1, rotated, tokensOf. simpl.
    now rewrite map_app, tokens_filtered. }
  assert (Hout : ~ In tok (tokensOf u1)).
  { rewrite Ht. intro H. apply in_app_or in H. destruct H as [H|[H|[]]].
    - apply filter_In in H. destruct H as [_ H].
      now rewrite String.eqb_refl in H.
    - now apply Hnew. }
  assert (Hst : stored w1 (User._id u) = Some u1).
  { rewrite Hw1. unfold stored, after. simpl. now rewrite <- Hi1. }
  split; [now rewrite Hr|].
  split.
  { exists u1. split; [exact Hst|]. split; [exact Ht|]. split; [exact Hout|].
    rewrite Ht. apply in_or_app. right. now left. }
  assert (Hv2' : Jwt.verifyRefreshToken (clock (tick w1)) tok = Ok c2)
    by (rewrite Hw1; exact Hv2).
  assert (Hs2 : stored w1 (Jwt.id c2) = Some u1) by now rewrite Hi2.
  rewrite (refresh_not_stored w1 u1 tok c2 Hv2' Hs2 Hout).
  repeat split.
Qed.

(** C1.  A refresh token is not single-use within the second it was
    issued in.  Let [tok] be the refresh token issued to a user at a time
    [t0], in the stored list of that user and verified as that user's, and
    let it be exchanged within the same second.  Then [refreshToken tok]
    returns a pair whose refresh token is [tok] itself, [tok] is in the
    stored list after the exchange, and a second [refreshToken tok]
    succeeds instead of throwing. *)
Theorem refresh_same_second_reuse (w : World) (u : User.t) (tok : string)
        (c1 c2 : Jwt.Claims) (t0 : Z) :
  stored w (User._id u) = Some u ->
  In tok (tokensOf u) ->
  Jwt.verifyRefreshToken (clock (tick w)) tok = Ok c1 ->
  Jwt.id c1 = User._id u ->
  Jwt.verifyRefreshToken (clock (3 + tick w)) tok = Ok c2 ->
  Jwt.id c2 = User._id u ->
  tok = Jwt.refreshToken (Jwt.generateTokenPair t0 u) ->
  (clock (1 + tick w) / 1000 = t0 / 1000)%Z ->
  let w1 := snd (refreshToken tok w) in
  (exists tokens,
     fst (refreshToken tok w) = Ok tokens /\ Jwt.refreshToken tokens = tok)
  /\ (exists u1, stored w1 (User._id u) = Some u1 /\ In tok (tokensOf u1))
  /\ (exists tokens', fst (refreshToken tok w1) = Ok tokens')
  /\ fst (refreshToken tok w1) <> Throw (Err.AuthError "Invalid refresh token").
Proof.
  intros Hs Hin Hv1 Hi1 Hv2 Hi2 Htok Hsec w1.
  assert (Hs1 : stored w (Jwt.id c1) = Some u) by now rewrite Hi1.
  destruct (refresh_stored w u tok c1 Hv1 Hs1 Hin) as (us & Hr & Hu).
  set (tokens := Jwt.generateTokenPair (clock (1 + tick w)) u) in *.
  assert (Hnew : Jwt.refreshToken tokens = tok).
  { rewrite Htok. unfold tokens.
    now apply refresh_token_of_second. }
  set (u1 := rotated tok (Jwt.refreshToken tokens) (clock (2 + tick w)) u)
    in *.
  assert (Hw1 : w1 = after 3 us w) by (unfold w1; now rewrite Hr).
  assert (Hst : stored w1 (User._id u) = Some u1).
  { rewrite Hw1. unfold stored, after. simpl. now rewrite <- Hi1. }
  assert (Hin1 : In tok (tokensOf u1)).
  { unfold u1, rotated, tokensOf. simpl. rewrite map_app.
    apply in_or_app. right. simpl. now left. }
  assert (Hv2' : Jwt.verifyRefreshToken (clock (tick w1)) tok = Ok c2)
    by (rewrite Hw1; exact Hv2).
  assert (Hs2 : stored w1 (Jwt.id c2) = Some u1) by now rewrite Hi2.
  destruct (refresh_stored w1 u1 tok c2 Hv2' Hs2 Hin1) as (us' & Hr' & _).
  split; [exists tokens; split; [now rewrite Hr | exact Hnew]|].
  split; [exists u1; split; [exact Hst | exact Hin1]|].
  rewrite Hr'. split; [eexists; reflexivity | discriminate].
Qed.

End RotationFacts.

Section RotationExamples.
Import Db Spec.

Lemma refresh_rotation_witness :
  let tok := Demo.sign "R" (Demo.clock 0 - 60000) (Demo.ann 0 None) in
  let u := User.set_refreshTokens [User.mkToken tok (Demo.clock 0 - 60000)%Z]
             (Demo.ann 0 None) in
  let w := Demo.world u in
  let w1 := snd (Demo.refreshToken tok w) in
  fst (Demo.refreshToken tok w)
  = Ok (Demo.generateTokenPair (Demo.clock 1) u)
  /\ fst (Demo.refreshToken tok w1)
     = Throw (Err.AuthError "Invalid refresh token").
Proof.
  intros tok u w w1.
  destruct (@refresh_rotation Demo.demoClock Demo.demoJwt w u tok
              (Jwt.mkClaims 1 1699999940) (Jwt.mkClaims 1 1699999940)
              eq_refl (or_introl eq_refl) eq_refl eq_refl eq_refl eq_refl)
    as (H1 & _ & H2 & _).
  - intros d Hd. vm_compute in Hd. injection Hd as <-. reflexivity.
  - vm_compute. reflexivity.
  - split; [exact H1 | exact H2].
Defined.

(** Ann's refresh token, issued in the second in which it is exchanged
    twice, on a clock that advances by a millisecond per reading. *)
Lemma refresh_same_second_reuse_witness :
  let tok := Demo.sign "R" 1700000000000 (Demo.ann 0 None) in
  let u := User.set_refreshTokens [User.mkToken tok 1700000000000%Z]
             (Demo.ann 0 None) in
  let w := Demo.world u in
  let refresh := @AuthService.refreshToken Demo.quickClock Demo.demoJwt in
  (exists tokens,
     fst (refresh tok w) = Ok tokens /\ Jwt.refreshToken tokens = tok)
  /\ (exists tokens', fst (refresh tok (snd (refresh tok w))) = Ok tokens').
Proof.
  intros tok u w refresh.
  destruct (@refresh_same_second_reuse Demo.quickClock Demo.demoJwt w u tok
              (Jwt.mkClaims 1 1700000000) (Jwt.mkClaims 1 1700000000)
              1700000000000%Z
              eq_refl (or_introl eq_refl) eq_refl eq_refl eq_refl eq_refl
              eq_refl eq_refl)
    as (H1 & _ & H3 & _).
  split; [exact H1 | exact H3].
Defined.

(** The same from the login on: Ann logs in and exchanges her refresh
    token twice within the second.  The refresh token issued in exchange is
    the one presented: it is in the stored list after the exchange, and the
    second exchange of it succeeds as well. *)
Lemma login_then_refresh_twice :
  let u := Demo.ann 0 None in
  let w := Demo.world u in
  let login := @AuthService.login Demo.quickClock Demo.demoBcrypt
                 Demo.demoJwt in
  let refresh := @AuthService.refreshToken Demo.quickClock Demo.demoJwt in
  let w0 := snd (login "ann@example.org"%string "Correct#Horse1"%string "10.0.0.1"%string w) in
  let tok := Demo.sign "R" 1700000000000 u in
  let w1 := snd (refresh tok w0) in
  option_map Jwt.refreshToken
    (option_map snd
       (match fst (login "ann@example.org"%string "Correct#Horse1"%string "10.0.0.1"%string w) with
        | Ok r => Some r
        | Throw _ => None
        end))
  = Some tok
  /\ option_map tokensOf (stored w0 1) = Some [tok]
  /\ option_map Jwt.refreshToken
       (match fst (refresh tok w0) with Ok r => Some r | Throw _ => None end)
     = Some tok
  /\ option_map tokensOf (stored w1 1) = Some [tok]
  /\ (exists tokens, fst (refresh tok w1) = Ok tokens)
  /\ fst (refresh tok w1) <> Throw (Err.AuthError "Invalid refresh token").
Proof.
  intros u w login refresh w0 tok w1.
  split; [reflexivity|]. split; [reflexivity|]. split; [reflexivity|].
  split; [reflexivity|]. split; [eexists; reflexivity | discriminate].
Qed.

End RotationExamples.

(** ** Lower case and trimming *)

Section StringFacts.
Import Str.

Lemma lowerAscii_idem (c : ascii) :
  lowerAscii (lowerAscii c) = lowerAscii c.
Proof.
  destruct c as [[] [] [] [] [] [] [] []]; reflexivity.
Qed.

Lemma toLowerCase_idem (s : string) :
  toLowerCase (toLowerCase s) = toLowerCase s.
Proof.
  induction s as [|c s IH]; simpl; [reflexivity|].
  now rewrite lowerAscii_idem, IH.
Qed.

Lemma isSpace_lower (c : ascii) : isSpace (lowerAscii c) = isSpace c.
Proof. destruct c as [[] [] [] [] [] [] [] []]; reflexivity. Qed.

Lemma lower_trimStart (s : string) :
  toLowerCase (trimStart s) = trimStart (toLowerCase s).
Proof.
  induction s as [|c s IH]; simpl; [reflexivity|].
  rewrite isSpace_lower. destruct (isSpace c); [exact IH | reflexivity].
Qed.

Lemma lower_trimEnd (s : string) :
  toLowerCase (trimEnd s) = trimEnd (toLowerCase s).
Proof.
  induction s as [|c s IH]; simpl; [reflexivity|].
  rewrite <- IH, isSpace_lower.
  destruct (trimEnd s); simpl; [|reflexivity].
  destruct (isSpace c); reflexivity.
Qed.

Lemma lower_trim (s : string) : toLowerCase (trim s) = trim (toLowerCase s).
Proof. unfold trim. now rewrite lower_trimEnd, lower_trimStart. Qed.

Lemma trimStart_idem (s : string) : trimStart (trimStart s) = trimStart s.
Proof.
  induction s as [|c s IH]; simpl; [reflexivity|].
  destruct (isSpace c) eqn:E; [exact IH|]. simpl. now rewrite E.
Qed.

Lemma trimEnd_idem (s : string) : trimEnd (trimEnd s) = trimEnd s.
Proof.
  induction s as [|c s IH]; simpl; [reflexivity|].
  destruct (trimEnd s) as [|a r] eqn:E.
  - destruct (isSpace c) eqn:Ec; simpl; [reflexivity|]. now rewrite Ec.
  - change (trimEnd (String c (String a r)))
      with (match trimEnd (String a r) with
            | EmptyString =>
                if isSpace c then EmptyString else String c EmptyString
            | r' => String c r'
            end).
    now rewrite IH.
Qed.

Lemma trimEnd_head (c : ascii) (s : string) :
  isSpace c = false -> trimStart (trimEnd (String c s)) = trimEnd (String c s).
Proof.
  intros E. cbn [trimEnd]. destruct (trimEnd s); rewrite ?E;
    cbn [trimStart]; now rewrite E.
Qed.

Lemma trim_commute (s : string) :
  trimStart (trimEnd s) = trimEnd (trimStart s).
Proof.
  induction s as [|c s IH]; [reflexivity|].
  destruct (isSpace c) eqn:E.
  - change (trimStart (String c s)) with
      (if isSpace c then trimStart s else String c s).
    rewrite E, <- IH. simpl. rewrite E.
    destruct (trimEnd s); [reflexivity|]. simpl. now rewrite E.
  - change (trimStart (String c s)) with
      (if isSpace c then trimStart s else String c s).
    rewrite E. now apply trimEnd_head.
Qed.

Lemma trim_idem (s : string) : trim (trim s) = trim s.
Proof.
  unfold trim.
  rewrite (trim_commute (trimStart s)), trimStart_idem.
  now rewrite trimEnd_idem.
Qed.

(** The setters of [email] leave what they produce as it is. *)
Lemma emailSetter_normal (v : string) :
  toLowerCase (UserModel.emailSetter v) = UserModel.emailSetter v
  /\ trim (UserModel.emailSetter v) = UserModel.emailSetter v.
Proof.
  unfold UserModel.emailSetter. split.
  - now rewrite lower_trim, toLowerCase_idem.
  - apply trim_idem.
Qed.

Lemma emailSetter_lower (v : string) :
  UserModel.emailSetter (toLowerCase v) = UserModel.emailSetter v.
Proof. unfold UserModel.emailSetter. now rewrite toLowerCase_idem. Qed.

Lemma emailSetter_again (v : string) :
  UserModel.emailSetter (trim (toLowerCase v)) = UserModel.emailSetter v.
Proof.
  unfold UserModel.emailSetter. now rewrite lower_trim, toLowerCase_idem, trim_idem.
Qed.

End StringFacts.

(** ** Registration *)

Section RegisterFacts.
Import Db UserModel AuthService Spec.
Context {C : Clock} {B : Bcrypt} {J : Jwt.Jsonwebtoken}.

Lemma find_exists (A : Type) (p : A -> bool) (l : list A) (x : A) :
  In x l -> p x = true -> exists y, find p l = Some y.
Proof.
  induction l as [|z l IH]; simpl; [tauto|].
  intros [->|H] Hp.
  - rewrite Hp. eauto.
  - destruct (p z); eauto.
Qed.

(** Registering an address that is taken throws the conflict and leaves
    the world as it was. *)
Lemma register_taken (w : World) (name email password : string) (u : User.t) :
  account w email = Some u ->
  register name email password w
  = (Throw (Err.ConflictError "Email is already registered"), w).
Proof.
  intros Ha. unfold register, catch, findByEmail, findOne, bind, gets, throw.
  unfold account in Ha. rewrite Ha. reflexivity.
Qed.

(** A registration that succeeds leaves a document whose email is the
    presented one, lower-cased and trimmed. *)
Lemma register_stores (w w1 : World) (name email password : string)
      (res : User.Json * Jwt.Tokens) :
  register name email password w = (Ok res, w1) ->
  exists d, In d (users w1)
            /\ User.email d
               = emailSetter (Str.trim (Str.toLowerCase email)).
Proof.
  unfold register, catch, findByEmail, findOne, newUser, saveNew, hashPassword,
    insert, issueTokens, addRefreshToken, saveRefreshTokens, updateById,
    bind, gets, modify, now, ret, throw.
  simpl.
  destruct (find _ (users w)); simpl; [discriminate|].
  match goal with |- context [if validate ?u then _ else _] =>
    destruct (validate u) end; simpl; [|discriminate].
  match goal with |- context [if existsb ?p ?l then _ else _] =>
    destruct (existsb p l) end; simpl; [discriminate|].
  intros H. injection H as _ <-. simpl.
  eexists. split.
  - apply in_map. apply in_or_app. right. left. reflexivity.
  - match goal with |- context [if ?b then _ else _] => destruct b end;
      reflexivity.
Qed.

(** C7.  If the collection holds a document whose email is the
    presented address as the setters of the schema leave it, lower-cased
    and trimmed, [register] throws the [ConflictError] (status 409) and the
    world is unchanged: no document is added.  In particular, after a
    registration that succeeded, registering an address that differs from
    it only by letter case meets that conflict. *)
Theorem register_duplicate_conflict (w : World) (name email password : string)
        (u : User.t) :
  In u (users w) ->
  User.email u = emailSetter email ->
  register name email password w
  = (Throw (Err.ConflictError "Email is already registered"), w)
  /\ Err.statusCode (Err.ConflictError "Email is already registered")
     = Some 409%Z
  /\ users (snd (register name email password w)) = users w
  /\ (forall name0 email0 password0 w0 res,
        register name0 email0 password0 w0 = (Ok res, w) ->
        forall name' email' password',
          Str.toLowerCase email' = Str.toLowerCase email0 ->
          register name' email' password' w
          = (Throw (Err.ConflictError "Email is already registered"), w)).
Proof.
  intros Hin He.
  assert (Hp : emailFilter (Str.toLowerCase email) u = true).
  { unfold emailFilter, emailIs. rewrite He, emailSetter_lower.
    apply String.eqb_refl. }
  destruct (find_exists _ (emailFilter (Str.toLowerCase email)) _ u Hin Hp)
    as [u' Hu'].
  pose proof (register_taken w name email password u' Hu') as Hr.
  split; [exact Hr|]. split; [reflexivity|]. split; [now rewrite Hr|].
  intros name0 email0 password0 w0 res Hreg name' email' password' Hsame.
  destruct (register_stores w0 w name0 email0 password0 res Hreg)
    as (d & Hd & Hmail).
  rewrite emailSetter_again in Hmail.
  assert (Hp' : emailFilter (Str.toLowerCase email') d = true).
  { unfold emailFilter, emailIs.
    rewrite Hmail, emailSetter_lower. unfold emailSetter. rewrite Hsame.
    apply String.eqb_refl. }
  destruct (find_exists _ (emailFilter (Str.toLowerCase email')) _ d Hd Hp')
    as [d' Hd'].
  exact (register_taken w name' email' password' d' Hd').
Qed.

End RegisterFacts.

Section RegisterExamples.
Import Db Spec.

Lemma register_duplicate_conflict_witness :
  let w := Demo.world (Demo.ann 0 None) in
  let w1 := snd (Demo.register "Bob" "Bob@Example.org" "Secret#Pass3" w) in
  Demo.register "Anna" "ANN@Example.ORG" "Another#Pass2" w
  = (Throw (Err.ConflictError "Email is already registered"), w)
  /\ Demo.register "Bobby" "BOB@EXAMPLE.ORG" "Other#Pass4" w1
     = (Throw (Err.ConflictError "Email is already registered"), w1).
Proof.
  intros w w1. split.
  - refine (proj1 (@register_duplicate_conflict Demo.demoClock
                     Demo.demoBcrypt Demo.demoJwt w "Anna" "ANN@Example.ORG"
                     "Another#Pass2" (Demo.ann 0 None) _ _)).
    + now left.
    + reflexivity.
  - refine (proj1 (@register_duplicate_conflict Demo.demoClock
                     Demo.demoBcrypt Demo.demoJwt w1 "Bobby" "BOB@EXAMPLE.ORG"
                     "Other#Pass4" _ _ _)).
    + right. left. reflexivity.
    + reflexivity.
Defined.

End RegisterExamples.

(** ** Password change *)

Section PasswordFacts.
Import Db UserModel AuthService AuthMiddleware Spec.
Context {C : Clock} {B : Bcrypt} {J : Jwt.Jsonwebtoken}.

(** A password change that passes its checks. *)
Lemma changePassword_done (w : World) (userId : nat)
      (currentPassword newPassword : string) (u : User.t) :
  stored w userId = Some u ->
  comparePassword u currentPassword = true ->
  comparePassword u newPassword = false ->
  passwordValid newPassword = true ->
  exists us,
    changePassword userId currentPassword newPassword w
    = (Ok "Password changed successfully"%string, after 2 us w)
    /\ find (hasId userId) us
       = Some (User.set_refreshTokens []
                 (User.set_passwordChangedAt (Some (clock (1 + tick w)))
                    (User.set_password (bcrypt_hash newPassword) u))).
Proof.
  intros Hs Hcur Hnew Hval.
  pose proof (stored_id w userId u Hs) as Hid.
  unfold changePassword, hashPassword, updateById, findById, findOne,
    bind, gets, modify, now, ret, throw.
  unfold stored in Hs. rewrite Hs, Hcur, Hnew. simpl. rewrite Hval. simpl.
  eexists. split; [reflexivity|].
  rewrite find_map_preserved
    by (intros d; destruct (hasId (User._id u) d) eqn:E;
        first [reflexivity | rewrite <- Hid; exact E]).
  rewrite Hs. simpl. unfold hasId. now rewrite Nat.eqb_refl.
Qed.

(** A header from which a token is extracted is not empty. *)
Lemma extractToken_header (authHeader token : string) :
  Jwt.extractToken authHeader = Ok token -> String.eqb authHeader "" = false.
Proof.
  destruct authHeader; [|reflexivity].
  unfold Jwt.extractToken. simpl. discriminate.
Qed.

(** The answer of [authenticate] to a token issued before the stored
    [passwordChangedAt]. *)
Lemma authenticate_stale (w : World) (u : User.t) (changed : Z)
      (authHeader token : string) (claims : Jwt.Claims) :
  Jwt.extractToken authHeader = Ok token ->
  Jwt.verifyAccessToken (clock (tick w)) token = Ok claims ->
  stored w (Jwt.id claims) = Some u ->
  User.passwordChangedAt u = Some changed ->
  (Jwt.iat claims * 1000 < changed)%Z ->
  exists n,
    authenticate (Some authHeader) w
    = (Ok (Throw (staleAnswer w u)), after n (users w) w).
Proof.
  intros Hx Hv Hs Hp Hlt.
  unfold authenticate, catch, isLocked, findById, findOne, bind, gets, now,
    ret, lift, staleAnswer.
  rewrite (extractToken_header _ _ Hx), Hx. simpl. rewrite Hv.
  unfold stored in Hs. rewrite Hs.
  apply Z.ltb_lt in Hlt.
  destruct (User.isActive u); simpl; [|exists 1%nat; reflexivity].
  destruct (User.lockUntil u) as [l|]; simpl.
  - destruct (clock (S (tick w)) <? l)%Z; simpl;
      [exists 2%nat; reflexivity|].
    rewrite Hp, Hlt. exists 2%nat. reflexivity.
  - rewrite Hp, Hlt. exists 1%nat. reflexivity.
Qed.

(** C3, as the code has it.  A password change that passes its checks
    returns its message and leaves the user with an empty refresh-token
    list, the hash of the new password, and [passwordChangedAt] at the
    reading of the clock taken by the save hook.  From then on, as long as
    [passwordChangedAt] is not earlier than that, a request bearing an
    access token whose [iat] (in seconds) lies before it is never let
    through: it is refused with 401 and the message of a recent password
    change when the account is active and not locked, with 401 when it is
    deactivated, and with 423 when it is locked. *)
Theorem password_change_invalidates (w : World) (userId : nat)
        (currentPassword newPassword : string) (u : User.t) :
  stored w userId = Some u ->
  comparePassword u currentPassword = true ->
  comparePassword u newPassword = false ->
  passwordValid newPassword = true ->
  let changed := clock (1 + tick w) in
  let w1 := snd (changePassword userId currentPassword newPassword w) in
  fst (changePassword userId currentPassword newPassword w)
  = Ok "Password changed successfully"%string
  /\ (exists u1,
        stored w1 userId = Some u1
        /\ User.refreshTokens u1 = []
        /\ User.passwordChangedAt u1 = Some changed
        /\ User.password u1 = bcrypt_hash newPassword)
  /\ (forall (w2 : World) (u2 : User.t) (p : Z)
             (authHeader token : string) (claims : Jwt.Claims),
        stored w2 userId = Some u2 ->
        User.passwordChangedAt u2 = Some p -> (changed <= p)%Z ->
        Jwt.extractToken authHeader = Ok token ->
        Jwt.verifyAccessToken (clock (tick w2)) token = Ok claims ->
        Jwt.id claims = userId ->
        (Jwt.iat claims * 1000 < changed)%Z ->
        fst (authenticate (Some authHeader) w2) = Ok (Throw (staleAnswer w2 u2))
        /\ users (snd (authenticate (Some authHeader) w2)) = users w2
        /\ (User.isActive u2 = true ->
            (forall l, User.lockUntil u2 = Some l ->
                       (l <= clock (1 + tick w2))%Z) ->
            staleAnswer w2 u2
            = Err.AppError "Password recently changed. Please log in again"
                           401)
        /\ (Err.statusCode (staleAnswer w2 u2) = Some 401%Z
            \/ Err.statusCode (staleAnswer w2 u2) = Some 423%Z)).
Proof.
  intros Hs Hcur Hnew Hval changed w1.
  destruct (changePassword_done w userId currentPassword newPassword u
              Hs Hcur Hnew Hval) as (us & Hr & Hu).
  fold changed in Hu.
  split; [now rewrite Hr|]. split.
  { exists (User.set_refreshTokens []
              (User.set_passwordChangedAt (Some changed)
                 (User.set_password (bcrypt_hash newPassword) u))).
    split; [|repeat split].
    unfold w1. rewrite Hr. exact Hu. }
  intros w2 u2 p authHeader token claims Hs2 Hp Hle Hx Hv Hid Hlt.
  rewrite <- Hid in Hs2.
  destruct (authenticate_stale w2 u2 p authHeader token claims Hx Hv Hs2 Hp)
    as [n Ha]; [lia|].
  rewrite Ha. split; [reflexivity|]. split; [reflexivity|]. split.
  - intros Hact Hlock. unfold staleAnswer. rewrite Hact. cbn [negb].
    destruct (User.lockUntil u2) as [l|]; [|reflexivity].
    specialize (Hlock l eq_refl).
    assert (E : (clock (1 + tick w2) <? l)%Z = false) by (apply Z.ltb_ge; lia).
    now rewrite E.
  - unfold staleAnswer.
    destruct (User.isActive u2); cbn [negb]; [|now left].
    destruct (User.lockUntil u2) as [l|]; [|now left].
    destruct (clock (1 + tick w2) <? l)%Z; [now right | now left].
Qed.

End PasswordFacts.

Section PasswordExamples.
Import Db Spec.

Lemma password_change_invalidates_witness :
  let u := Demo.ann 0 None in
  let w := Demo.world u in
  let old := ("Bearer " ++ Demo.sign "A" (Demo.clock 0 - 60000) u)%string in
  let w1 := snd (Demo.changePassword 1 "Correct#Horse1" "Better#Horse2" w) in
  fst (Demo.changePassword 1 "Correct#Horse1" "Better#Horse2" w)
  = Ok "Password changed successfully"%string
  /\ stored w1 1
     = Some (User.set_passwordChangedAt (Some (Demo.clock 1))
               (User.set_password (Demo.hash "Better#Horse2") u))
  /\ fst (Demo.authenticate (Some old) w1)
     = Ok (Throw (Err.AppError
                    "Password recently changed. Please log in again" 401)).
Proof.
  intros u w old w1.
  destruct (@password_change_invalidates Demo.demoClock Demo.demoBcrypt
              Demo.demoJwt w 1 "Correct#Horse1" "Better#Horse2" u
              eq_refl eq_refl eq_refl eq_refl) as (H1 & _ & H3).
  split; [exact H1|]. split; [reflexivity|].
  destruct (H3 w1 (User.set_passwordChangedAt (Some (Demo.clock 1))
                     (User.set_password (Demo.hash "Better#Horse2") u))
               (Demo.clock 1) old
               (Demo.sign "A" (Demo.clock 0 - 60000) u)
               (Jwt.mkClaims 1 1699999940)
               eq_refl eq_refl) as (H & _).
  - apply Z.le_refl.
  - reflexivity.
  - reflexivity.
  - reflexivity.
  - reflexivity.
  - exact H.
Defined.

(** Ann changes her password; five wrong passwords then lock the account.
    A request with the access token she held before the change, still
    within its lifetime, is refused with 423 as locked, not with 401. *)
Lemma stale_token_on_locked_account_counterexample :
  let u := Demo.ann 0 None in
  let w := Demo.world u in
  let token := Demo.sign "A" (Demo.clock 0 - 60000) u in
  let w1 := snd (Demo.changePassword 1 "Correct#Horse1" "Better#Horse2" w) in
  let w2 := @logins Demo.demoClock Demo.demoBcrypt Demo.demoJwt 5
              "ann@example.org" "guess" "10.0.0.1" w1 in
  fst (Demo.changePassword 1 "Correct#Horse1" "Better#Horse2" w)
  = Ok "Password changed successfully"%string
  /\ Demo.verify "A" (24 * 60 * 60 * 1000) (Demo.clock (tick w2)) token
     = Ok (Jwt.mkClaims 1 1699999940)
  /\ option_map User.passwordChangedAt (stored w2 1)
     = Some (Some 1700000001000%Z)
  /\ (1699999940 * 1000 < 1700000001000)%Z
  /\ fst (Demo.authenticate (Some ("Bearer " ++ token)%string) w2)
     = Ok (Throw (Err.AppError "Account is temporarily locked" 423))
  /\ Err.statusCode (Err.AppError "Account is temporarily locked" 423)
     <> Some 401%Z.
Proof.
  intros u w token w1 w2.
  split; [reflexivity|]. split; [reflexivity|]. split; [reflexivity|].
  split; [reflexivity|]. split; [reflexivity|]. discriminate.
Qed.

End PasswordExamples.

(** ** A login that succeeds *)

(** An update of the documents with one [_id] that leaves their [email],
    or their [_id], as it is does not change what a filter on it finds. *)
Ltac keeps_email :=
  let d := fresh "d" in
  intros d; unfold Db.emailIs;
  match goal with |- context [if Db.hasId ?i d then _ else _] =>
    destruct (Db.hasId i d) end; reflexivity.

(** Case analysis on the tests a run goes through. *)
Ltac branches :=
  repeat (match goal with
          | |- context [if ?b then _ else _] => destruct b
          end; simpl).

Ltac keeps_id :=
  let d := fresh "d" in
  let E := fresh "E" in
  intros d;
  match goal with |- context [if Db.hasId ?i d then _ else _] =>
    destruct (Db.hasId i d) eqn:E end; first [reflexivity | exact E].

Section LoginFacts.
Import Db UserModel AuthService Spec.
Context {C : Clock} {B : Bcrypt} {J : Jwt.Jsonwebtoken}.

(** [incLoginAttempts] never throws. *)
Lemma incLoginAttempts_returns (u : User.t) (w : World) :
  fst (incLoginAttempts u w) = Ok tt.
Proof.
  unfold incLoginAttempts, isLocked, bind, now, ret, updateById, modify.
  destruct (User.lockUntil u) as [l|]; simpl.
  - destruct (l <? clock (tick w))%Z; simpl; [reflexivity|].
    destruct (5 <=? User.loginAttempts u + 1)%Z; simpl; [|reflexivity].
    destruct (clock (S (tick w)) <? l)%Z; reflexivity.
  - destruct (5 <=? User.loginAttempts u + 1)%Z; reflexivity.
Qed.

(** The run of a login with the right password on an active account
    that is not locked. *)
Lemma login_success_run (w : World) (email password ipAddress : string)
      (u : User.t) :
  account w email = Some u ->
  User.isActive u = true ->
  comparePassword u password = true ->
  (forall l, User.lockUntil u = Some l -> (l <= clock (tick w))%Z) ->
  let k := match User.lockUntil u with Some _ => 1%nat | None => 0%nat end in
  let u1 := User.set_lastLogin (Some (clock (k + tick w))) u in
  let tokens := Jwt.generateTokenPair (clock (1 + k + tick w)) u1 in
  let u2 := User.set_refreshTokens
              (User.refreshTokens u
               ++ [User.mkToken (Jwt.refreshToken tokens)
                                (clock (2 + k + tick w))]) u1 in
  let reset := fun d => if hasId (User._id u) d
                        then User.set_loginAttempts 0
                               (User.set_lockUntil None d)
                        else d in
  let stamp := fun d => if hasId (User._id u) d
                        then User.set_lastLogin (User.lastLogin u1) d
                        else d in
  let push := fun d => if hasId (User._id u) d
                       then User.set_refreshTokens (User.refreshTokens u2) d
                       else d in
  login email password ipAddress w
  = (Ok (User.toJSON u2, tokens),
     after (3 + k)
       (map push (map stamp
          (if (0 <? User.loginAttempts u)%Z then map reset (users w)
           else users w))) w).
Proof.
  intros Ha Hact Hpw Hlock.
  unfold login, findOne, isLocked, resetLoginAttempts, issueTokens,
    addRefreshToken, saveRefreshTokens, updateById, bind, gets, modify, now,
    ret, throw.
  unfold account in Ha. rewrite Ha.
  destruct (User.lockUntil u) as [l|] eqn:El; simpl.
  - assert (E : (clock (tick w) <? l)%Z = false)
      by (apply Z.ltb_ge; now apply Hlock).
    rewrite E, Hact, Hpw. simpl.
    destruct (0 <? User.loginAttempts u)%Z; reflexivity.
  - rewrite Hact, Hpw. simpl.
    destruct (0 <? User.loginAttempts u)%Z; simpl; destruct w; reflexivity.
Qed.

(** X1.  A login with the right password on an active account that is
    not locked returns a token pair and leaves the account with the
    counter at 0, the lock removed if the counter was positive, the login
    stamped, and the new refresh token added after the stored ones;
    password, role and flags are as before. *)
Theorem login_success_resets (w : World) (email password ipAddress : string)
        (u : User.t) :
  account w email = Some u ->
  User.isActive u = true ->
  comparePassword u password = true ->
  (forall l, User.lockUntil u = Some l -> (l <= clock (tick w))%Z) ->
  (0 <= User.loginAttempts u)%Z ->
  exists json tokens u',
    fst (login email password ipAddress w) = Ok (json, tokens)
    /\ account (snd (login email password ipAddress w)) email = Some u'
    /\ User.loginAttempts u' = 0%Z
    /\ ((0 < User.loginAttempts u)%Z -> User.lockUntil u' = None)
    /\ (exists t, User.lastLogin u' = Some t)
    /\ tokensOf u' = tokensOf u ++ [Jwt.refreshToken tokens]
    /\ User.password u' = User.password u
    /\ User.role u' = User.role u
    /\ User.isActive u' = true
    /\ User.j_email json = User.email u.
Proof.
  intros Ha Hact Hpw Hlock Hpos.
  rewrite (login_success_run w email password ipAddress u Ha Hact Hpw Hlock).
  cbv zeta. do 2 eexists.
  unfold account in *. cbn [fst snd after users].
  rewrite !find_map_preserved by keeps_email.
  destruct (0 <? User.loginAttempts u)%Z eqn:E.
  - rewrite find_map_preserved by keeps_email.
    rewrite Ha. unfold hasId. cbn. rewrite !Nat.eqb_refl. cbn.
    eexists. split; [reflexivity|]. split; [reflexivity|].
    unfold tokensOf. cbn. rewrite map_app.
    repeat split; eauto.
  - rewrite Ha. unfold hasId. cbn. rewrite !Nat.eqb_refl. cbn.
    eexists. split; [reflexivity|]. split; [reflexivity|].
    unfold tokensOf. cbn. rewrite map_app.
    apply Z.ltb_ge in E.
    repeat split; eauto; lia.
Qed.

End LoginFacts.

(** ** What the account operations leave alone *)

Section FrameFacts.
Import Db UserModel AuthService Spec Frame.
Context {C : Clock} {B : Bcrypt} {J : Jwt.Jsonwebtoken}.

Lemma touched_ids (i : nat) (l l' : list User.t) :
  Touched i l l' -> map User._id l' = map User._id l.
Proof.
  induction 1 as [|l' f Ht IH Hid Hmail]; [reflexivity|].
  rewrite <- IH, map_map. apply map_ext. intros d.
  destruct (hasId i d); [apply Hid | reflexivity].
Qed.

Lemma touched_emails (i : nat) (l l' : list User.t) :
  Touched i l l' -> map User.email l' = map User.email l.
Proof.
  induction 1 as [|l' f Ht IH Hid Hmail]; [reflexivity|].
  rewrite <- IH, map_map. apply map_ext. intros d.
  destruct (hasId i d); [apply Hmail | reflexivity].
Qed.

Lemma find_other_id (i j : nat) (f : User.t -> User.t) (l : list User.t) :
  i <> j -> (forall d, User._id (f d) = User._id d) ->
  find (hasId j) (map (fun d => if hasId i d then f d else d) l)
  = find (hasId j) l.
Proof.
  intros Hne Hid. induction l as [|d l IH]; [reflexivity|]. simpl.
  destruct (hasId i d) eqn:Ei.
  - unfold hasId in *. rewrite Hid.
    apply Nat.eqb_eq in Ei.
    destruct (Nat.eqb_spec (User._id d) j); [congruence | exact IH].
  - destruct (hasId j d); [reflexivity | exact IH].
Qed.

Lemma touched_other (i j : nat) (l l' : list User.t) :
  Touched i l l' -> i <> j -> find (hasId j) l' = find (hasId j) l.
Proof.
  induction 1 as [|l' f Ht IH Hid Hmail]; intros Hne; [reflexivity|].
  rewrite find_other_id by assumption. now apply IH.
Qed.

Ltac touched :=
  repeat first
    [ apply touched_none
    | apply touched_more; [ | intros ?; reflexivity | intros ?; reflexivity ] ].

(** The collection after a login comes from the one before by updates of
    the addressed account. *)
Lemma login_touched (w : World) (email password ipAddress : string) :
  nextId (snd (login email password ipAddress w)) = nextId w
  /\ match account w email with
     | Some u =>
         Touched (User._id u) (users w)
                 (users (snd (login email password ipAddress w)))
     | None => users (snd (login email password ipAddress w)) = users w
     end.
Proof.
  unfold account, login, findOne, incLoginAttempts, isLocked,
    resetLoginAttempts, issueTokens, addRefreshToken, saveRefreshTokens,
    updateById, bind, gets, modify, now, ret, throw.
  destruct (find (emailFilter (Str.toLowerCase email)) (users w)) as [u|];
    [|split; reflexivity].
  destruct (User.lockUntil u) as [l|]; simpl; branches;
    (split; [reflexivity | touched]).
Qed.

(** X3.  Whatever its outcome, a login adds and removes no document,
    changes no [_id] and no [email], draws no [_id], and leaves every
    document whose [_id] is not that of the addressed account as it was. *)
Theorem login_touches_one_account (w : World)
        (email password ipAddress : string) :
  let w' := snd (login email password ipAddress w) in
  map User._id (users w') = map User._id (users w)
  /\ map User.email (users w') = map User.email (users w)
  /\ nextId w' = nextId w
  /\ forall j, (forall u, account w email = Some u -> User._id u <> j) ->
               stored w' j = stored w j.
Proof.
  intros w'. destruct (login_touched w email password ipAddress) as [Hn Ht].
  fold w' in Hn, Ht. unfold stored.
  destruct (account w email) as [u|].
  - split; [now apply (touched_ids (User._id u))|].
    split; [now apply (touched_emails (User._id u))|].
    split; [exact Hn|].
    intros j Hj. apply (touched_other (User._id u)); [exact Ht|].
    now apply Hj.
  - rewrite Ht. repeat split. exact Hn.
Qed.

Lemma touched_only (i : nat) (w w' : World) :
  Touched i (users w) (users w') -> nextId w' = nextId w ->
  onlyAccount i w w'.
Proof.
  intros Ht Hn. split; [now apply (touched_ids i)|].
  split; [now apply (touched_emails i)|]. split; [exact Hn|].
  intros j Hj. now apply (touched_other i).
Qed.

Lemma same_users_only (i : nat) (w w' : World) :
  users w' = users w -> nextId w' = nextId w -> onlyAccount i w w'.
Proof.
  intros Hu Hn. apply touched_only; [|exact Hn]. rewrite Hu. constructor.
Qed.

(** X4.  [refreshToken], [logout], [changePassword] and
    [deactivateAccount], whatever their outcome, add and remove no
    document, change no [_id] and no [email], and leave every document
    other than those of the user they are called for as it was; for
    [refreshToken] that user is the one the token verifies as, and a call
    whose token does not verify changes nothing at all. *)
Theorem account_operations_touch_one_account (w : World) (userId : nat) :
  (forall tok,
     match Jwt.verifyRefreshToken (clock (tick w)) tok with
     | Ok c => onlyAccount (Jwt.id c) w (snd (refreshToken tok w))
     | Throw _ => users (snd (refreshToken tok w)) = users w
     end)
  /\ (forall tok, onlyAccount userId w (snd (logout userId tok w)))
  /\ (forall currentPassword newPassword,
        onlyAccount userId w
          (snd (changePassword userId currentPassword newPassword w)))
  /\ onlyAccount userId w (snd (deactivateAccount userId w)).
Proof.
  split; [|split; [|split]].
  - intros tok.
    unfold refreshToken, issueTokens, removeRefreshToken, addRefreshToken,
      saveRefreshTokens, updateById, findById, findOne, bind, gets, modify,
      now, ret, lift, throw. simpl.
    destruct (Jwt.verifyRefreshToken (clock (tick w)) tok) as [c|e];
      [|reflexivity].
    destruct (find (hasId (Jwt.id c)) (users w)) as [u|] eqn:Ef; simpl;
      [|apply same_users_only; reflexivity].
    assert (Hid : User._id u = Jwt.id c).
    { apply find_some in Ef. destruct Ef as [_ Ef].
      now apply Nat.eqb_eq in Ef. }
    rewrite Hid.
    destruct (find _ (User.refreshTokens u)); simpl;
      (apply touched_only; [touched | reflexivity]).
  - intros tok.
    unfold logout, removeRefreshToken, saveRefreshTokens, updateById,
      findById, findOne, bind, gets, modify, ret, throw. simpl.
    destruct (find (hasId userId) (users w)) as [u|] eqn:Ef; simpl;
      [|apply same_users_only; reflexivity].
    assert (Hid : User._id u = userId).
    { apply find_some in Ef. destruct Ef as [_ Ef].
      now apply Nat.eqb_eq in Ef. }
    destruct tok as [tok|]; simpl; [destruct (String.eqb tok ""); simpl|];
      rewrite ?Hid; (apply touched_only; [touched | reflexivity]).
  - intros currentPassword newPassword.
    unfold changePassword, hashPassword, updateById, findById, findOne,
      bind, gets, modify, now, ret, throw. simpl.
    destruct (find (hasId userId) (users w)) as [u|] eqn:Ef; simpl;
      [|apply same_users_only; reflexivity].
    assert (Hid : User._id u = userId).
    { apply find_some in Ef. destruct Ef as [_ Ef].
      now apply Nat.eqb_eq in Ef. }
    branches; rewrite ?Hid; (apply touched_only; [touched | reflexivity]).
  - unfold deactivateAccount, findByIdAndUpdate, updateById, findById,
      findOne, bind, gets, modify, ret, throw. simpl.
    destruct (find _ _); simpl; (apply touched_only; [touched | reflexivity]).
Qed.

End FrameFacts.

(** ** The guards *)

Section GuardFacts.
Import Db UserModel AuthMiddleware AuthGuards Spec.
Context {C : Clock} {J : Jwt.Jsonwebtoken}.

(** A request that meets every test is let through. *)
Lemma authenticate_passes (w : World) (authHeader token : string)
      (claims : Jwt.Claims) (u : User.t) :
  Jwt.extractToken authHeader = Ok token ->
  Jwt.verifyAccessToken (clock (tick w)) token = Ok claims ->
  stored w (Jwt.id claims) = Some u ->
  User.isActive u = true ->
  (forall l, User.lockUntil u = Some l -> (l <= clock (1 + tick w))%Z) ->
  (forall p, User.passwordChangedAt u = Some p ->
             (p <= Jwt.iat claims * 1000)%Z) ->
  fst (authenticate (Some authHeader) w) = Ok (Ok u).
Proof.
  intros Hx Hv Hs Hact Hlock Hfresh.
  unfold authenticate, catch, isLocked, findById, findOne, bind, gets, now,
    ret, lift. unfold stored in Hs.
  rewrite (extractToken_header _ _ Hx), Hx. simpl. rewrite Hv, Hs, Hact.
  simpl.
  destruct (User.lockUntil u) as [l|]; simpl.
  - assert (E : (clock (S (tick w)) <? l)%Z = false)
      by (apply Z.ltb_ge; now apply Hlock).
    rewrite E. simpl.
    destruct (User.passwordChangedAt u) as [p|]; [|reflexivity].
    assert (E' : (Jwt.iat claims * 1000 <? p)%Z = false)
      by (apply Z.ltb_ge; now apply Hfresh).
    now rewrite E'.
  - destruct (User.passwordChangedAt u) as [p|]; [|reflexivity].
    assert (E' : (Jwt.iat claims * 1000 <? p)%Z = false)
      by (apply Z.ltb_ge; now apply Hfresh).
    now rewrite E'.
Qed.

(** X5.  [authenticate] never throws and never writes.  It lets a
    request through only with a header whose token the service verifies,
    for a stored user who is active, whose lock (if any) is not in the
    future, and whose password was not changed after the token was issued,
    and the user it attaches is that stored document; every refusal
    carries 401, or 423 for a locked account. *)
Theorem authenticate_sound (w : World) (authorization : option string) :
  users (snd (authenticate authorization w)) = users w
  /\ nextId (snd (authenticate authorization w)) = nextId w
  /\ (exists outcome, fst (authenticate authorization w) = Ok outcome)
  /\ (forall u, fst (authenticate authorization w) = Ok (Ok u) ->
        exists authHeader token claims,
          authorization = Some authHeader
          /\ Jwt.extractToken authHeader = Ok token
          /\ Jwt.verifyAccessToken (clock (tick w)) token = Ok claims
          /\ stored w (Jwt.id claims) = Some u
          /\ User.isActive u = true
          /\ (forall l, User.lockUntil u = Some l ->
                        (l <= clock (1 + tick w))%Z)
          /\ (forall p, User.passwordChangedAt u = Some p ->
                        (p <= Jwt.iat claims * 1000)%Z))
  /\ (forall e, fst (authenticate authorization w) = Ok (Throw e) ->
        Err.statusCode e = Some 401%Z
        \/ (Err.statusCode e = Some 423%Z
            /\ exists u l, In u (users w) /\ User.lockUntil u = Some l
                           /\ (clock (1 + tick w) < l)%Z)).
Proof.
  unfold authenticate, catch, isLocked, findById, findOne, bind, gets, now,
    ret, lift, stored.
  destruct authorization as [authHeader|]; simpl.
  2:{ repeat split; eauto; intros ? [=]; subst; now left. }
  destruct (String.eqb authHeader "") eqn:Hne; simpl.
  1:{ repeat split; eauto; intros ? [=]; subst; now left. }
  destruct (Jwt.extractToken authHeader) as [token|e0] eqn:Hx; simpl.
  2:{ branches; repeat split; eauto; intros ? [=]; subst; now left. }
  destruct (Jwt.verifyAccessToken (clock (tick w)) token) as [claims|e1]
    eqn:Hv; simpl.
  2:{ branches; repeat split; eauto; intros ? [=]; subst; now left. }
  destruct (find (hasId (Jwt.id claims)) (users w)) as [u|] eqn:Hf; simpl.
  2:{ repeat split; eauto; intros ? [=]; subst; now left. }
  destruct (User.isActive u) eqn:Hact; simpl.
  2:{ repeat split; eauto; intros ? [=]; subst; now left. }
  destruct (User.lockUntil u) as [l|] eqn:Hl; simpl.
  - destruct (clock (S (tick w)) <? l)%Z eqn:Hlt; simpl.
    { repeat split; eauto; intros ? [=]; subst. right. split; [reflexivity|].
      exists u, l. split; [now apply find_some in Hf|].
      split; [exact Hl|]. now apply Z.ltb_lt. }
    apply Z.ltb_ge in Hlt.
    destruct (User.passwordChangedAt u) as [p|] eqn:Hp; simpl.
    + destruct (Jwt.iat claims * 1000 <? p)%Z eqn:Hs; simpl.
      { repeat split; eauto; intros ? [=]; subst; now left. }
      apply Z.ltb_ge in Hs.
      repeat split; eauto; intros ? [=]; subst.
      exists authHeader, token, claims. repeat split; auto.
      * intros l' Hl'. rewrite Hl in Hl'. injection Hl' as <-. exact Hlt.
      * intros p' Hp'. rewrite Hp in Hp'. injection Hp' as <-. exact Hs.
    + repeat split; eauto; intros ? [=]; subst.
      exists authHeader, token, claims. repeat split; auto.
      * intros l' Hl'. rewrite Hl in Hl'. injection Hl' as <-. exact Hlt.
      * intros p' Hp'. rewrite Hp in Hp'. discriminate.
  - destruct (User.passwordChangedAt u) as [p|] eqn:Hp; simpl.
    + destruct (Jwt.iat claims * 1000 <? p)%Z eqn:Hs; simpl.
      { repeat split; eauto; intros ? [=]; subst; now left. }
      apply Z.ltb_ge in Hs.
      repeat split; eauto; intros ? [=]; subst.
      exists authHeader, token, claims. repeat split; auto.
      * intros l' Hl'. rewrite Hl in Hl'. discriminate.
      * intros p' Hp'. rewrite Hp in Hp'. injection Hp' as <-. exact Hs.
    + repeat split; eauto; intros ? [=]; subst.
      exists authHeader, token, claims. repeat split; auto.
      * intros l' Hl'. rewrite Hl in Hl'. discriminate.
      * intros p' Hp'. rewrite Hp in Hp'. discriminate.
Qed.

Lemma optionalAuth_attaches (w : World) (authHeader token : string)
      (claims : Jwt.Claims) (u : User.t) :
  Jwt.extractToken authHeader = Ok token ->
  Jwt.verifyAccessToken (clock (tick w)) token = Ok claims ->
  stored w (Jwt.id claims) = Some u ->
  User.isActive u = true ->
  (forall l, User.lockUntil u = Some l -> (l <= clock (1 + tick w))%Z) ->
  fst (optionalAuth (Some authHeader) w) = Ok (Some u).
Proof.
  intros Hx Hv Hs Hact Hlock.
  unfold optionalAuth, catch, isLocked, findById, findOne, bind, gets, now,
    ret, lift. unfold stored in Hs.
  rewrite Hx. simpl. rewrite Hv, Hs, Hact. simpl.
  destruct (User.lockUntil u) as [l|]; simpl; [|reflexivity].
  assert (E : (clock (S (tick w)) <? l)%Z = false)
    by (apply Z.ltb_ge; now apply Hlock).
  now rewrite E.
Qed.

(** X6.  [optionalAuth] never throws, never refuses and never writes.
    It attaches a user exactly when the header carries a token that the
    service verifies for a stored user who is active and not locked.  It
    does not look at [passwordChangedAt]: a token issued before the last
    password change, which [authenticate] refuses with 401, still gets its
    user attached here. *)
Theorem optionalAuth_attaches_iff (w : World) (authorization : option string) :
  users (snd (optionalAuth authorization w)) = users w
  /\ (exists attached, fst (optionalAuth authorization w) = Ok attached)
  /\ (forall u,
        fst (optionalAuth authorization w) = Ok (Some u) <->
        exists authHeader token claims,
          authorization = Some authHeader
          /\ Jwt.extractToken authHeader = Ok token
          /\ Jwt.verifyAccessToken (clock (tick w)) token = Ok claims
          /\ stored w (Jwt.id claims) = Some u
          /\ User.isActive u = true
          /\ (forall l, User.lockUntil u = Some l ->
                        (l <= clock (1 + tick w))%Z))
  /\ (forall authHeader token claims u p,
        authorization = Some authHeader ->
        Jwt.extractToken authHeader = Ok token ->
        Jwt.verifyAccessToken (clock (tick w)) token = Ok claims ->
        stored w (Jwt.id claims) = Some u ->
        User.isActive u = true ->
        (forall l, User.lockUntil u = Some l ->
                   (l <= clock (1 + tick w))%Z) ->
        User.passwordChangedAt u = Some p ->
        (Jwt.iat claims * 1000 < p)%Z ->
        fst (optionalAuth authorization w) = Ok (Some u)
        /\ fst (authenticate authorization w)
           = Ok (Throw (Err.AppError
                          "Password recently changed. Please log in again"
                          401))).
Proof.
  split; [|split; [|split]].
  - unfold optionalAuth, catch, isLocked, findById, findOne, bind, gets, now,
      ret, lift.
    destruct authorization as [authHeader|]; simpl; [|reflexivity].
    destruct (Jwt.extractToken authHeader); simpl; [|reflexivity].
    destruct (Jwt.verifyAccessToken (clock (tick w)) a); simpl;
      [|reflexivity].
    destruct (find _ (users w)) as [u|]; simpl; [|reflexivity].
    destruct (User.isActive u); simpl; [|reflexivity].
    destruct (User.lockUntil u); reflexivity.
  - unfold optionalAuth, catch, isLocked, findById, findOne, bind, gets, now,
      ret, lift.
    destruct authorization as [authHeader|]; simpl; [|eauto].
    destruct (Jwt.extractToken authHeader); simpl; [|eauto].
    destruct (Jwt.verifyAccessToken (clock (tick w)) a); simpl; [|eauto].
    destruct (find _ (users w)) as [u|]; simpl; [|eauto].
    destruct (User.isActive u); simpl; [|eauto].
    destruct (User.lockUntil u); simpl; eauto.
  - intros u. split.
    + unfold optionalAuth, catch, isLocked, findById, findOne, bind, gets,
        now, ret, lift, stored.
      destruct authorization as [authHeader|]; simpl; [|discriminate].
      destruct (Jwt.extractToken authHeader) as [token|] eqn:Hx; simpl;
        [|discriminate].
      destruct (Jwt.verifyAccessToken (clock (tick w)) token) as [claims|]
        eqn:Hv; simpl; [|discriminate].
      destruct (find _ (users w)) as [u0|] eqn:Hf; simpl; [|discriminate].
      destruct (User.isActive u0) eqn:Hact; simpl; [|discriminate].
      destruct (User.lockUntil u0) as [l|] eqn:Hl; simpl.
      * destruct (clock (S (tick w)) <? l)%Z eqn:Hlt; simpl; [discriminate|].
        intros [=]; subst. apply Z.ltb_ge in Hlt.
        exists authHeader, token, claims. repeat split; auto.
        intros l' Hl'. rewrite Hl in Hl'. injection Hl' as <-. exact Hlt.
      * intros [=]; subst.
        exists authHeader, token, claims. repeat split; auto.
        intros l' Hl'. rewrite Hl in Hl'. discriminate.
    + intros (authHeader & token & claims & -> & Hx & Hv & Hs & Hact & Hlock).
      now apply (optionalAuth_attaches w authHeader token claims u).
  - intros authHeader token claims u p -> Hx Hv Hs Hact Hlock Hp Hlt.
    split; [now apply (optionalAuth_attaches w authHeader token claims u)|].
    destruct (authenticate_stale w u p authHeader token claims Hx Hv Hs Hp Hlt)
      as [n Ha].
    rewrite Ha. simpl. unfold staleAnswer. rewrite Hact. cbn [negb].
    destruct (User.lockUntil u) as [l|]; [|reflexivity].
    assert (E : (clock (1 + tick w) <? l)%Z = false)
      by (apply Z.ltb_ge; now apply Hlock).
    now rewrite E.
Qed.

Lemma token_found_iff (tok : string) (l : list User.RefreshTokenRecord) :
  (exists rt, find (fun rt => String.eqb (User.token rt) tok) l = Some rt)
  <-> In tok (map User.token l).
Proof.
  split; [|apply find_token_some].
  intros [rt H]. apply find_some in H. destruct H as [Hin He].
  apply String.eqb_eq in He. rewrite <- He. now apply in_map.
Qed.

End GuardFacts.

Section RefreshGuardFacts.
Import Db UserModel AuthService AuthGuards Spec.
Context {C : Clock} {B : Bcrypt} {J : Jwt.Jsonwebtoken}.

(** X7.  [validateRefreshToken] never writes.  It lets a request through
    exactly when the body carries a non-empty token that the service
    verifies for a stored user whose list holds it, and it attaches that
    user.  When it does, the [refreshToken] call that follows finds the
    token as well and returns a pair, provided the token still verifies
    for the same user at that reading of the clock. *)
Theorem validateRefreshToken_agrees (w : World) (body : option string) :
  users (snd (validateRefreshToken body w)) = users w
  /\ (forall u,
        fst (validateRefreshToken body w) = Ok (Ok u) <->
        exists tok c,
          body = Some tok /\ tok <> ""%string
          /\ Jwt.verifyRefreshToken (clock (tick w)) tok = Ok c
          /\ stored w (Jwt.id c) = Some u
          /\ In tok (tokensOf u))
  /\ (forall tok u c',
        body = Some tok ->
        fst (validateRefreshToken body w) = Ok (Ok u) ->
        Jwt.verifyRefreshToken (clock (1 + tick w)) tok = Ok c' ->
        Jwt.id c' = User._id u ->
        exists tokens,
          fst (refreshToken tok (snd (validateRefreshToken body w)))
          = Ok tokens).
Proof.
  assert (Hchar : forall u,
    fst (validateRefreshToken body w) = Ok (Ok u) <->
    exists tok c,
      body = Some tok /\ tok <> ""%string
      /\ Jwt.verifyRefreshToken (clock (tick w)) tok = Ok c
      /\ stored w (Jwt.id c) = Some u
      /\ In tok (tokensOf u)).
  { intros u. unfold validateRefreshToken, catch, findById, findOne, bind,
      gets, now, ret, lift, stored, tokensOf.
    destruct body as [tok|]; simpl.
    2:{ split; [discriminate|]. intros (? & ? & [=] & _). }
    destruct (String.eqb_spec tok "") as [E|E]; simpl.
    { split; [discriminate|]. intros (? & ? & [=] & Hne & _). now subst. }
    destruct (Jwt.verifyRefreshToken (clock (tick w)) tok) as [c|e] eqn:Hv;
      simpl.
    2:{ split.
        - branches; discriminate.
        - intros (? & ? & [=] & _ & Hv' & _). subst. congruence. }
    destruct (find (hasId (Jwt.id c)) (users w)) as [u0|] eqn:Hf; simpl.
    2:{ split; [discriminate|].
        intros (? & c0 & [=] & _ & Hv' & Hs & _). subst.
        rewrite Hv in Hv'. injection Hv' as <-. congruence. }
    destruct (find _ (User.refreshTokens u0)) as [rt|] eqn:Ht; simpl.
    - split.
      + intros [=]; subst. exists tok, c. repeat split; auto.
        apply token_found_iff. eauto.
      + intros (? & c0 & [=] & _ & Hv' & Hs & _). subst.
        rewrite Hv in Hv'. injection Hv' as <-. congruence.
    - split; [discriminate|].
      intros (? & c0 & [=] & _ & Hv' & Hs & Hin). subst.
      rewrite Hv in Hv'. injection Hv' as <-.
      rewrite Hf in Hs. injection Hs as <-.
      apply token_found_iff in Hin. destruct Hin as [rt Hrt]. congruence. }
  split; [|split; [exact Hchar|]].
  - unfold validateRefreshToken, catch, findById, findOne, bind, gets, now,
      ret, lift.
    destruct body as [tok|]; simpl; [|reflexivity].
    destruct (String.eqb tok ""); simpl; [reflexivity|].
    destruct (Jwt.verifyRefreshToken (clock (tick w)) tok); simpl;
      [|branches; reflexivity].
    destruct (find _ (users w)) as [u|]; simpl; [|reflexivity].
    destruct (find _ (User.refreshTokens u)); reflexivity.
  - intros tok u c' -> Hok Hv' Hid.
    pose proof Hok as Hok'.
    apply Hchar in Hok'.
    destruct Hok' as (tok0 & c & [=] & Hne & Hv & Hs & Hin). subst tok0.
    assert (Hw : snd (validateRefreshToken (Some tok) w)
                 = after 1 (users w) w).
    { unfold validateRefreshToken, catch, findById, findOne, bind, gets, now,
        ret, lift.
      simpl. apply String.eqb_neq in Hne. rewrite Hne. simpl. rewrite Hv.
      simpl. unfold stored in Hs. rewrite Hs. simpl.
      destruct (find _ (User.refreshTokens u)); reflexivity. }
    rewrite Hw.
    assert (Hs' : stored (after 1 (users w) w) (Jwt.id c') = Some u).
    { rewrite Hid. unfold stored, after. simpl.
      rewrite <- (stored_id w _ u Hs) in Hs. exact Hs. }
    destruct (refresh_stored (after 1 (users w) w) u tok c' Hv' Hs' Hin)
      as (us & Hr & _).
    rewrite Hr. eexists. reflexivity.
Qed.

End RefreshGuardFacts.

(** ** Ending sessions *)

Section LogoutFacts.
Import Db UserModel AuthService AuthMiddleware Spec.
Context {C : Clock} {B : Bcrypt} {J : Jwt.Jsonwebtoken}.

Lemma stored_updated (w : World) (i : nat) (u : User.t)
      (f : User.t -> User.t) :
  stored w i = Some u ->
  (forall d, User._id (f d) = User._id d) ->
  find (hasId i) (map (fun d => if hasId i d then f d else d) (users w))
  = Some (f u).
Proof.
  intros Hs Hid. pose proof (stored_id w i u Hs) as Hi.
  rewrite find_map_preserved.
  - unfold stored in Hs. rewrite Hs. simpl. unfold hasId.
    now rewrite Hi, Nat.eqb_refl.
  - intros d. unfold hasId. destruct (User._id d =? i)%nat eqn:E.
    + now rewrite Hid.
    + exact E.
Qed.

(** X8.  [logout] with a token removes that token from the stored list
    and keeps the others; without a token, or with the empty string, it
    empties the list.  A token that was removed is refused by
    [refreshToken] as invalid, even though the token service still
    verifies it. *)
Theorem logout_revokes (w : World) (userId : nat) (u : User.t) :
  stored w userId = Some u ->
  (forall tok, tok <> ""%string ->
     let w1 := snd (logout userId (Some tok) w) in
     fst (logout userId (Some tok) w) = Ok tt
     /\ (exists u1,
           stored w1 userId = Some u1
           /\ tokensOf u1
              = filter (fun t => negb (String.eqb t tok)) (tokensOf u))
     /\ (forall c,
           Jwt.verifyRefreshToken (clock (tick w1)) tok = Ok c ->
           Jwt.id c = userId ->
           fst (refreshToken tok w1)
           = Throw (Err.AuthError "Invalid refresh token")))
  /\ (forall body, body = None \/ body = Some ""%string ->
        let w1 := snd (logout userId body w) in
        fst (logout userId body w) = Ok tt
        /\ (exists u1, stored w1 userId = Some u1 /\ tokensOf u1 = [])
        /\ (forall tok c,
              Jwt.verifyRefreshToken (clock (tick w1)) tok = Ok c ->
              Jwt.id c = userId ->
              fst (refreshToken tok w1)
              = Throw (Err.AuthError "Invalid refresh token"))).
Proof.
  intros Hs. pose proof (stored_id w userId u Hs) as Hi. split.
  - intros tok Hne w1.
    assert (Hrun : logout userId (Some tok) w
                   = (Ok tt,
                      after 0
                        (map (fun d => if hasId userId d
                                       then User.set_refreshTokens
                                              (filter (fun rt =>
                                                 negb (String.eqb
                                                         (User.token rt) tok))
                                                 (User.refreshTokens u)) d
                                       else d) (users w)) w)).
    { unfold logout, removeRefreshToken, saveRefreshTokens, updateById,
        findById, findOne, bind, gets, modify, ret, throw.
      unfold stored in Hs. rewrite Hs. apply String.eqb_neq in Hne.
      rewrite Hne. simpl. rewrite Hi. destruct w; reflexivity. }
    unfold w1. rewrite Hrun. cbn [fst snd].
    assert (Hs1 : stored (after 0 (map (fun d => if hasId userId d
                                       then User.set_refreshTokens
                                              (filter (fun rt =>
                                                 negb (String.eqb
                                                         (User.token rt) tok))
                                                 (User.refreshTokens u)) d
                                       else d) (users w)) w) userId
                  = Some (User.set_refreshTokens
                            (filter (fun rt =>
                               negb (String.eqb (User.token rt) tok))
                               (User.refreshTokens u)) u)).
    { unfold stored, after. cbn [users].
      apply (stored_updated w userId u); [exact Hs | reflexivity]. }
    split; [reflexivity|]. split.
    + eexists. split; [exact Hs1|]. unfold tokensOf. cbn.
      apply tokens_filtered.
    + intros c Hv Hc.
      erewrite refresh_not_stored;
        [reflexivity | exact Hv | rewrite Hc; exact Hs1 |].
      unfold tokensOf. cbn. rewrite tokens_filtered.
      intros H. apply filter_In in H. destruct H as [_ H].
      now rewrite String.eqb_refl in H.
  - intros body Hbody w1.
    assert (Hrun : logout userId body w
                   = (Ok tt,
                      after 0
                        (map (fun d => if hasId userId d
                                       then User.set_refreshTokens [] d
                                       else d) (users w)) w)).
    { unfold logout, saveRefreshTokens, updateById, findById, findOne, bind,
        gets, modify, ret, throw.
      unfold stored in Hs. rewrite Hs.
      destruct Hbody as [->| ->]; simpl; rewrite Hi; destruct w; reflexivity. }
    unfold w1. rewrite Hrun. cbn [fst snd].
    assert (Hs1 : stored (after 0 (map (fun d => if hasId userId d
                                       then User.set_refreshTokens [] d
                                       else d) (users w)) w) userId
                  = Some (User.set_refreshTokens [] u)).
    { unfold stored, after. cbn [users].
      apply (stored_updated w userId u); [exact Hs | reflexivity]. }
    split; [reflexivity|]. split.
    + eexists. split; [exact Hs1 | reflexivity].
    + intros tok c Hv Hc.
      erewrite refresh_not_stored;
        [reflexivity | exact Hv | rewrite Hc; exact Hs1 |].
      intros [].
Qed.

End LogoutFacts.

(** ** Deactivation *)

Section DeactivateFacts.
Import Db UserModel AuthService AuthMiddleware Spec.
Context {C : Clock} {B : Bcrypt} {J : Jwt.Jsonwebtoken}.

(** X9.  [deactivateAccount] on a stored user returns its message and
    leaves the user inactive with an empty refresh-token list.  From that
    state a login on the account, if it is not locked, is refused as
    deactivated whatever the password and writes nothing, so that no
    attempt is counted; [refreshToken] refuses every token of the user; and
    [authenticate] refuses every access token of the user with 401. *)
Theorem deactivation_closes_account (w : World) (userId : nat) (u : User.t) :
  stored w userId = Some u ->
  let w1 := snd (deactivateAccount userId w) in
  let u1 := User.set_refreshTokens [] (User.set_isActive false u) in
  fst (deactivateAccount userId w) = Ok "Account deactivated successfully"%string
  /\ stored w1 userId = Some u1
  /\ (forall email password ipAddress,
        account w email = Some u ->
        (forall l, User.lockUntil u = Some l -> (l <= clock (tick w1))%Z) ->
        fst (login email password ipAddress w1)
        = Throw (Err.AuthError "Account is deactivated")
        /\ users (snd (login email password ipAddress w1)) = users w1)
  /\ (forall tok c,
        Jwt.verifyRefreshToken (clock (tick w1)) tok = Ok c ->
        Jwt.id c = userId ->
        fst (refreshToken tok w1)
        = Throw (Err.AuthError "Invalid refresh token"))
  /\ (forall authHeader token c,
        Jwt.extractToken authHeader = Ok token ->
        Jwt.verifyAccessToken (clock (tick w1)) token = Ok c ->
        Jwt.id c = userId ->
        fst (authenticate (Some authHeader) w1)
        = Ok (Throw (Err.AppError "Account is deactivated" 401))).
Proof.
  intros Hs w1 u1. pose proof (stored_id w userId u Hs) as Hi.
  assert (Hrun : deactivateAccount userId w
                 = (Ok "Account deactivated successfully"%string,
                    after 0
                      (map (fun d => if hasId userId d
                                     then User.set_refreshTokens []
                                            (User.set_isActive false d)
                                     else d) (users w)) w)
                   /\ stored (after 0
                      (map (fun d => if hasId userId d
                                     then User.set_refreshTokens []
                                            (User.set_isActive false d)
                                     else d) (users w)) w) userId = Some u1).
  { assert (Hf : find (hasId userId)
                   (map (fun d => if hasId userId d
                                  then User.set_refreshTokens []
                                         (User.set_isActive false d)
                                  else d) (users w)) = Some u1)
      by (apply (stored_updated w userId u); [exact Hs | reflexivity]).
    split; [|exact Hf].
    unfold deactivateAccount, findByIdAndUpdate, updateById, findById,
      findOne, bind, gets, modify, ret, throw. simpl.
    rewrite Hf. destruct w; reflexivity. }
  destruct Hrun as [Hrun Hs1].
  unfold w1. rewrite Hrun. cbn [fst snd].
  split; [reflexivity|]. split; [exact Hs1|]. split; [|split].
  - intros email password ipAddress Ha Hlock.
    assert (Ha1 : find (emailFilter (Str.toLowerCase email))
                    (map (fun d => if hasId userId d
                                   then User.set_refreshTokens []
                                          (User.set_isActive false d)
                                   else d) (users w)) = Some u1).
    { rewrite find_map_preserved by keeps_email.
      unfold account in Ha. rewrite Ha. simpl. unfold hasId.
      now rewrite Hi, Nat.eqb_refl. }
    unfold login, findOne, isLocked, bind, gets, now, ret, throw.
    cbn [after users]. rewrite Ha1.
    change (User.lockUntil u1) with (User.lockUntil u).
    destruct (User.lockUntil u) as [l|]; simpl.
    + assert (E : (clock (tick w) <? l)%Z = false)
        by (apply Z.ltb_ge; now apply (Hlock l)).
      rewrite E. simpl. split; reflexivity.
    + split; reflexivity.
  - intros tok c Hv Hc.
    erewrite refresh_not_stored;
      [reflexivity | exact Hv | rewrite Hc; exact Hs1 |].
    intros [].
  - intros authHeader token c Hx Hv Hc.
    unfold authenticate, catch, findById, findOne, bind, gets, now, ret, lift.
    rewrite (extractToken_header _ _ Hx), Hx. simpl. cbn [after tick] in Hv. simpl in Hv. rewrite Hv.
    unfold stored in Hs1. cbn [after users] in Hs1. rewrite Hc, Hs1.
    reflexivity.
Qed.

End DeactivateFacts.

(** ** A password change that fails, and one that succeeds *)

Section ChangeFacts.
Import Db UserModel AuthService Spec.
Context {C : Clock} {B : Bcrypt} {J : Jwt.Jsonwebtoken}.

(** X10.  [changePassword] writes nothing unless it succeeds: whatever
    it throws, the collection is as before.  It throws the [AuthError] of
    an unknown user or of a wrong current password (401), the
    [ValidationError] of an unchanged password (400), and the validation
    error of the document mapper when the new password has fewer than 8
    characters. *)
Theorem changePassword_failure_writes_nothing (w : World) (userId : nat)
        (currentPassword newPassword : string) :
  (forall e,
     fst (changePassword userId currentPassword newPassword w) = Throw e ->
     users (snd (changePassword userId currentPassword newPassword w))
     = users w)
  /\ (stored w userId = None ->
      fst (changePassword userId currentPassword newPassword w)
      = Throw (Err.AuthError "User not found"))
  /\ (forall u, stored w userId = Some u ->
        comparePassword u currentPassword = false ->
        fst (changePassword userId currentPassword newPassword w)
        = Throw (Err.AuthError "Current password is incorrect"))
  /\ (forall u, stored w userId = Some u ->
        comparePassword u currentPassword = true ->
        comparePassword u newPassword = true ->
        fst (changePassword userId currentPassword newPassword w)
        = Throw (Err.ValidationError
                   "New password must be different from current password"))
  /\ (forall u, stored w userId = Some u ->
        comparePassword u currentPassword = true ->
        comparePassword u newPassword = false ->
        (String.length newPassword < 8)%nat ->
        fst (changePassword userId currentPassword newPassword w)
        = Throw (Err.MongooseValidation "User validation failed")).
Proof.
  split; [|split; [|split; [|split]]].
  - unfold changePassword, hashPassword, updateById, findById, findOne,
      bind, gets, modify, now, ret, throw. simpl.
    destruct (find (hasId userId) (users w)) as [u|]; simpl;
      [|reflexivity].
    destruct (comparePassword u currentPassword); simpl; [|reflexivity].
    destruct (comparePassword u newPassword); simpl; [reflexivity|].
    destruct (passwordValid newPassword); simpl; [discriminate | reflexivity].
  - intros Hs.
    unfold changePassword, findById, findOne, bind, gets, throw.
    unfold stored in Hs. now rewrite Hs.
  - intros u Hs Hcur.
    unfold changePassword, findById, findOne, bind, gets, throw.
    unfold stored in Hs. now rewrite Hs, Hcur.
  - intros u Hs Hcur Hnew.
    unfold changePassword, findById, findOne, bind, gets, throw.
    unfold stored in Hs. now rewrite Hs, Hcur, Hnew.
  - intros u Hs Hcur Hnew Hlen.
    unfold changePassword, findById, findOne, bind, gets, now, throw.
    unfold stored in Hs. rewrite Hs, Hcur, Hnew. simpl.
    assert (E : passwordValid newPassword = false)
      by (unfold passwordValid; apply Nat.leb_gt; exact Hlen).
    now rewrite E.
Qed.

(** X11.  After a password change on an active account without a lock
    on record, a login with the old password is refused as invalid
    credentials and a login with the new password succeeds, as far as the
    hash tells the two passwords apart (it accepts the new password
    against its own hash and not the old one). *)
Theorem changed_password_takes_over (w : World) (email : string)
        (currentPassword newPassword ipAddress : string) (u : User.t) :
  account w email = Some u ->
  stored w (User._id u) = Some u ->
  User.isActive u = true -> User.lockUntil u = None ->
  comparePassword u currentPassword = true ->
  comparePassword u newPassword = false ->
  passwordValid newPassword = true ->
  bcrypt_compare newPassword (bcrypt_hash newPassword) = true ->
  bcrypt_compare currentPassword (bcrypt_hash newPassword) = false ->
  let w1 := snd (changePassword (User._id u) currentPassword newPassword w) in
  fst (login email currentPassword ipAddress w1)
  = Throw (Err.AuthError "Invalid email or password")
  /\ exists json tokens,
       fst (login email newPassword ipAddress w1) = Ok (json, tokens).
Proof.
  intros Ha Hs Hact Hl Hcur Hnew Hval Hyes Hno w1.
  destruct (changePassword_done w (User._id u) currentPassword newPassword u
              Hs Hcur Hnew Hval) as (us & Hr & _).
  set (u1 := User.set_refreshTokens []
               (User.set_passwordChangedAt (Some (clock (1 + tick w)))
                  (User.set_password (bcrypt_hash newPassword) u))).
  assert (Ha1 : account w1 email = Some u1).
  { unfold w1, account.
    unfold changePassword, hashPassword, updateById, findById, findOne,
      bind, gets, modify, now, ret, throw.
    unfold stored in Hs. rewrite Hs, Hcur, Hnew. simpl. rewrite Hval. simpl.
    rewrite find_map_preserved by keeps_email.
    unfold account in Ha. rewrite Ha. simpl. unfold hasId.
    now rewrite Nat.eqb_refl. }
  split.
  - now rewrite (login_wrong_password w1 email currentPassword ipAddress u1).
  - assert (Hlock : forall l, User.lockUntil u1 = Some l ->
                              (l <= clock (tick w1))%Z).
    { intros l Hl'. change (User.lockUntil u1) with (User.lockUntil u) in Hl'.
      congruence. }
    rewrite (login_success_run w1 email newPassword ipAddress u1
               Ha1 Hact Hyes Hlock).
    do 2 eexists. reflexivity.
Qed.

End ChangeFacts.

(** ** Unknown accounts *)

Section EnumerationFacts.
Import Db UserModel AuthService Spec.
Context {C : Clock} {B : Bcrypt} {J : Jwt.Jsonwebtoken}.

(** X2.  A login for an address that no account has is refused with the
    same error as a wrong password on an active account that is not
    locked, and writes nothing. *)
Theorem login_hides_unknown_address (w : World)
        (email password ipAddress : string) :
  (account w email = None ->
   login email password ipAddress w
   = (Throw (Err.AuthError "Invalid email or password"), w))
  /\ (forall u,
        account w email = Some u ->
        User.isActive u = true ->
        (forall l, User.lockUntil u = Some l -> (l <= clock (tick w))%Z) ->
        comparePassword u password = false ->
        fst (login email password ipAddress w)
        = Throw (Err.AuthError "Invalid email or password")).
Proof.
  split.
  - intros Ha. unfold login, findOne, bind, gets, throw.
    unfold account in Ha. now rewrite Ha.
  - intros u Ha Hact Hlock Hpw.
    unfold login, findOne, isLocked, bind, gets, now, ret, throw.
    unfold account in Ha. rewrite Ha.
    destruct (User.lockUntil u) as [l|] eqn:Hl; simpl.
    + assert (E : (clock (tick w) <? l)%Z = false)
        by (apply Z.ltb_ge; now apply Hlock).
      rewrite E, Hact, Hpw. simpl.
      match goal with |- context [incLoginAttempts u ?s] =>
        pose proof (incLoginAttempts_returns u s) as Hr;
        destruct (incLoginAttempts u s) as [[[]|e] s'] end;
        [reflexivity | discriminate].
    + rewrite Hact, Hpw. simpl.
      match goal with |- context [incLoginAttempts u ?s] =>
        pose proof (incLoginAttempts_returns u s) as Hr;
        destruct (incLoginAttempts u s) as [[[]|e] s'] end;
        [reflexivity | discriminate].
Qed.

End EnumerationFacts.

(** ** A registration that succeeds *)

Section SignupFacts.
Import Db UserModel AuthService Spec Frame.
Context {C : Clock} {B : Bcrypt} {J : Jwt.Jsonwebtoken}.

Lemma fresh_untouched (w : World) (f : User.t -> User.t) :
  idsFresh w ->
  map (fun d => if hasId (nextId w) d then f d else d) (users w) = users w.
Proof.
  intros Hf. rewrite <- (map_id (users w)) at 2.
  apply map_ext_in. intros d Hd. unfold hasId.
  destruct (Nat.eqb_spec (User._id d) (nextId w)) as [E|E]; [|reflexivity].
  specialize (Hf d Hd). lia.
Qed.

Lemma find_none_existsb (A : Type) (p : A -> bool) (l : list A) :
  find p l = None -> existsb p l = false.
Proof.
  induction l as [|x l IH]; simpl; [reflexivity|].
  destruct (p x); [discriminate | exact IH].
Qed.

(** What a registration leaves: the collection as it was, or with one
    document more, which has the next [_id] and an address that no
    document had. *)
Lemma register_outcome (w : World) (name email password : string) :
  idsFresh w ->
  let w' := snd (register name email password w) in
  (users w' = users w /\ (nextId w <= nextId w')%nat)
  \/ (exists d,
        users w' = users w ++ [d]
        /\ User._id d = nextId w
        /\ nextId w' = S (nextId w)
        /\ User.email d = emailSetter (Str.trim (Str.toLowerCase email))
        /\ existsb (emailIs (User.email d)) (users w) = false).
Proof.
  intros Hfresh.
  unfold register, catch, findByEmail, findOne, newUser, saveNew, hashPassword,
    insert, issueTokens, addRefreshToken, saveRefreshTokens, updateById,
    bind, gets, modify, now, ret, throw.
  simpl.
  destruct (find _ (users w)); simpl; [left; split; [reflexivity | lia]|].
  match goal with |- context [if validate ?u then _ else _] =>
    destruct (validate u) end; simpl; [|left; split; [reflexivity | lia]].
  match goal with |- context [if existsb ?p ?l then _ else _] =>
    destruct (existsb p l) eqn:Ex end; simpl;
    [left; split; [reflexivity | lia]|].
  right. rewrite map_app, (fresh_untouched w) by exact Hfresh. simpl.
  unfold hasId. simpl. rewrite Nat.eqb_refl.
  eexists. split; [reflexivity|]. repeat split. exact Ex.
Qed.

(** X13.  [register], whatever its outcome, keeps the three invariants
    of the collection: every stored [_id] is below the next one to be
    drawn, no two documents have the same [email], and every stored
    [email] is in lower case and trimmed. *)
Theorem register_keeps_invariants (w : World) (name email password : string) :
  idsFresh w -> emailsUnique w -> emailsNormal w ->
  let w' := snd (register name email password w) in
  idsFresh w' /\ emailsUnique w' /\ emailsNormal w'.
Proof.
  intros Hf Hu Hn w'. unfold w'. clear w'.
  destruct (register_outcome w name email password Hf)
    as [[Hsame Hle] | (d & Happ & Hid & Hnext & Hmail & Hnew)].
  - unfold idsFresh, emailsUnique, emailsNormal. rewrite Hsame.
    split; [|split; assumption].
    intros x Hx. specialize (Hf x Hx). lia.
  - unfold idsFresh, emailsUnique, emailsNormal. rewrite Happ, Hnext.
    split; [|split].
    + intros x Hx. apply in_app_or in Hx. destruct Hx as [Hx|[<-|[]]].
      * specialize (Hf x Hx). lia.
      * lia.
    + rewrite map_app. simpl. apply NoDup_app; [exact Hu | | ].
      * repeat constructor. simpl. tauto.
      * intros e He [<-|[]]. apply in_map_iff in He.
        destruct He as (x & Hx & Hin).
        assert (existsb (emailIs (User.email d)) (users w) = true).
        { apply existsb_exists. exists x. split; [exact Hin|].
          unfold emailIs. rewrite Hx. apply String.eqb_refl. }
        congruence.
    + intros x Hx. apply in_app_or in Hx. destruct Hx as [Hx|[<-|[]]].
      * now apply Hn.
      * rewrite Hmail. apply emailSetter_normal.
Qed.

(** The run of a registration with a free address and valid fields. *)
Lemma register_run (w : World) (name email password : string) :
  idsFresh w ->
  account w email = None ->
  Str.trim (Str.toLowerCase email) = Str.toLowerCase email ->
  nameValid (Str.trim name) = true ->
  Str.emailMatch (Str.toLowerCase email) = true ->
  passwordValid password = true ->
  let u0 := User.mk (nextId w) (Str.trim name) (Str.toLowerCase email)
              (bcrypt_hash password) User.user true false [] None 0 None
              (Some (clock (1 + tick w))) in
  let tokens := Jwt.generateTokenPair (clock (2 + tick w)) u0 in
  let u1 := User.set_refreshTokens
              [User.mkToken (Jwt.refreshToken tokens) (clock (3 + tick w))]
              u0 in
  register name email password w
  = (Ok (User.toJSON u1, tokens),
     mkWorld (users w ++ [u1]) (S (nextId w)) (4 + tick w)).
Proof.
  intros Hfresh Ha Htrim Hname Hmail Hpw.
  assert (He : emailSetter (Str.trim (Str.toLowerCase email))
               = Str.toLowerCase email).
  { unfold emailSetter. now rewrite Htrim, toLowerCase_idem, Htrim. }
  unfold register, catch, findByEmail, findOne, newUser, saveNew, hashPassword,
    insert, issueTokens, addRefreshToken, saveRefreshTokens, updateById,
    bind, gets, modify, now, ret, throw.
  unfold account in Ha. simpl. rewrite Ha. simpl.
  unfold validate. simpl. rewrite He, trim_idem, Hname, Hmail, Hpw. simpl.
  assert (Hf : emailFilter (Str.toLowerCase email)
               = emailIs (Str.toLowerCase email)).
  { unfold emailFilter. rewrite emailSetter_lower. unfold emailSetter.
    now rewrite Htrim. }
  rewrite Hf in Ha.
  rewrite (find_none_existsb _ _ _ Ha). simpl.
  rewrite map_app, (fresh_untouched w) by exact Hfresh. simpl.
  unfold hasId. simpl. rewrite Nat.eqb_refl. reflexivity.
Qed.

(** X12.  Registering a free address with a valid name, address and
    password, on a collection whose ids are fresh, returns a token pair
    and adds exactly one document after the others: it has the next
    [_id], the name trimmed, the address in lower case, the hash of the
    password, the role [user], the active flag, no failed attempt, no lock,
    and the issued refresh token as its only one.  A login with the same
    address and password then succeeds, if the hash accepts the password
    it was made from. *)
Theorem register_then_login (w : World) (name email password : string)
        (ipAddress : string) :
  idsFresh w ->
  account w email = None ->
  Str.trim (Str.toLowerCase email) = Str.toLowerCase email ->
  nameValid (Str.trim name) = true ->
  Str.emailMatch (Str.toLowerCase email) = true ->
  passwordValid password = true ->
  bcrypt_compare password (bcrypt_hash password) = true ->
  let w1 := snd (register name email password w) in
  exists json tokens d,
    fst (register name email password w) = Ok (json, tokens)
    /\ users w1 = users w ++ [d]
    /\ nextId w1 = S (nextId w)
    /\ User._id d = nextId w
    /\ User.name d = Str.trim name
    /\ User.email d = Str.toLowerCase email
    /\ User.password d = bcrypt_hash password
    /\ User.role d = User.user
    /\ User.isActive d = true
    /\ User.loginAttempts d = 0%Z
    /\ User.lockUntil d = None
    /\ tokensOf d = [Jwt.refreshToken tokens]
    /\ User.j_email json = Str.toLowerCase email
    /\ exists json' tokens',
         fst (login email password ipAddress w1) = Ok (json', tokens').
Proof.
  intros Hfresh Ha Htrim Hname Hmail Hpw Hhash w1.
  unfold w1.
  rewrite (register_run w name email password
             Hfresh Ha Htrim Hname Hmail Hpw).
  cbv zeta. cbn [fst snd users nextId].
  do 3 eexists. repeat (split; [reflexivity|]).
  set (d' := User.set_refreshTokens _ _).
  set (w2' := mkWorld _ _ _).
  assert (Ha1 : account w2' email = Some d').
  { unfold account, w2'. cbn [users].
    unfold account in Ha.
    assert (Hf : emailFilter (Str.toLowerCase email)
                 = emailIs (Str.toLowerCase email)).
    { unfold emailFilter. rewrite emailSetter_lower. unfold emailSetter.
      now rewrite Htrim. }
    rewrite Hf in *.
    assert (Hfind : forall (l : list User.t),
              find (emailIs (Str.toLowerCase email)) l = None ->
              find (emailIs (Str.toLowerCase email)) (l ++ [d']) = Some d').
    { induction l as [|x l IH]; simpl.
      - intros _. unfold emailIs. cbn. now rewrite String.eqb_refl.
      - destruct (emailIs (Str.toLowerCase email) x); [discriminate|].
        exact IH. }
    now apply Hfind. }
  assert (Hlock : forall l, User.lockUntil d' = Some l ->
                            (l <= clock (tick w2'))%Z)
    by (intros l Hl; discriminate Hl).
  rewrite (login_success_run w2' email password ipAddress d'
             Ha1 eq_refl Hhash Hlock).
  do 2 eexists. reflexivity.
Qed.

End SignupFacts.

(** ** Statistics over completed donations *)

Section StatsMoreFacts.
Import Donation.

Lemma sum_from (l : list Q) (a : Q) :
  (fold_left Qplus l a == a + Agg.sum l)%Q.
Proof.
  unfold Agg.sum. revert a. induction l as [|x l IH]; intros a; simpl.
  - lra.
  - rewrite IH, (IH (0 + x)%Q). lra.
Qed.

Lemma sum_cons (x : Q) (l : list Q) : (Agg.sum (x :: l) == x + Agg.sum l)%Q.
Proof. unfold Agg.sum. simpl. rewrite sum_from. unfold Agg.sum. lra. Qed.

Lemma count_succ (n : nat) :
  (inject_Z (Z.of_nat (S n)) == inject_Z (Z.of_nat n) + 1)%Q.
Proof. rewrite Nat2Z.inj_succ. unfold Z.succ. now rewrite inject_Z_plus. Qed.

(** A sum lies between the count times a lower and an upper bound. *)
Lemma sum_bounds (lo hi : Q) (l : list Q) :
  (forall x, In x l -> (lo <= x <= hi)%Q) ->
  (inject_Z (Z.of_nat (List.length l)) * lo <= Agg.sum l
   <= inject_Z (Z.of_nat (List.length l)) * hi)%Q.
Proof.
  induction l as [|x l IH]; intros H.
  - unfold Agg.sum. simpl. change (inject_Z 0) with 0%Q. split; lra.
  - assert (Hx : (lo <= x <= hi)%Q) by (apply H; now left).
    assert (Hl : forall y, In y l -> (lo <= y <= hi)%Q)
      by (intros y Hy; apply H; now right).
    specialize (IH Hl). cbn [List.length].
    rewrite sum_cons, count_succ. split; lra.
Qed.

Lemma qmax_cases (a b : Q) :
  (Agg.qmax a b = a /\ (b <= a)%Q) \/ (Agg.qmax a b = b /\ (a <= b)%Q).
Proof.
  unfold Agg.qmax. destruct (Qle_bool a b) eqn:E.
  - right. split; [reflexivity | now apply Qle_bool_iff].
  - left. split; [reflexivity|]. apply Qlt_le_weak, Qnot_le_lt.
    intro H. apply Qle_bool_iff in H. congruence.
Qed.

Lemma qmin_cases (a b : Q) :
  (Agg.qmin a b = a /\ (a <= b)%Q) \/ (Agg.qmin a b = b /\ (b <= a)%Q).
Proof.
  unfold Agg.qmin. destruct (Qle_bool a b) eqn:E.
  - left. split; [reflexivity | now apply Qle_bool_iff].
  - right. split; [reflexivity|]. apply Qlt_le_weak, Qnot_le_lt.
    intro H. apply Qle_bool_iff in H. congruence.
Qed.

(** [$max] returns one of the values, and none is greater. *)
Lemma maxQ_greatest (x : Q) (l : list Q) :
  In (Agg.maxQ x l) (x :: l)
  /\ forall y, In y (x :: l) -> (y <= Agg.maxQ x l)%Q.
Proof.
  unfold Agg.maxQ. revert x. induction l as [|z l IH]; intros x; simpl.
  - split; [now left|]. intros y [<-|[]]. apply Qle_refl.
  - destruct (IH (Agg.qmax x z)) as [Hin Hle]. split.
    + destruct Hin as [Hin|Hin]; [|now right; right].
      rewrite <- Hin.
      destruct (qmax_cases x z) as [[-> _]|[-> _]]; simpl; auto.
    + assert (Hm := Hle (Agg.qmax x z) (or_introl eq_refl)).
      intros y [<-|[<-|Hy]].
      * apply Qle_trans with (Agg.qmax x z); [|exact Hm].
        destruct (qmax_cases x z) as [[E _]|[E H]]; rewrite E;
          [apply Qle_refl | exact H].
      * apply Qle_trans with (Agg.qmax x z); [|exact Hm].
        destruct (qmax_cases x z) as [[E H]|[E _]]; rewrite E;
          [exact H | apply Qle_refl].
      * apply Hle. now right.
Qed.

(** [$min] returns one of the values, and none is smaller. *)
Lemma minQ_least (x : Q) (l : list Q) :
  In (Agg.minQ x l) (x :: l)
  /\ forall y, In y (x :: l) -> (Agg.minQ x l <= y)%Q.
Proof.
  unfold Agg.minQ. revert x. induction l as [|z l IH]; intros x; simpl.
  - split; [now left|]. intros y [<-|[]]. apply Qle_refl.
  - destruct (IH (Agg.qmin x z)) as [Hin Hle]. split.
    + destruct Hin as [Hin|Hin]; [|now right; right].
      rewrite <- Hin.
      destruct (qmin_cases x z) as [[-> _]|[-> _]]; simpl; auto.
    + assert (Hm := Hle (Agg.qmin x z) (or_introl eq_refl)).
      intros y [<-|[<-|Hy]].
      * apply Qle_trans with (Agg.qmin x z); [exact Hm|].
        destruct (qmin_cases x z) as [[E _]|[E H]]; rewrite E;
          [apply Qle_refl | exact H].
      * apply Qle_trans with (Agg.qmin x z); [exact Hm|].
        destruct (qmin_cases x z) as [[E H]|[E _]]; rewrite E;
          [exact H | apply Qle_refl].
      * apply Hle. now right.
Qed.

Lemma avg_between (lo hi : Q) (l : list Q) :
  l <> [] ->
  (forall x, In x l -> (lo <= x <= hi)%Q) ->
  (lo <= Agg.avg l <= hi)%Q.
Proof.
  intros Hne H. destruct (sum_bounds lo hi l H) as [H1 H2].
  assert (Hpos : (0 < inject_Z (Z.of_nat (List.length l)))%Q).
  { destruct l as [|x l]; [congruence|].
    rewrite <- (Zlt_Qlt 0). simpl. lia. }
  unfold Agg.avg. split.
  - apply Qle_shift_div_l; [exact Hpos|]. lra.
  - apply Qle_shift_div_r; [exact Hpos|]. lra.
Qed.

(** X14.  When the collection holds a completed donation, the count of
    the statistics is the number of completed donations, and the maximum
    and the minimum are amounts of two of them, with no completed amount
    above the one or below the other.  The sum and the average are left
    out: the server adds in floating point, which the rationals of the
    model do not follow. *)
Theorem stats_of_completed (store : list t) :
  let amounts := map amount (filter matchCompleted store) in
  amounts <> [] ->
  let s := getStats store in
  totalDonations s = List.length amounts
  /\ In (maxAmount s) amounts
  /\ In (minAmount s) amounts
  /\ (forall a, In a amounts -> (minAmount s <= a <= maxAmount s)%Q).
Proof.
  intros amounts Hne s. unfold s, getStats, groupAll. fold amounts.
  destruct amounts as [|a l] eqn:E; [congruence|].
  cbn [totalAmount totalDonations averageAmount maxAmount minAmount].
  destruct (maxQ_greatest a l) as [Hmax Hmaxle].
  destruct (minQ_least a l) as [Hmin Hminle].
  split; [reflexivity|].
  split; [exact Hmax|]. split; [exact Hmin|].
  intros x Hx. split; [now apply Hminle | now apply Hmaxle].
Qed.

End StatsMoreFacts.

(** ** Rating statistics within the bounds of the schema *)

Section RatingMoreFacts.
Import Testimonial.

(** Rounding to an integer does not leave an interval of integers. *)
Lemma roundHalfEven_between (lo hi : Z) (q : Q) :
  (inject_Z lo <= q <= inject_Z hi)%Q ->
  (lo <= Agg.roundHalfEven q <= hi)%Z.
Proof.
  intros [Hlo Hhi].
  assert (Hfl : (lo <= Qfloor q)%Z).
  { rewrite <- (Qfloor_Z lo). now apply Qfloor_resp_le. }
  assert (Hfh : (Qfloor q <= hi)%Z).
  { rewrite <- (Qfloor_Z hi). now apply Qfloor_resp_le. }
  pose proof (Qfloor_le q) as Hq.
  unfold Agg.roundHalfEven.
  assert (Hup : ((1 # 2) <= q - inject_Z (Qfloor q))%Q ->
                (Qfloor q + 1 <= hi)%Z).
  { intros H. assert (Hlt : (inject_Z (Qfloor q) < inject_Z hi)%Q) by lra.
    rewrite <- Zlt_Qlt in Hlt. lia. }
  destruct (Qcompare (q - inject_Z (Qfloor q)) (1 # 2)) eqn:E.
  - apply Qeq_alt in E. destruct (Z.even (Qfloor q)); [lia|].
    split; [lia|]. apply Hup. lra.
  - lia.
  - apply Qgt_alt in E. split; [lia|]. apply Hup. lra.
Qed.

Lemma round2_between (lo hi : Z) (q : Q) :
  (inject_Z lo <= q <= inject_Z hi)%Q ->
  (inject_Z lo <= Agg.round2 q <= inject_Z hi)%Q.
Proof.
  intros [Hlo Hhi].
  assert (H : (lo * 100 <= Agg.roundHalfEven (q * 100) <= hi * 100)%Z).
  { apply roundHalfEven_between. rewrite !inject_Z_mult.
    change (inject_Z 100) with 100%Q. split; lra. }
  unfold Agg.round2, Qle, inject_Z. simpl. lia.
Qed.

(** When every rating is a star from 1 to 5, each is counted once. *)
Lemma stars_partition (l : list Z) :
  (forall x, In x l -> (1 <= x <= 5)%Z) ->
  (sizeEq 5 l + sizeEq 4 l + sizeEq 3 l + sizeEq 2 l + sizeEq 1 l
   = List.length l)%nat.
Proof.
  unfold sizeEq. induction l as [|x l IH]; intros H; [reflexivity|].
  assert (Hx : (1 <= x <= 5)%Z) by (apply H; now left).
  assert (Hl : forall y, In y l -> (1 <= y <= 5)%Z)
    by (intros y Hy; apply H; now right).
  specialize (IH Hl). cbn [filter List.length].
  assert (Hc : x = 1%Z \/ x = 2%Z \/ x = 3%Z \/ x = 4%Z \/ x = 5%Z) by lia.
  destruct Hc as [->|[->|[->|[->| ->]]]]; simpl; lia.
Qed.

(** X15.  When the ratings of the approved and visible testimonials are
    stars from 1 to 5, as the schema requires, the five per-star counts add
    up to the number of reviews, and the rounded average, if there is a
    review, lies between 1 and 5. *)
Theorem ratingStats_within_bounds (store : list t) :
  (forall x, In x store -> isApproved x = true -> isVisible x = true ->
             (1 <= rating x <= 5)%Z) ->
  let r := getRatingStats store in
  (stars5 (ratingCounts r) + stars4 (ratingCounts r) + stars3 (ratingCounts r)
   + stars2 (ratingCounts r) + stars1 (ratingCounts r)
   = totalReviews r)%nat
  /\ (totalReviews r <> 0%nat -> (1 <= averageRating r <= 5)%Q).
Proof.
  intros H r. unfold r. rewrite getRatingStats_unfold.
  assert (Hr : forall z, In z (Spec.publicRatings store) -> (1 <= z <= 5)%Z).
  { intros z Hz. unfold Spec.publicRatings in Hz.
    apply in_map_iff in Hz. destruct Hz as (x & <- & Hx).
    apply filter_In in Hx. destruct Hx as [Hx Hp].
    apply andb_true_iff in Hp. destruct Hp as [Ha Hv]. now apply H. }
  destruct (Spec.publicRatings store) as [|z l] eqn:E.
  - split; [reflexivity|]. simpl. congruence.
  - cbn [totalReviews averageRating ratingCounts stars5 stars4 stars3 stars2
           stars1].
    split; [now apply stars_partition|].
    intros _. apply (round2_between 1 5).
    apply avg_between.
    + discriminate.
    + intros q Hq. apply in_map_iff in Hq. destruct Hq as (y & <- & Hy).
      specialize (Hr y Hy). rewrite <- !Zle_Qle. exact Hr.
Qed.

End RatingMoreFacts.

(** ** Moderation of testimonials *)

Section ModerationFacts.
Import Testimonial TestimonialService Moderation.

Lemma find_id_map (i : nat) (f : Testimonial.t -> Testimonial.t) (s : Store) :
  (forall d, _id (f d) = _id d) ->
  find (hasId i) (map (fun x => if hasId i x then f x else x) s) =
  option_map f (find (hasId i) s).
Proof.
  intros Hf. induction s as [|x s IH]; simpl; [reflexivity|].
  destruct (hasId i x) eqn:E.
  - unfold hasId in *. rewrite Hf, E. reflexivity.
  - rewrite E. exact IH.
Qed.

Lemma update_missing (i : nat) (f : Testimonial.t -> Testimonial.t)
      (s : Store) :
  find (hasId i) s = None ->
  map (fun x => if hasId i x then f x else x) s = s.
Proof.
  induction s as [|x s IH]; simpl; [reflexivity|].
  destruct (hasId i x); [discriminate|]. intros H. now rewrite IH.
Qed.

Lemma removeFirst_missing (i : nat) (s : Store) :
  find (hasId i) s = None -> removeFirst i s = s.
Proof.
  induction s as [|x s IH]; simpl; [reflexivity|].
  destruct (hasId i x); [discriminate|]. intros H. now rewrite IH.
Qed.

(** What each operation leaves in the store, whether it returns or
    throws. *)
Lemma approve_writes (i m : nat) (notes : option string) (s : Store) :
  snd (approveTestimonial i m notes s) = s
  \/ snd (approveTestimonial i m notes s) =
     map (fun x => if hasId i x then set_isApproved true x else x) s.
Proof.
  unfold approveTestimonial.
  match goal with |- context [if notesValid ?v then _ else _] =>
    destruct (notesValid v) end; [right | now left].
  unfold findByIdAndUpdate, bind, modify, gets, ret, throw.
  simpl. destruct (find _ _); reflexivity.
Qed.

Lemma reject_writes (i m : nat) (reason : option string) (s : Store) :
  notesValid reason = true ->
  snd (rejectTestimonial i m reason s) =
  map (fun x => if hasId i x
                then set_isVisible false (set_isApproved false x) else x) s.
Proof.
  intros Hv.
  unfold rejectTestimonial, findByIdAndUpdate, bind, modify, gets, ret, throw.
  rewrite Hv. simpl. destruct (find _ _); reflexivity.
Qed.

Lemma feature_writes (i : nat) (b : bool) (s : Store) :
  snd (featureTestimonial i b s) =
  map (fun x => if hasId i x then set_isFeatured b x else x) s.
Proof.
  unfold featureTestimonial, findByIdAndUpdate, bind, modify, gets, ret, throw.
  simpl. destruct (find _ _) as [z|]; [|reflexivity].
  destruct (b && negb (isApproved z)); reflexivity.
Qed.

Lemma toggle_writes (i : nat) (b : bool) (s : Store) :
  snd (toggleVisibility i b s) =
  map (fun x => if hasId i x then set_isVisible b x else x) s.
Proof.
  unfold toggleVisibility, findByIdAndUpdate, bind, modify, gets, ret, throw.
  simpl. destruct (find _ _); reflexivity.
Qed.

Lemma delete_writes (i : nat) (s : Store) :
  snd (deleteTestimonial i s) = removeFirst i s.
Proof.
  unfold deleteTestimonial, bind, modify, gets, ret, throw.
  simpl. destruct (find _ _); reflexivity.
Qed.

Lemma removeFirst_incl (i : nat) (s : Store) (x : Testimonial.t) :
  In x (removeFirst i s) -> In x s.
Proof.
  induction s as [|z s IH]; simpl; [tauto|].
  destruct (hasId i z); simpl; tauto.
Qed.

(** Under the unique index on [_id], one document at most has a given
    [_id]. *)
Lemma unique_by_id (s : Store) (x y : Testimonial.t) :
  NoDup (map _id s) -> In x s -> In y s -> _id x = _id y -> x = y.
Proof.
  induction s as [|z s IH]; simpl; [tauto|].
  intros Hnd Hx Hy E. inversion Hnd as [|? ? Hz Hnd']; subst.
  destruct Hx as [->|Hx], Hy as [->|Hy].
  - reflexivity.
  - exfalso. apply Hz. rewrite E. now apply in_map.
  - exfalso. apply Hz. rewrite <- E. now apply in_map.
  - now apply IH.
Qed.

Lemma removeFirst_unique (i : nat) (s : Store) :
  NoDup (map _id s) ->
  removeFirst i s = filter (fun x => negb (hasId i x)) s.
Proof.
  induction s as [|z s IH]; simpl; [reflexivity|].
  intros Hnd. inversion Hnd as [|? ? Hz Hnd']; subst.
  destruct (hasId i z) eqn:E; simpl.
  - symmetry. apply forallb_filter_id. apply forallb_forall.
    intros y Hy. unfold hasId in *. apply Nat.eqb_eq in E.
    destruct (Nat.eqb (_id y) i) eqn:E'; [|reflexivity].
    apply Nat.eqb_eq in E'. exfalso. apply Hz. rewrite E, <- E'.
    now apply in_map.
  - now rewrite IH.
Qed.

(** X16.  An operation of the moderation on an id that no stored
    testimonial has leaves the store as it was.  It throws the not-found
    error, which is answered with status 404 in development and in
    production; only [approveTestimonial] and [rejectTestimonial] with
    notes or a reason of more than 500 characters throw the validation
    error of the update instead.  Because the constructor of the not-found
    error appends its suffix to the text it is given, the message is the
    text with the suffix twice. *)
Theorem moderation_unknown_id (s : Store) (i m : nat) (b : bool)
        (notes : option string) :
  find (hasId i) s = None ->
  let e := Err.NotFoundError "Testimonial not found" in
  let refused := Err.MongooseValidation "Validation failed" in
  approveTestimonial i m notes s
  = (Throw (if notesValid notes then e else refused), s)
  /\ rejectTestimonial i m notes s
     = (Throw (if notesValid notes then e else refused), s)
  /\ featureTestimonial i b s = (Throw e, s)
  /\ toggleVisibility i b s = (Throw e, s)
  /\ deleteTestimonial i s = (Throw e, s)
  /\ Err.message e = "Testimonial not found not found"%string
  /\ forall development, Err.globalErrorHandler development e = 404%Z.
Proof.
  intros H e refused.
  assert (Hup : forall (f : Testimonial.t -> Testimonial.t) (A : Type)
                       (k : Testimonial.t -> M Store A),
             bind (findByIdAndUpdate i f)
                  (fun found => match found with
                                | None => throw e
                                | Some x => k x
                                end) s
             = (Throw e, s)).
  { intros f A k. unfold findByIdAndUpdate, bind, modify, gets, throw. simpl.
    rewrite update_missing by exact H. now rewrite H. }
  split; [|split; [|split; [|split; [|split; [|split]]]]].
  - unfold approveTestimonial.
    assert (Hn : notesValid
                   (match notes with
                    | Some v => if String.eqb v "" then None else Some v
                    | None => None
                    end) = notesValid notes).
    { destruct notes as [v|]; [|reflexivity].
      destruct (String.eqb_spec v "") as [->|]; reflexivity. }
    rewrite Hn. destruct (notesValid notes); [apply Hup | reflexivity].
  - unfold rejectTestimonial.
    destruct (notesValid notes); [apply Hup | reflexivity].
  - unfold featureTestimonial. apply Hup.
  - unfold toggleVisibility. apply Hup.
  - unfold deleteTestimonial, bind, modify, gets, throw. simpl.
    rewrite removeFirst_missing by exact H. now rewrite H.
  - reflexivity.
  - intros []; reflexivity.
Qed.

(** X17.  Rejecting a testimonial that is featured, for a reason that
    the validator of the notes accepts, succeeds and leaves it featured
    but not approved: after the call the store no longer satisfies that
    what is featured is approved.  For a longer reason the call throws the
    validation error and writes nothing. *)
Theorem reject_leaves_featured (s : Store) (i m : nat)
        (reason : option string) (x : Testimonial.t) :
  In x s -> hasId i x = true -> isFeatured x = true ->
  (notesValid reason = true ->
   (exists y, fst (rejectTestimonial i m reason s) = Ok y
              /\ isApproved y = false /\ isVisible y = false)
   /\ ~ featuredApproved (snd (rejectTestimonial i m reason s)))
  /\ (notesValid reason = false ->
      rejectTestimonial i m reason s
      = (Throw (Err.MongooseValidation "Validation failed"), s)).
Proof.
  intros Hx Hi Hf. split; intros Hv.
  - split.
    + unfold rejectTestimonial, findByIdAndUpdate, bind, modify, gets, ret,
        throw. rewrite Hv. simpl. rewrite find_id_map by reflexivity.
      destruct (find (hasId i) s) as [z|] eqn:E.
      * simpl. eexists. split; [reflexivity|]. split; reflexivity.
      * exfalso. apply (find_none _ _ E) in Hx. congruence.
    + intros H. rewrite reject_writes in H by exact Hv.
      specialize (H (set_isVisible false (set_isApproved false x))).
      assert (Hin : In (set_isVisible false (set_isApproved false x))
                       (map (fun x0 => if hasId i x0
                                       then set_isVisible false
                                              (set_isApproved false x0)
                                       else x0) s)).
      { apply in_map_iff. exists x. rewrite Hi.
        split; [reflexivity | exact Hx]. }
      specialize (H Hin Hf). discriminate H.
  - unfold rejectTestimonial. rewrite Hv. reflexivity.
Qed.

(** X18.  With unique ids, every other operation of the moderation keeps
    the invariant that what is featured is approved: approving, taking the
    feature flag away, showing or hiding, deleting, and every call of
    [featureTestimonial] that returns. *)
Theorem moderation_keeps_invariant (s : Store) (i : nat) (b : bool) :
  NoDup (map _id s) -> featuredApproved s ->
  (forall moderatorId notes,
     featuredApproved (snd (approveTestimonial i moderatorId notes s)))
  /\ featuredApproved (snd (featureTestimonial i false s))
  /\ featuredApproved (snd (toggleVisibility i b s))
  /\ featuredApproved (snd (deleteTestimonial i s))
  /\ (forall y, fst (featureTestimonial i true s) = Ok y ->
                featuredApproved (snd (featureTestimonial i true s))).
Proof.
  intros Hnd H. split; [|split; [|split; [|split]]].
  - intros moderatorId notes. now apply approve_keeps_invariant.
  - now apply unfeature_keeps_invariant.
  - rewrite toggle_writes. intros y Hy Hf.
    apply in_updated in Hy. destruct Hy as (x & Hx & ->).
    destruct (hasId i x); [simpl in *|]; now apply H.
  - rewrite delete_writes. intros y Hy Hf.
    apply removeFirst_incl in Hy. now apply H.
  - intros y Hy. apply feature_approved_keeps_invariant; [exact H|].
    intros x Hx Hi.
    revert Hy. unfold featureTestimonial, findByIdAndUpdate, bind, modify,
      gets, ret, throw. simpl. rewrite find_id_map by reflexivity.
    destruct (find (hasId i) s) as [z|] eqn:E; simpl; [|discriminate].
    destruct (isApproved z) eqn:Ez; simpl; [|discriminate]. intros _.
    apply find_some in E. destruct E as [Hz Hzi].
    assert (x = z) as ->; [|exact Ez].
    apply (unique_by_id s); auto. unfold hasId in *.
    apply Nat.eqb_eq in Hi, Hzi. congruence.
Qed.

Lemma publicRatings_rejected (i : nat) (s : Store) :
  Spec.publicRatings
    (map (fun x => if hasId i x
                   then set_isVisible false (set_isApproved false x) else x) s)
  = Spec.publicRatings (filter (fun x => negb (hasId i x)) s).
Proof.
  unfold Spec.publicRatings. induction s as [|x s IH]; simpl; [reflexivity|].
  destruct (hasId i x); simpl.
  - exact IH.
  - destruct (isApproved x && isVisible x); simpl; now rewrite IH.
Qed.

Lemma publicRatings_reapproved (i : nat) (s : Store) :
  Spec.publicRatings
    (map (fun x => if hasId i x then set_isApproved true x else x)
       (map (fun x => if hasId i x
                      then set_isVisible false (set_isApproved false x)
                      else x) s))
  = Spec.publicRatings
      (map (fun x => if hasId i x
                     then set_isVisible false (set_isApproved false x)
                     else x) s).
Proof.
  unfold Spec.publicRatings. induction s as [|x s IH]; simpl; [reflexivity|].
  destruct (hasId i x) eqn:E; simpl.
  - replace (hasId i (set_isVisible false (set_isApproved false x)))
      with true by (symmetry; exact E).
    simpl. exact IH.
  - rewrite E. destruct (isApproved x && isVisible x); simpl; now rewrite IH.
Qed.

Lemma stats_by_ratings (s s' : Store) :
  Spec.publicRatings s = Spec.publicRatings s' ->
  getRatingStats s = getRatingStats s'.
Proof.
  intros H. rewrite !getRatingStats_unfold, H. reflexivity.
Qed.

(** X19.  After a rejection for a reason that the validator of the
    notes accepts, the rating statistics are those of the store without the
    rejected testimonial; approving it afterwards does not change them,
    whatever the notes, because it stays hidden; once it has been approved
    and made visible it counts again.  No step changes a rating.  A
    rejection for a longer reason changes nothing. *)
Theorem rejected_not_counted (s : Store) (i m : nat)
        (reason notes : option string) :
  (notesValid reason = true ->
   let s1 := snd (rejectTestimonial i m reason s) in
   let s2 := snd (approveTestimonial i m notes s1) in
   let s3 := snd (toggleVisibility i true s2) in
   getRatingStats s1 = getRatingStats (filter (fun x => negb (hasId i x)) s)
   /\ getRatingStats s2 = getRatingStats s1
   /\ (fst (approveTestimonial i m notes s1)
       <> Throw (Err.MongooseValidation "Validation failed") ->
       forall x, In x s3 -> hasId i x = true -> matchPublic x = true)
   /\ map rating s3 = map rating s)
  /\ (notesValid reason = false ->
      snd (rejectTestimonial i m reason s) = s).
Proof.
  split; [|intros Hv; unfold rejectTestimonial; now rewrite Hv].
  intros Hv s1 s2 s3. unfold s3, s2, s1.
  rewrite toggle_writes, reject_writes by exact Hv.
  set (r := map (fun x => if hasId i x
                          then set_isVisible false (set_isApproved false x)
                          else x) s).
  assert (Hr : forall x, In x r -> hasId i x = true -> isVisible x = false).
  { intros x Hx Hi. apply in_updated in Hx. destruct Hx as (z & Hz & ->).
    destruct (hasId i z) eqn:Ez; [reflexivity | congruence]. }
  assert (Hrat : map rating r = map rating s).
  { unfold r. rewrite map_map. apply map_ext. intros x.
    destruct (hasId i x); reflexivity. }
  assert (Hid : forall (f : Testimonial.t -> Testimonial.t) (l : Store),
             (forall x, rating (f x) = rating x) ->
             map rating (map (fun x => if hasId i x then f x else x) l)
             = map rating l).
  { intros f l Hf. rewrite map_map. apply map_ext. intros x.
    destruct (hasId i x); [apply Hf | reflexivity]. }
  split; [apply stats_by_ratings, publicRatings_rejected|].
  assert (Hcase : fst (approveTestimonial i m notes r)
                  = Throw (Err.MongooseValidation "Validation failed")
                  /\ snd (approveTestimonial i m notes r) = r
                  \/ fst (approveTestimonial i m notes r)
                     <> Throw (Err.MongooseValidation "Validation failed")
                     /\ snd (approveTestimonial i m notes r)
                        = map (fun x => if hasId i x
                                        then set_isApproved true x else x) r).
  { unfold approveTestimonial.
    match goal with |- context [if notesValid ?v then _ else _] =>
      destruct (notesValid v) end; [right | left; split; reflexivity].
    unfold findByIdAndUpdate, bind, modify, gets, ret, throw. simpl.
    destruct (find _ _); simpl; split; try reflexivity; discriminate. }
  destruct Hcase as [[Hf Hs]|[Hf Hs]]; rewrite Hs.
  - split; [reflexivity|]. split; [intros H; now elim H|].
    rewrite Hid by reflexivity. exact Hrat.
  - split; [apply stats_by_ratings, publicRatings_reapproved|].
    split.
    + intros _ x Hx Hi.
      apply in_updated in Hx. destruct Hx as (y & Hy & ->).
      destruct (hasId i y) eqn:Ey; [|congruence].
      apply in_updated in Hy. destruct Hy as (z & Hz & ->).
      destruct (hasId i z) eqn:Ez; [reflexivity | congruence].
    + rewrite !Hid by reflexivity. exact Hrat.
Qed.

(** X20.  With unique ids, deleting a stored testimonial returns the
    confirmation and leaves exactly the other testimonials, in their order;
    the rating statistics are then those without it, and deleting it a
    second time throws the not-found error. *)
Theorem delete_removes (s : Store) (i : nat) (x : Testimonial.t) :
  NoDup (map _id s) -> In x s -> hasId i x = true ->
  let s' := snd (deleteTestimonial i s) in
  fst (deleteTestimonial i s) = Ok "Testimonial deleted successfully"%string
  /\ s' = filter (fun y => negb (hasId i y)) s
  /\ (forall y, In y s' <-> In y s /\ y <> x)
  /\ fst (deleteTestimonial i s') =
     Throw (Err.NotFoundError "Testimonial not found").
Proof.
  intros Hnd Hx Hi s'. unfold s'. rewrite delete_writes.
  rewrite removeFirst_unique by exact Hnd.
  assert (Hnone : find (hasId i) (filter (fun y => negb (hasId i y)) s) = None).
  { destruct (find _ _) as [z|] eqn:E; [|reflexivity].
    apply find_some in E. destruct E as [Hz Hzi].
    apply filter_In in Hz. destruct Hz as [_ Hz]. rewrite Hzi in Hz.
    discriminate. }
  split; [|split; [|split]].
  - unfold deleteTestimonial, bind, modify, gets, ret, throw. simpl.
    destruct (find (hasId i) s) as [z|] eqn:E; [reflexivity|].
    apply (find_none _ _ E) in Hx. congruence.
  - reflexivity.
  - intros y. rewrite filter_In. split.
    + intros [Hy Hn]. split; [exact Hy|]. intros ->. rewrite Hi in Hn.
      discriminate.
    + intros [Hy Hne]. split; [exact Hy|].
      destruct (hasId i y) eqn:E; [|reflexivity].
      exfalso. apply Hne. apply (unique_by_id s); auto.
      unfold hasId in *. apply Nat.eqb_eq in Hi, E. congruence.
  - unfold deleteTestimonial, bind, modify, gets, ret, throw. simpl.
    rewrite Hnone. reflexivity.
Qed.

End ModerationFacts.

(** ** What the client is told of an error *)

Section ReplyFacts.

(** X21.  Of a validation error raised by the services the client of a
    production server learns the status 400 and the fixed text of the
    handler for validation errors, not the message; a development server
    sends the message.  The errors of the other classes of the application
    reach the client with their status and message in both modes, and the
    status of every reply is the one [globalErrorHandler] computes. *)
Theorem production_replaces_validation_message (m : string) :
  ErrReply.reply false (Err.ValidationError m)
  = (400%Z, "Invalid input data"%string)
  /\ ErrReply.reply true (Err.ValidationError m) = (400%Z, m)
  /\ (forall development,
        ErrReply.reply development (Err.AuthError m) = (401%Z, m)
        /\ ErrReply.reply development (Err.AuthorizationError m) = (403%Z, m)
        /\ ErrReply.reply development (Err.ConflictError m) = (409%Z, m)
        /\ ErrReply.reply development (Err.NotFoundError m)
           = (404%Z, (m ++ " not found")%string))
  /\ (forall development e,
        fst (ErrReply.reply development e)
        = Err.globalErrorHandler development e).
Proof.
  split; [reflexivity|]. split; [reflexivity|]. split.
  - intros []; repeat split.
  - intros [] e; unfold ErrReply.reply, Err.globalErrorHandler; simpl.
    + unfold Err.statusOr500. simpl.
      destruct (Err.statusCode e) as [c|]; simpl; [|reflexivity].
      destruct (Z.eqb c 0) eqn:E; simpl; [reflexivity|]. now rewrite E.
    + match goal with
      | |- fst (if ?b then _ else _) = _ => destruct b; reflexivity
      end.
Qed.

End ReplyFacts.

(** ** The donations of one donor, page by page *)

Section DonorPageFacts.
Import Donation DonationService.

Lemma skipn_sorted (A : Type) (R : A -> A -> Prop) (n : nat) (l : list A) :
  StronglySorted R l -> StronglySorted R (skipn n l).
Proof.
  intros H. revert n. induction H as [|x l Hl IH Hx]; intros [|n]; simpl;
    try constructor; auto.
Qed.

Lemma sorted_map (A B : Type) (R : A -> A -> Prop) (R' : B -> B -> Prop)
      (f : A -> B) (l : list A) :
  (forall a b, R a b -> R' (f a) (f b)) ->
  StronglySorted R l -> StronglySorted R' (map f l).
Proof.
  intros Hf H. induction H as [|x l Hl IH Hx]; simpl; constructor; auto.
  rewrite Forall_forall in *. intros y Hy.
  apply in_map_iff in Hy. destruct Hy as (z & <- & Hz). auto.
Qed.

Lemma skipn_incl (A : Type) (n : nat) (l : list A) (x : A) :
  In x (skipn n l) -> In x l.
Proof.
  revert n. induction l as [|z l IH]; intros [|n]; simpl; try tauto.
  intros H. right. eauto.
Qed.

Lemma fold_min_bounds (ts : list Z) (t : Z) :
  (fold_left Z.min ts t <= t)%Z
  /\ forall x, In x ts -> (fold_left Z.min ts t <= x)%Z.
Proof.
  revert t. induction ts as [|y ts IH]; intros t; simpl.
  - split; [lia | tauto].
  - destruct (IH (Z.min t y)) as [H1 H2]. split; [lia|].
    intros x [<-|Hx]; [lia | auto].
Qed.

Lemma fold_max_bounds (ts : list Z) (t : Z) :
  (t <= fold_left Z.max ts t)%Z
  /\ forall x, In x ts -> (x <= fold_left Z.max ts t)%Z.
Proof.
  revert t. induction ts as [|y ts IH]; intros t; simpl.
  - split; [lia | tauto].
  - destruct (IH (Z.max t y)) as [H1 H2]. split; [lia|].
    intros x [<-|Hx]; [lia | auto].
Qed.

Lemma toJSON_createdAt (d : Donation.t) :
  j_createdAt (toJSON d) = createdAt d.
Proof. unfold toJSON. destruct (isAnonymous d); reflexivity. Qed.

Lemma page_length (email : string) (page limit : positive)
      (store : list Donation.t) :
  Z.of_nat (List.length (fst (fst (getDonationsByEmail email page limit store))))
  = Z.max 0 (Z.min (Z.pos limit)
               (Z.of_nat (List.length (filter (query email) store))
                - (Z.pos page - 1) * Z.pos limit)).
Proof.
  unfold getDonationsByEmail. cbn [fst snd].
  rewrite length_map, length_firstn, length_skipn.
  unfold newestFirst.
  rewrite (Permutation_length (sortDesc_perm _ _ _)).
  assert (Hk : (0 <= (Z.pos page - 1) * Z.pos limit)%Z) by nia.
  lia.
Qed.

Lemma query_matchStage (email : string) :
  Str.trim (Str.toLowerCase email) = Str.toLowerCase email ->
  forall d, query email d = matchStage email d.
Proof.
  intros H d. unfold query, matchStage, donorEmailSetter.
  now rewrite toLowerCase_idem, H.
Qed.

(** X22.  A page of the donations of a donor, for a positive page and
    limit.  The total is the number of completed donations under the
    address as the setters of the schema leave it, lower-cased and trimmed;
    the page holds as many of them as the limit and the total leave, newest
    first; it is non-empty exactly for pages up to [totalPages], [hasNext]
    tells whether the next page is non-empty and [hasPrev] whether the page
    is not the first; no item says whose an anonymous donation is.  The
    donor's statistics count the completed donations under the lower-cased
    address as it is, and their first and last date bound the dates of
    those.  The two counts agree for an address without surrounding blanks;
    for one with such blanks the statistics are empty on a collection of
    trimmed addresses, whatever the total. *)
Theorem donor_page (email : string) (page limit : positive)
        (store : list Donation.t) :
  let r := getDonationsByEmail email page limit store in
  let items := fst (fst r) in
  let stats := snd (fst r) in
  let pg := snd r in
  let matches := filter (query email) store in
  let counted := filter (matchStage email) store in
  total pg = Z.of_nat (List.length matches)
  /\ totalDonations stats = List.length counted
  /\ Z.of_nat (List.length items)
     = Z.max 0 (Z.min (Z.pos limit)
                      (total pg - (Z.pos page - 1) * Z.pos limit))
  /\ (forall j, In j items ->
        exists d, In d store /\ j = toJSON d
                  /\ donorEmail d = Str.trim (Str.toLowerCase email)
                  /\ status d = completed)
  /\ StronglySorted (fun a b => (j_createdAt b <= j_createdAt a)%Z) items
  /\ (items <> [] <-> (Z.pos page <= totalPages pg)%Z)
  /\ (hasNext pg = true <->
      fst (fst (getDonationsByEmail email (page + 1) limit store)) <> [])
  /\ (hasPrev pg = true <-> page <> 1%positive)
  /\ (forall j, In j items -> j_isAnonymous j = true ->
        j_donorEmail j = None /\ j_donorName j = "Anonymous"%string)
  /\ (forall d, In d counted ->
        exists f l, firstDonation stats = Some f /\ lastDonation stats = Some l
                    /\ (f <= createdAt d <= l)%Z)
  /\ (Str.trim (Str.toLowerCase email) = Str.toLowerCase email ->
      total pg = Z.of_nat (totalDonations stats))
  /\ (Str.trim (Str.toLowerCase email) <> Str.toLowerCase email ->
      (forall d, In d store -> Str.trim (donorEmail d) = donorEmail d) ->
      stats = mkDonorStats 0 None None).
Proof.
  intros r items stats pg matches counted.
  assert (Hlen : forall p,
             Z.of_nat (List.length
                         (fst (fst (getDonationsByEmail email p limit store))))
             = Z.max 0 (Z.min (Z.pos limit)
                          (Z.of_nat (List.length matches)
                           - (Z.pos p - 1) * Z.pos limit)))
    by (intros p; apply page_length).
  assert (Hne : forall l : list Json,
             l <> [] <-> (0 < Z.of_nat (List.length l))%Z).
  { intros [|a l]; cbn [List.length]; split; intros H;
      try congruence; try discriminate; lia. }
  assert (Hcount : totalDonations stats = List.length counted).
  { unfold stats, r, getDonationsByEmail, donorStats. cbn [fst snd].
    fold counted. destruct counted; reflexivity. }
  split; [reflexivity|]. split; [exact Hcount|]. split; [apply Hlen|].
  split; [|split; [|split; [|split; [|split; [|split; [|split; [|split]]]]]]].
  - intros j Hj. unfold items, r, getDonationsByEmail in Hj.
    cbn [fst snd] in Hj.
    apply in_map_iff in Hj. destruct Hj as (d & <- & Hd).
    apply firstn_incl, skipn_incl in Hd. unfold newestFirst in Hd.
    apply (Permutation_in _ (sortDesc_perm _ _ _)) in Hd.
    apply filter_In in Hd. destruct Hd as [Hd Hq].
    unfold query in Hq. apply andb_true_iff in Hq. destruct Hq as [He Hs].
    apply String.eqb_eq in He.
    unfold donorEmailSetter in He. rewrite toLowerCase_idem in He.
    exists d. repeat split; auto.
    destruct (status d); simpl in Hs; congruence.
  - unfold items, r, getDonationsByEmail. cbn [fst snd].
    apply (sorted_map _ _
             (Agg.descBy (fun d => inject_Z (createdAt d)))).
    + intros a b Hab. rewrite !toJSON_createdAt.
      unfold Agg.descBy in Hab. now rewrite <- Zle_Qle in Hab.
    + apply firstn_sorted, skipn_sorted. unfold newestFirst.
      apply sortDesc_sorted.
  - rewrite Hne. unfold items, r. rewrite Hlen.
    unfold pg, r, getDonationsByEmail, ceilDiv. cbn [fst snd totalPages].
    fold matches. set (t := Z.of_nat (List.length matches)).
    set (L := Z.pos limit). set (P := Z.pos page).
    assert (HL : (0 < L)%Z) by (unfold L; lia).
    assert (HP : (0 < P)%Z) by (unfold P; lia).
    assert (Hd : (L * ((t + L - 1) / L) <= t + L - 1)%Z)
      by (apply Z.mul_div_le; exact HL).
    assert (Hu : (t + L - 1 < L * ((t + L - 1) / L + 1))%Z).
    { pose proof (Z.mul_succ_div_gt (t + L - 1) L HL). lia. }
    split; intros H.
    + assert (Hk : ((P - 1) * L < t)%Z) by lia. nia.
    + assert (Hk : ((P - 1) * L < t)%Z) by nia. lia.
  - rewrite Hne, Hlen.
    unfold pg, r, getDonationsByEmail. cbn [fst snd hasNext].
    fold matches. rewrite Z.ltb_lt.
    replace (Z.pos (page + 1) - 1)%Z with (Z.pos page) by lia.
    assert (HL : (0 < Z.pos limit)%Z) by lia.
    set (k := (Z.pos page * Z.pos limit)%Z). lia.
  - unfold pg, r, getDonationsByEmail. cbn [fst snd hasPrev].
    rewrite Z.ltb_lt. split; intros H.
    + intros ->. lia.
    + assert (page <> 1%positive -> (1 < Z.pos page)%Z) by lia. auto.
  - intros j Hj. unfold items, r, getDonationsByEmail in Hj.
    cbn [fst snd] in Hj.
    apply in_map_iff in Hj. destruct Hj as (d & <- & _).
    unfold toJSON. destruct (isAnonymous d); simpl; [auto | discriminate].
  - intros d Hd. unfold stats, r, getDonationsByEmail, donorStats.
    cbn [fst snd]. fold counted.
    destruct counted as [|d0 ds]; [destruct Hd|].
    cbn [map firstDonation lastDonation]. do 2 eexists.
    split; [reflexivity|]. split; [reflexivity|].
    destruct (fold_min_bounds (map createdAt ds) (createdAt d0)) as [m1 m2].
    destruct (fold_max_bounds (map createdAt ds) (createdAt d0)) as [M1 M2].
    destruct Hd as [<-|Hd]; [lia|].
    split; [apply m2 | apply M2]; now apply in_map.
  - intros Htrim. rewrite Hcount. unfold pg, r, getDonationsByEmail.
    cbn [fst snd total]. unfold counted.
    now rewrite (filter_ext _ _ (query_matchStage email Htrim)).
  - intros Hpad Hstore.
    assert (Hnil : counted = []).
    { unfold counted. apply filter_none. intros d Hd.
      unfold matchStage.
      destruct (String.eqb_spec (donorEmail d) (Str.toLowerCase email))
        as [E|E]; [|reflexivity].
      exfalso. apply Hpad. rewrite <- E. now apply Hstore. }
    unfold stats, r, getDonationsByEmail, donorStats. cbn [fst snd].
    fold counted. now rewrite Hnil.
Qed.

(** An address with a blank before it: the page holds the donation, the
    donor's statistics count none. *)
Lemma donor_page_witness :
  let store := [ mk "A" "a@example.org" 50 false completed 1000 ] in
  let r := getDonationsByEmail " A@example.org" 1 10 store in
  total (snd r) = 1%Z /\ snd (fst r) = mkDonorStats 0 None None.
Proof.
  intros store r.
  destruct (donor_page " A@example.org" 1 10 store)
    as (H1 & _ & _ & _ & _ & _ & _ & _ & _ & _ & _ & H12).
  split; [exact H1|]. apply H12.
  - discriminate.
  - intros d [<-|[]]. reflexivity.
Defined.

End DonorPageFacts.

(** ** Updating the profile *)

Section ProfileFacts.
Import Db UserModel Frame Profile.

Lemma set_name_back (v : string) (u : User.t) :
  set_name (User.name u) (set_name v u) = u.
Proof. destruct u; reflexivity. Qed.

Lemma set_name_same (u : User.t) : set_name (User.name u) u = u.
Proof. destruct u; reflexivity. Qed.

(** X23.  [updateProfile] for a stored user changes nothing but the
    name of that user: whatever keys the body carries, the stored document
    is afterwards the one before up to its name, and no other account, id
    or address changes.  When the name does change, the new one is the
    trimmed value of the key [name], of valid length, and the call returns
    the public fields of the updated document.  A body without the key
    [name] is refused with the validation error and nothing is written. *)
Theorem updateProfile_changes_name_only
        (w : World) (userId : nat) (updateData : list (string * string))
        (u : User.t) :
  Spec.stored w userId = Some u ->
  let r := updateProfile userId updateData w in
  onlyAccount userId w (snd r)
  /\ tick (snd r) = tick w
  /\ (exists u', Spec.stored (snd r) userId = Some u'
        /\ set_name (User.name u) u' = u
        /\ (User.name u' <> User.name u ->
            exists v, lookup "name" updateData = Some v
                      /\ User.name u' = Str.trim v
                      /\ nameValid (User.name u') = true
                      /\ fst r = Ok (User.toJSON u')))
  /\ (lookup "name" updateData = None ->
      r = (Throw (Err.ValidationError "No valid fields to update"), w)).
Proof.
  intros Hs r. unfold r, updateProfile.
  destruct (lookup "name" updateData) as [v|] eqn:El.
  - destruct (nameValid (Str.trim v)) eqn:Ev.
    + unfold findByIdAndUpdate, updateById, findById, findOne, bind, modify,
        gets, ret, throw. cbn [fst snd].
      assert (Hf : find (hasId userId)
                     (map (fun d => if hasId userId d
                                    then set_name (Str.trim v) d else d)
                          (users w))
                   = Some (set_name (Str.trim v) u)).
      { apply stored_updated; [exact Hs | reflexivity]. }
      cbn [users set_users]. rewrite Hf. cbn [fst snd].
      split; [|split; [reflexivity|split; [|discriminate]]].
      * apply touched_only; [|reflexivity]. cbn [users set_users].
        apply touched_more; [apply touched_none | |]; reflexivity.
      * exists (set_name (Str.trim v) u). unfold Spec.stored.
        cbn [users set_users]. split; [exact Hf|].
        split; [apply set_name_back|]. intros _. exists v.
        split; [reflexivity|]. split; [reflexivity|].
        split; [exact Ev | reflexivity].
    + unfold throw. cbn [fst snd].
      split; [|split; [reflexivity|split; [|discriminate]]].
      * now apply same_users_only.
      * exists u. split; [exact Hs|]. split; [apply set_name_same|].
        intros H. now elim H.
  - unfold throw. cbn [fst snd].
    split; [|split; [reflexivity|split; [|reflexivity]]].
    + now apply same_users_only.
    + exists u. split; [exact Hs|]. split; [apply set_name_same|].
      intros H. now elim H.
Qed.

End ProfileFacts.

(** ** The record of the lockout *)

Section LockRecordFacts.
Context {C : Clock} {B : Bcrypt} {J : Jwt.Jsonwebtoken}.
Import Db UserModel AuthService Spec Frame.

Lemma update_keeps (P : User.t -> Prop) (i : nat) (f : User.t -> User.t)
      (l : list User.t) :
  (forall d, In d l -> hasId i d = true -> P (f d)) ->
  (forall d, In d l -> P d) ->
  forall d, In d (map (fun d => if hasId i d then f d else d) l) -> P d.
Proof.
  intros Hf Hl d Hd. apply in_map_iff in Hd. destruct Hd as (x & <- & Hx).
  destruct (hasId i x) eqn:E; auto.
Qed.

Lemma update_keeps_same (P : User.t -> Prop) (i : nat) (f : User.t -> User.t)
      (l : list User.t) :
  (forall d, P d -> P (f d)) ->
  (forall d, In d l -> P d) ->
  forall d, In d (map (fun d => if hasId i d then f d else d) l) -> P d.
Proof.
  intros Hf Hl. apply update_keeps; auto.
Qed.

Lemma unique_user (l : list User.t) (x y : User.t) :
  NoDup (map User._id l) -> In x l -> In y l ->
  User._id x = User._id y -> x = y.
Proof.
  induction l as [|z l IH]; simpl; [tauto|].
  intros Hnd Hx Hy E. inversion Hnd as [|? ? Hz Hnd']; subst.
  destruct Hx as [->|Hx], Hy as [->|Hy].
  - reflexivity.
  - exfalso. apply Hz. rewrite E. now apply in_map.
  - exfalso. apply Hz. rewrite <- E. now apply in_map.
  - now apply IH.
Qed.

Lemma map_update_fields (T : Type) (g : User.t -> T) (i : nat)
      (f : User.t -> User.t) (l : list User.t) :
  (forall d, g (f d) = g d) ->
  map g (map (fun d => if hasId i d then f d else d) l) = map g l.
Proof.
  intros H. rewrite map_map. apply map_ext. intros d.
  destruct (hasId i d); [apply H | reflexivity].
Qed.

(** X24.  Under the unique index on [_id], a login of any outcome keeps
    the record of the lockout well-formed: no counter of failed attempts is
    negative, and an account carries a lock only beside five failed
    attempts or more. *)
Theorem login_keeps_lock_record (w : World)
        (email password ipAddress : string) :
  idsUnique w -> lockRecorded w ->
  let w' := snd (login email password ipAddress w) in
  idsUnique w' /\ lockRecorded w'.
Proof.
  intros Hnd Hinv w'. split.
  - unfold idsUnique, w'.
    destruct (login_touched w email password ipAddress) as [_ Ht].
    destruct (account w email) as [u|].
    + now rewrite (touched_ids _ _ _ Ht).
    + now rewrite Ht.
  - unfold w', lockRecorded.
    unfold login, findOne, incLoginAttempts, isLocked, resetLoginAttempts,
      issueTokens, addRefreshToken, saveRefreshTokens, updateById, bind,
      gets, modify, now, ret, throw.
    destruct (find (emailFilter (Str.toLowerCase email)) (users w)) as [u|] eqn:Ef;
      [|exact Hinv].
    apply find_some in Ef. destruct Ef as [Hu _].
    assert (Hsame : forall d, In d (users w) ->
                              hasId (User._id u) d = true -> d = u).
    { intros d Hd Hi. apply (unique_user (users w)); auto.
      unfold hasId in Hi. now apply Nat.eqb_eq in Hi. }
    destruct (Hinv u Hu) as [Hu0 Hu5].
    assert (H5 : User.lockUntil u <> None -> (5 <= User.loginAttempts u)%Z)
      by exact Hu5.
    clear Hu5.
    destruct (User.lockUntil u) as [l|] eqn:El; simpl;
      repeat (match goal with
              | |- context [if ?b then _ else _] => destruct b eqn:?
              end; simpl);
      rewrite ?Z.leb_le, ?Z.ltb_lt, ?Z.leb_gt, ?Z.ltb_ge in *;
      repeat first
        [ exact Hinv
        | apply update_keeps_same;
          [ intros ? [? ?]; cbn; split; assumption | ]
        | apply update_keeps;
          [ let d := fresh "d" in
            let Hd := fresh "Hd" in
            let Hi := fresh "Hi" in
            intros d Hd Hi; rewrite (Hsame d Hd Hi); cbn; rewrite ?El;
            split; [lia | intros HH; first [lia | now elim HH | apply Z.le_trans with (User.loginAttempts u); [apply H5; discriminate | lia]]]
          | exact Hinv ] ].
Qed.

Lemma lockRecorded_fields (w w' : World) :
  map lockFields (users w') = map lockFields (users w) ->
  lockRecorded w -> lockRecorded w'.
Proof.
  intros Hm Hinv d Hd.
  assert (Hin : In (lockFields d) (map lockFields (users w)))
    by (rewrite <- Hm; now apply in_map).
  apply in_map_iff in Hin. destruct Hin as (x & Hx & Hxin).
  unfold lockFields in Hx. injection Hx as Ha Hl. rewrite <- Ha, <- Hl.
  now apply Hinv.
Qed.

Ltac same_fields :=
  simpl; branches;
  rewrite ?map_update_fields by (intros ?; reflexivity); reflexivity.

(** X25.  No operation on an account other than a login writes the
    fields of the lockout: after [refreshToken], [logout],
    [changePassword], [deactivateAccount] and [updateProfile], whatever
    their outcome, every document has the counter of failed attempts and
    the lock it had before; so each keeps the record of the lockout
    well-formed. *)
Theorem lockout_written_by_login_only (w : World) (userId : nat) :
  let same (w' : World) :=
    map lockFields (users w') = map lockFields (users w) in
  (forall tok, same (snd (refreshToken tok w)))
  /\ (forall tok, same (snd (logout userId tok w)))
  /\ (forall currentPassword newPassword,
        same (snd (changePassword userId currentPassword newPassword w)))
  /\ same (snd (deactivateAccount userId w))
  /\ (forall updateData,
        same (snd (Profile.updateProfile userId updateData w)))
  /\ (forall w', same w' -> lockRecorded w -> lockRecorded w').
Proof.
  intros same. unfold same.
  split; [|split; [|split; [|split; [|split]]]].
  - intros tok.
    unfold refreshToken, issueTokens, removeRefreshToken, addRefreshToken,
      saveRefreshTokens, updateById, findById, findOne, bind, gets, modify,
      now, ret, lift, throw. simpl.
    destruct (Jwt.verifyRefreshToken (clock (tick w)) tok) as [c|e];
      [|reflexivity].
    destruct (find (hasId (Jwt.id c)) (users w)) as [u|]; [|reflexivity].
    destruct (find _ (User.refreshTokens u)); same_fields.
  - intros tok.
    unfold logout, removeRefreshToken, saveRefreshTokens, updateById,
      findById, findOne, bind, gets, modify, ret, throw. simpl.
    destruct (find (hasId userId) (users w)) as [u|]; [|reflexivity].
    destruct tok as [tok|]; same_fields.
  - intros currentPassword newPassword.
    unfold changePassword, hashPassword, updateById, findById, findOne,
      bind, gets, modify, now, ret, throw. simpl.
    destruct (find (hasId userId) (users w)) as [u|]; [|reflexivity].
    same_fields.
  - unfold deactivateAccount, findByIdAndUpdate, updateById, findById,
      findOne, bind, gets, modify, ret, throw. simpl.
    destruct (find _ _); same_fields.
  - intros updateData.
    unfold Profile.updateProfile, findByIdAndUpdate, updateById, findById,
      findOne, bind, gets, modify, ret, throw.
    destruct (Profile.lookup "name" updateData) as [v|]; [|reflexivity].
    destruct (nameValid (Str.trim v)); [|reflexivity].
    simpl. destruct (find _ _); same_fields.
  - intros w'. apply lockRecorded_fields.
Qed.

End LockRecordFacts.

(** ** The properties above on the accounts of the examples *)

Section MoreExamples.
Import Db Spec UserModel AuthService AuthMiddleware AuthGuards Frame.

#[local] Existing Instance Demo.demoClock.
#[local] Existing Instance Demo.demoBcrypt.
#[local] Existing Instance Demo.demoJwt.

(** Ann, three failures on record, logs in with her password, her
    address typed with capitals and with blanks around it. *)
Lemma login_success_resets_witness :
  let u := Demo.ann 3 None in
  let w := Demo.world u in
  exists json tokens u',
    fst (login " Ann@Example.org " "Correct#Horse1" "10.0.0.1" w)
    = Ok (json, tokens)
    /\ account (snd (login " Ann@Example.org " "Correct#Horse1" "10.0.0.1" w))
               " Ann@Example.org " = Some u'
    /\ User.loginAttempts u' = 0%Z.
Proof.
  intros u w.
  destruct (@login_success_resets Demo.demoClock Demo.demoBcrypt Demo.demoJwt w " Ann@Example.org " "Correct#Horse1"
              "10.0.0.1" u eq_refl eq_refl eq_refl)
    as (json & tokens & u' & H1 & H2 & H3 & _).
  - intros l H. discriminate H.
  - unfold u. simpl. lia.
  - exists json, tokens, u'. split; [exact H1|]. split; [exact H2 | exact H3].
Defined.

(** An address nobody has and a wrong password for Ann's get the same
    answer. *)
Lemma login_hides_unknown_address_witness :
  let w := Demo.world (Demo.ann 0 None) in
  login "bob@example.org" "guess" "10.0.0.1" w
  = (Throw (Err.AuthError "Invalid email or password"), w)
  /\ fst (login "ann@example.org" "guess" "10.0.0.1" w)
     = Throw (Err.AuthError "Invalid email or password").
Proof.
  intros w.
  destruct (@login_hides_unknown_address Demo.demoClock Demo.demoBcrypt Demo.demoJwt w "bob@example.org" "guess"
              "10.0.0.1") as [H1 _].
  destruct (@login_hides_unknown_address Demo.demoClock Demo.demoBcrypt Demo.demoJwt w "ann@example.org" "guess"
              "10.0.0.1") as [_ H2].
  split; [exact (H1 eq_refl)|].
  apply (H2 (Demo.ann 0 None) eq_refl eq_refl); [|reflexivity].
  intros l H. discriminate H.
Defined.

(** A request with a live access token of Ann's passes the guard. *)
Lemma authenticate_sound_witness :
  let u := Demo.ann 0 None in
  let w := Demo.world u in
  let header := ("Bearer " ++ Demo.sign "A" (Demo.clock 0 - 60000) u)%string in
  fst (authenticate (Some header) w) = Ok (Ok u)
  /\ stored w 1 = Some u /\ User.isActive u = true.
Proof.
  intros u w header.
  destruct (@authenticate_sound Demo.demoClock Demo.demoJwt w (Some header)) as (_ & _ & _ & H & _).
  destruct (H u eq_refl)
    as (authHeader & token & claims & Ha & He & Hv & Hs & Hact & _).
  split; [reflexivity|]. split; [reflexivity | exact Hact].
Defined.

(** The optional guard attaches Ann for a token older than her last
    change of password, which the mandatory guard refuses. *)
Lemma optionalAuth_attaches_iff_witness :
  let u := User.set_passwordChangedAt (Some (Demo.clock 0 - 1000)%Z)
             (Demo.ann 0 None) in
  let w := Demo.world u in
  let header := ("Bearer " ++ Demo.sign "A" (Demo.clock 0 - 60000) u)%string in
  fst (optionalAuth (Some header) w) = Ok (Some u)
  /\ fst (authenticate (Some header) w)
     = Ok (Throw (Err.AppError
                    "Password recently changed. Please log in again" 401)).
Proof.
  intros u w header.
  destruct (@optionalAuth_attaches_iff Demo.demoClock Demo.demoJwt w (Some header)) as (_ & _ & _ & H).
  apply (H header (Demo.sign "A" (Demo.clock 0 - 60000) u)
           (Jwt.mkClaims 1 1699999940) u (Demo.clock 0 - 1000)%Z
           eq_refl eq_refl eq_refl eq_refl eq_refl).
  - intros l Hl. discriminate Hl.
  - reflexivity.
  - reflexivity.
Defined.

(** A stored refresh token of Ann's passes the guard, and the service
    then rotates it. *)
Lemma validateRefreshToken_agrees_witness :
  let tok := Demo.sign "R" (Demo.clock 0 - 60000) (Demo.ann 0 None) in
  let u := User.set_refreshTokens [User.mkToken tok (Demo.clock 0 - 60000)%Z]
             (Demo.ann 0 None) in
  let w := Demo.world u in
  fst (validateRefreshToken (Some tok) w) = Ok (Ok u)
  /\ exists tokens,
       fst (refreshToken tok (snd (validateRefreshToken (Some tok) w)))
       = Ok tokens.
Proof.
  intros tok u w.
  destruct (@validateRefreshToken_agrees Demo.demoClock Demo.demoJwt w (Some tok)) as (_ & _ & H).
  split; [reflexivity|].
  apply (H tok u (Jwt.mkClaims 1 1699999940) eq_refl eq_refl eq_refl eq_refl).
Defined.

(** Ann logs out with her refresh token, which is then refused. *)
Lemma logout_revokes_witness :
  let tok := Demo.sign "R" (Demo.clock 0 - 60000) (Demo.ann 0 None) in
  let u := User.set_refreshTokens [User.mkToken tok (Demo.clock 0 - 60000)%Z]
             (Demo.ann 0 None) in
  let w := Demo.world u in
  let w1 := snd (logout 1 (Some tok) w) in
  fst (logout 1 (Some tok) w) = Ok tt
  /\ fst (refreshToken tok w1) = Throw (Err.AuthError "Invalid refresh token").
Proof.
  intros tok u w w1.
  destruct (@logout_revokes Demo.demoClock Demo.demoJwt w 1 u eq_refl) as [H _].
  destruct (H tok) as (H1 & _ & H3); [discriminate|].
  split; [exact H1|].
  apply (H3 (Jwt.mkClaims 1 1699999940)); reflexivity.
Defined.

(** Ann deactivates her account and can no longer log in. *)
Lemma deactivation_closes_account_witness :
  let u := Demo.ann 0 None in
  let w := Demo.world u in
  let w1 := snd (deactivateAccount 1 w) in
  fst (deactivateAccount 1 w) = Ok "Account deactivated successfully"%string
  /\ fst (login "ann@example.org" "Correct#Horse1" "10.0.0.1" w1)
     = Throw (Err.AuthError "Account is deactivated").
Proof.
  intros u w w1.
  destruct (@deactivation_closes_account Demo.demoClock Demo.demoBcrypt Demo.demoJwt w 1 u eq_refl) as (H1 & _ & H3 & _).
  split; [exact H1|].
  destruct (H3 "ann@example.org"%string "Correct#Horse1"%string
              "10.0.0.1"%string eq_refl) as [H _].
  - intros l Hl. discriminate Hl.
  - exact H.
Defined.

(** A wrong current password, and a new password equal to the current
    one, for Ann. *)
Lemma changePassword_failure_writes_nothing_witness :
  let u := Demo.ann 0 None in
  let w := Demo.world u in
  fst (changePassword 1 "guess" "Better#Horse2" w)
  = Throw (Err.AuthError "Current password is incorrect")
  /\ users (snd (changePassword 1 "guess" "Better#Horse2" w)) = users w
  /\ fst (changePassword 1 "Correct#Horse1" "Correct#Horse1" w)
     = Throw (Err.ValidationError
                "New password must be different from current password").
Proof.
  intros u w.
  destruct (@changePassword_failure_writes_nothing Demo.demoClock Demo.demoBcrypt w 1 "guess" "Better#Horse2")
    as (Hw & _ & Hc & _).
  destruct (@changePassword_failure_writes_nothing Demo.demoClock Demo.demoBcrypt w 1 "Correct#Horse1"
              "Correct#Horse1") as (_ & _ & _ & Hs & _).
  pose proof (Hc u eq_refl eq_refl) as H1.
  split; [exact H1|]. split; [exact (Hw _ H1)|].
  exact (Hs u eq_refl eq_refl eq_refl).
Defined.

(** Ann changes her password: the old one is refused, the new one
    accepted. *)
Lemma changed_password_takes_over_witness :
  let u := Demo.ann 0 None in
  let w := Demo.world u in
  let w1 := snd (changePassword 1 "Correct#Horse1" "Better#Horse2" w) in
  fst (login "ann@example.org" "Correct#Horse1" "10.0.0.1" w1)
  = Throw (Err.AuthError "Invalid email or password")
  /\ exists json tokens,
       fst (login "ann@example.org" "Better#Horse2" "10.0.0.1" w1)
       = Ok (json, tokens).
Proof.
  intros u w w1.
  exact (@changed_password_takes_over Demo.demoClock Demo.demoBcrypt Demo.demoJwt w "ann@example.org" "Correct#Horse1"
           "Better#Horse2" "10.0.0.1" u eq_refl eq_refl eq_refl eq_refl
           eq_refl eq_refl eq_refl eq_refl eq_refl).
Defined.

Lemma demo_idsFresh : idsFresh (Demo.world (Demo.ann 0 None)).
Proof. intros d [<-|[]]. simpl. lia. Qed.

(** Bob registers beside Ann and can log in. *)
Lemma register_then_login_witness :
  let w := Demo.world (Demo.ann 0 None) in
  let w1 := snd (register " Bob " "Bob@Example.org" "Secret#Pass9" w) in
  exists json tokens d,
    fst (register " Bob " "Bob@Example.org" "Secret#Pass9" w)
    = Ok (json, tokens)
    /\ users w1 = users w ++ [d]
    /\ User.name d = "Bob"%string
    /\ User.email d = "bob@example.org"%string
    /\ exists json' tokens',
         fst (login "Bob@Example.org" "Secret#Pass9" "10.0.0.1" w1)
         = Ok (json', tokens').
Proof.
  intros w w1.
  destruct (@register_then_login Demo.demoClock Demo.demoBcrypt Demo.demoJwt w " Bob " "Bob@Example.org" "Secret#Pass9"
              "10.0.0.1" demo_idsFresh eq_refl eq_refl eq_refl eq_refl
              eq_refl eq_refl)
    as (json & tokens & d & H1 & H2 & _ & _ & H5 & H6 & _ & _ & _ & _ & _
        & _ & _ & H14).
  exists json, tokens, d.
  split; [exact H1|]. split; [exact H2|]. split; [exact H5|].
  split; [exact H6 | exact H14].
Defined.

(** ... and the collection is as well-formed after as before. *)
Lemma register_keeps_invariants_witness :
  let w := Demo.world (Demo.ann 0 None) in
  let w' := snd (register " Bob " "Bob@Example.org" "Secret#Pass9" w) in
  idsFresh w' /\ emailsUnique w' /\ emailsNormal w'.
Proof.
  intros w w'.
  apply (@register_keeps_invariants Demo.demoClock Demo.demoBcrypt Demo.demoJwt w " Bob " "Bob@Example.org"
           "Secret#Pass9" demo_idsFresh).
  - unfold emailsUnique. simpl. constructor; [simpl; tauto | constructor].
  - intros d [<-|[]]. split; reflexivity.
Defined.

(** The fifth wrong password for Ann sets the lock beside a counter of
    five. *)
Lemma login_keeps_lock_record_witness :
  let w := Demo.world (Demo.ann 4 None) in
  lockRecorded (snd (login "ann@example.org" "guess" "10.0.0.1" w)).
Proof.
  intros w.
  destruct (@login_keeps_lock_record Demo.demoClock Demo.demoBcrypt
              Demo.demoJwt w "ann@example.org" "guess" "10.0.0.1")
    as [_ H].
  - unfold idsUnique. simpl. constructor; [simpl; tauto | constructor].
  - intros d [<-|[]]. simpl. split; [lia|]. intros H. now elim H.
  - exact H.
Defined.

End MoreExamples.

Section StoreExamples.
Import TestimonialService Moderation.

(** Two completed donations of 50 and 20 and a pending one of 100. *)
Lemma stats_of_completed_witness :
  let store := [ Donation.mk "A" "a@example.org" 50 false Donation.completed 1000;
                 Donation.mk "B" "b@example.org" 100 false Donation.pending 2000;
                 Donation.mk "C" "c@example.org" 20 true Donation.completed 3000 ] in
  let s := Donation.getStats store in
  Donation.totalDonations s = 2%nat
  /\ In (Donation.maxAmount s) [50%Q; 20%Q]
  /\ (Donation.minAmount s <= 50 <= Donation.maxAmount s)%Q.
Proof.
  intros store s.
  destruct (stats_of_completed store) as (H1 & H2 & _ & H4).
  - discriminate.
  - split; [exact H1|]. split; [exact H2|].
    apply H4. simpl. now left.
Defined.

(** Ratings 5 and 3 in public, and a hidden one. *)
Lemma ratingStats_within_bounds_witness :
  let store := [ Testimonial.mk 1 "Ann" 5 true false true;
                 Testimonial.mk 2 "Bob" 3 true false true;
                 Testimonial.mk 3 "Cy" 1 true false false ] in
  let r := Testimonial.getRatingStats store in
  (1 <= Testimonial.averageRating r <= 5)%Q.
Proof.
  intros store r.
  destruct (ratingStats_within_bounds store) as [_ H].
  - intros x [<-|[<-|[<-|[]]]] _ _; simpl; lia.
  - apply H. discriminate.
Defined.

Lemma moderation_unknown_id_witness :
  let s := [ Testimonial.mk 7 "Ann" 5 false false true ] in
  approveTestimonial 9 2 (Some "Looks fine"%string) s
  = (Throw (Err.NotFoundError "Testimonial not found"), s)
  /\ deleteTestimonial 9 s
     = (Throw (Err.NotFoundError "Testimonial not found"), s).
Proof.
  intros s.
  destruct (moderation_unknown_id s 9 2 true (Some "Looks fine"%string)
              eq_refl) as (H1 & _ & _ & _ & H5 & _).
  split; [exact H1 | exact H5].
Defined.

Lemma reject_leaves_featured_witness :
  let x := Testimonial.mk 8 "Bob" 4 true true true in
  ~ featuredApproved
      (snd (rejectTestimonial 8 2 (Some "Off topic"%string) [x])).
Proof.
  intros x.
  destruct (reject_leaves_featured [x] 8 2 (Some "Off topic"%string) x)
    as [H _].
  - now left.
  - reflexivity.
  - reflexivity.
  - destruct (H eq_refl) as [_ H']. exact H'.
Defined.

(** Bob's testimonial is rejected: the statistics are those of Ann's
    alone. *)
Lemma rejected_not_counted_witness :
  let a := Testimonial.mk 7 "Ann" 5 true true true in
  let b := Testimonial.mk 8 "Bob" 2 true false true in
  Testimonial.getRatingStats
    (snd (rejectTestimonial 8 2 (Some "Off topic"%string) [a; b]))
  = Testimonial.getRatingStats [a].
Proof.
  intros a b.
  destruct (rejected_not_counted [a; b] 8 2 (Some "Off topic"%string) None)
    as [H _].
  destruct (H eq_refl) as [H1 _]. exact H1.
Defined.

Lemma moderation_keeps_invariant_witness :
  let s := [ Testimonial.mk 7 "Ann" 5 true true true;
             Testimonial.mk 8 "Bob" 4 false false true ] in
  featuredApproved (snd (approveTestimonial 8 2 None s))
  /\ featuredApproved (snd (deleteTestimonial 7 s)).
Proof.
  intros s.
  destruct (moderation_keeps_invariant s 8 true) as (H1 & _).
  - simpl. repeat constructor; simpl; intuition discriminate.
  - intros x [<-|[<-|[]]]; simpl; congruence.
  - destruct (moderation_keeps_invariant s 7 true) as (_ & _ & _ & H4 & _).
    + simpl. repeat constructor; simpl; intuition discriminate.
    + intros x [<-|[<-|[]]]; simpl; congruence.
    + split; [exact (H1 2%nat None) | exact H4].
Defined.

Lemma delete_removes_witness :
  let x := Testimonial.mk 7 "Ann" 5 true true true in
  let y := Testimonial.mk 8 "Bob" 4 false false true in
  snd (deleteTestimonial 7 [x; y]) = [y]
  /\ fst (deleteTestimonial 7 (snd (deleteTestimonial 7 [x; y])))
     = Throw (Err.NotFoundError "Testimonial not found").
Proof.
  intros x y.
  destruct (delete_removes [x; y] 7 x) as (_ & H2 & _ & H4).
  - simpl. repeat constructor; simpl; intuition discriminate.
  - now left.
  - reflexivity.
  - split; [exact H2 | exact H4].
Defined.

(** A body that asks for a role and a name changes the name only. *)
Lemma updateProfile_changes_name_only_witness :
  let u := Demo.ann 0 None in
  let w := Demo.world u in
  let r := Profile.updateProfile 1 [("role", "admin"); ("name", " Ann B ")]%string w in
  exists u', Spec.stored (snd r) 1 = Some u'
             /\ Profile.set_name (User.name u) u' = u.
Proof.
  intros u w r.
  destruct (updateProfile_changes_name_only w 1
              [("role", "admin"); ("name", " Ann B ")]%string u eq_refl)
    as (_ & _ & (u' & H1 & H2 & _) & _).
  exists u'. split; [exact H1 | exact H2].
Defined.

End StoreExamples.
